(** * merge-jsonc: path guard, safe I/O and merge decision engine

    A shallow embedding of [src/fs-safety.ts] and [src/core.ts], of the
    configuration loader [src/config.ts] (in its validating form) and of
    the pure part of the command line [src/cli.ts].

    Modelling boundary.
    - Paths follow the POSIX flavour of [node:path] ([sep] is "/").
    - The file system is a finite map from absolute paths in normal form
      to nodes (regular file with text and modification time, or directory), plus
      the table of symbolic-link resolutions that [realpathSync] consults
      and a log of the mutating calls.  Hard links are not modelled;
      permission and disk-space failures are not modelled, the ENOENT /
      EISDIR failures of the calls are.
    - [writeFileSync] and [renameSync] are modelled on paths that are their
      own real path.  A write through a symbolic link would land on the
      target of the link, and a rename would move the link itself: the
      statements that read the file system back after a commit are made
      for paths that are no such links ([own_path]), and the statements
      about every other path for a file system without symbolic links.
    - File contents are the text [readFileSync (p, "utf8")] returns; files
      hold valid UTF-8, so the text and the bytes on disk coincide and the
      size reported by [statSync] is the length of the text.
    - Modification times are integers extended with [-Infinity]; only their
      order is ever used by the code.  The time of a directory is kept when
      an entry is created in it; the statements about the paths a commit
      leaves alone compare directories up to their time.
    - [jsonc-parser], [json5] and [JSON.stringify] are parameters.  The
      [deepmerge] package is modelled on JSON values after its published
      algorithm (default options).  A JSON value stands for its own
      enumerable properties on the prototype of an object literal; the
      prototype that an assignment to "__proto__" leaves on a merged object
      is not part of the value.
    - The dynamic [import] of a configuration module is a parameter; the
      argument parser of the command line is not modelled, the object it
      returns is. *)

From stdpp Require Import gmap strings list fin_maps pretty.
From Stdlib Require Import ZArith Ascii String Bool Lia.

Set Warnings "-register-all".

Open Scope string_scope.
Open Scope Z_scope.

(* ===================================================================== *)
(** ** JavaScript string primitives *)
(* ===================================================================== *)

Module Js.

(** [s.split(c)] for a one-character separator. *)
Fixpoint split (c : ascii) (s : string) : list string :=
  match s with
  | EmptyString => [EmptyString]
  | String a r =>
      if Ascii.eqb a c then EmptyString :: split c r
      else match split c r with
           | h :: t => String a h :: t
           | [] => [String a EmptyString]
           end
  end.

(** [l.join(sep)]. *)
Definition join (sep : string) (l : list string) : string := String.concat sep l.

(** [s.startsWith(pre)]. *)
Definition startsWith (s pre : string) : bool := String.prefix pre s.

Definition lower_ascii (a : ascii) : ascii :=
  let n := nat_of_ascii a in
  if ((65 <=? n) && (n <=? 90))%nat then ascii_of_nat (n + 32) else a.

(** [s.toLowerCase()] on the ASCII range. *)
Fixpoint toLowerCase (s : string) : string :=
  match s with
  | EmptyString => EmptyString
  | String a r => String (lower_ascii a) (toLowerCase r)
  end.

(** [l.pop()] read as "the last element, if any". *)
Definition pop (l : list string) : option string := last l.

(** [s.slice(a, b)] for [0 <= a <= b <= s.length]. *)
Definition slice (s : string) (a b : nat) : string := String.substring a (b - a) s.

End Js.

(* ===================================================================== *)
(** ** node:path, POSIX flavour *)
(* ===================================================================== *)

Module Path.

Definition sep : ascii := "/"%char.
Definition dot : ascii := "."%char.

Definition isAbsolute (p : string) : bool :=
  match p with String a _ => Ascii.eqb a sep | EmptyString => false end.

(** One step of [normalizeString] with [allowAboveRoot = false]: empty and
    "." segments vanish, ".." removes the last kept segment (and is dropped
    at the root). *)
Definition norm_step (acc : list string) (seg : string) : list string :=
  if String.eqb seg "" then acc
  else if String.eqb seg "." then acc
  else if String.eqb seg ".." then removelast acc
  else acc ++ [seg].

Definition normalize_segments (segs : list string) : list string :=
  fold_left norm_step segs [].

(** Segments of an absolute path after normalisation. *)
Definition segments (p : string) : list string :=
  normalize_segments (Js.split sep p).

Definition of_segments (segs : list string) : string :=
  String sep (Js.join "/" segs).

(** [resolve(from, p)] where [from] is absolute: the right-most absolute
    argument wins, an empty [p] is skipped. *)
Definition resolve (from p : string) : string :=
  if isAbsolute p then of_segments (segments p)
  else of_segments (normalize_segments (Js.split sep from ++ Js.split sep p)).

Fixpoint strip_common (a b : list string) : list string * list string :=
  match a, b with
  | x :: a', y :: b' => if String.eqb x y then strip_common a' b' else (a, b)
  | _, _ => (a, b)
  end.

(** [relative(from, to)] for absolute arguments: one ".." per segment of
    [from] below the common ancestor, then the rest of [to]. *)
Definition relative (from to : string) : string :=
  let '(up, down) := strip_common (segments from) (segments to) in
  Js.join "/" (repeat ".." (List.length up) ++ down).

(** State of the backwards scan of [extname]. *)
Record ext_state := {
  startDot : option nat;
  startPart : nat;
  end_ : option nat;
  matchedSlash : bool;
  preDotState : Z
}.

Definition ext_init : ext_state :=
  {| startDot := None; startPart := 0%nat; end_ := None;
     matchedSlash := true; preDotState := 0 |}.

(** [ext_scan rs st]: [rs] holds the characters still to visit, last one
    first, so the head of [rs] sits at index [length rs - 1]. *)
Fixpoint ext_scan (rs : list ascii) (st : ext_state) : ext_state :=
  match rs with
  | [] => st
  | c :: rest =>
      let i := List.length rest in
      if Ascii.eqb c sep then
        if negb (matchedSlash st) then
          {| startDot := startDot st; startPart := S i; end_ := end_ st;
             matchedSlash := matchedSlash st; preDotState := preDotState st |}
        else ext_scan rest st
      else
        let st1 :=
          match end_ st with
          | None => {| startDot := startDot st; startPart := startPart st;
                       end_ := Some (S i); matchedSlash := false;
                       preDotState := preDotState st |}
          | Some _ => st
          end in
        let st2 :=
          if Ascii.eqb c dot then
            match startDot st1 with
            | None => {| startDot := Some i; startPart := startPart st1;
                         end_ := end_ st1; matchedSlash := matchedSlash st1;
                         preDotState := preDotState st1 |}
            | Some _ => {| startDot := startDot st1; startPart := startPart st1;
                           end_ := end_ st1; matchedSlash := matchedSlash st1;
                           preDotState := 1 |}
            end
          else
            match startDot st1 with
            | Some _ => {| startDot := startDot st1; startPart := startPart st1;
                           end_ := end_ st1; matchedSlash := matchedSlash st1;
                           preDotState := -1 |}
            | None => st1
            end in
        ext_scan rest st2
  end.

(** [extname(p)]. *)
Definition extname (p : string) : string :=
  let st := ext_scan (rev (list_ascii_of_string p)) ext_init in
  match startDot st, end_ st with
  | Some sd, Some e =>
      if (preDotState st =? 0)
         || ((preDotState st =? 1) && (sd =? e - 1)%nat && (sd =? startPart st + 1)%nat)
      then ""
      else Js.slice p sd e
  | _, _ => ""
  end.

(** Backwards scan of [dirname]: visits indices [length p - 1] down to 1
    and returns the cut position, if one is found. *)
Fixpoint dir_scan (rs : list ascii) (matched : bool) : option nat :=
  match rs with
  | [] => None
  | c :: rest =>
      match rest with
      | [] => None
      | _ :: _ =>
          if Ascii.eqb c sep then
            if negb matched then Some (List.length rest) else dir_scan rest matched
          else dir_scan rest false
      end
  end.

(** [dirname(p)]. *)
Definition dirname (p : string) : string :=
  match p with
  | EmptyString => "."
  | String _ _ =>
      let hasRoot := isAbsolute p in
      match dir_scan (rev (list_ascii_of_string p)) true with
      | None => if hasRoot then "/" else "."
      | Some e => if hasRoot && (e =? 1)%nat then "//" else Js.slice p 0 e
      end
  end.

(** [join(a, b)] where [a] is absolute and [b] is a name that does not end
    in a separator: the normal form of [a/b]. *)
Definition join (a b : string) : string := of_segments (segments (a ++ "/" ++ b)).

End Path.

(* ===================================================================== *)
(** ** Exceptions and results *)
(* ===================================================================== *)

(** What the code throws.  The first six are the [Error]s raised by
    [fs-safety.ts] and [core.ts]; the others come from Node and from the
    libraries. *)
Inductive exn :=
| IllegalSegment (segment p : string)
| OutsideRoot (p : string)
| NotJsonLike (pathStr : string)
| RequiredNotFound (p : string)
| NotRegularFile (p : string)
| FileTooLarge (absPath : string) (size : Z)
| ParseFailed (fileType filePath : string) (cause : exn)
| ENOENT (p : string)
| EISDIR (p : string)
| TypeError (what : string)
| SyntaxError (what : string).

Inductive res (A : Type) :=
| Ok (a : A)
| Throw (e : exn).
Arguments Ok {A} a.
Arguments Throw {A} e.

Definition res_bind {A B} (r : res A) (k : A -> res B) : res B :=
  match r with Ok a => k a | Throw e => Throw e end.

Notation "'let*' x ':=' r 'in' k" := (res_bind r (fun x => k))
  (at level 10, x pattern, r at level 100, k at level 200).

(** [l.map(f)] for an [f] that may throw: left to right, stop at the first
    exception. *)
Fixpoint res_map {A B} (f : A -> res B) (l : list A) : res (list B) :=
  match l with
  | [] => Ok []
  | x :: xs => let* y := f x in let* ys := res_map f xs in Ok (y :: ys)
  end.

(* ===================================================================== *)
(** ** The file system seen through node:fs *)
(* ===================================================================== *)

Inductive node :=
| File (content : string) (mtimeMs : Z)
| Dir (mtimeMs : Z).

(** The mutating calls, in the order they were issued. *)
Inductive fs_call :=
| WriteFile (p text : string)
| Rename (from to : string).

Record FS := {
  nodes : gmap string node;
  (** the path that every symbolic link, and every existing path reached
      through one, resolves to; a path missing here is its own real path *)
  links : gmap string string;
  (** the clock stamped on written files *)
  now : Z;
  log : list fs_call
}.

(** Computations that may change the file system. *)
Definition io (A : Type) : Type := FS -> res A * FS.

Definition io_ret {A} (a : A) : io A := fun fs => (Ok a, fs).
Definition io_bind {A B} (m : io A) (k : A -> io B) : io B :=
  fun fs => match m fs with
            | (Ok a, fs') => k a fs'
            | (Throw e, fs') => (Throw e, fs')
            end.
(** A read-only call inside a computation. *)
Definition io_read {A} (f : FS -> res A) : io A := fun fs => (f fs, fs).

Notation "'do*' x ':=' m 'in' k" := (io_bind m (fun x => k))
  (at level 10, x pattern, m at level 100, k at level 200).

Module Fs.

Definition existsSync (fs : FS) (p : string) : bool :=
  match nodes fs !! p with Some _ => true | None => false end.

Definition statSync (fs : FS) (p : string) : res node :=
  match nodes fs !! p with Some n => Ok n | None => Throw (ENOENT p) end.

Definition isFile (n : node) : bool :=
  match n with File _ _ => true | Dir _ => false end.

Definition mtimeMs (n : node) : Z :=
  match n with File _ m => m | Dir m => m end.

(** [stats.size]; the size of a directory entry is never compared by the
    code before the read fails. *)
Definition size (n : node) : Z :=
  match n with File c _ => Z.of_nat (String.length c) | Dir _ => 0 end.

Definition realpathSync (fs : FS) (p : string) : res string :=
  match nodes fs !! p with
  | Some _ => Ok (default p (links fs !! p))
  | None => Throw (ENOENT p)
  end.

Definition readFileSync (fs : FS) (p : string) : res string :=
  match nodes fs !! p with
  | Some (File c _) => Ok c
  | Some (Dir _) => Throw (EISDIR p)
  | None => Throw (ENOENT p)
  end.

Definition isDir (fs : FS) (p : string) : bool :=
  match nodes fs !! p with Some (Dir _) => true | _ => false end.

(** A regular file can be created or replaced at [p]: no directory sits
    there and the parent directory exists. *)
Definition can_write (fs : FS) (p : string) : bool :=
  negb (isDir fs p) && isDir fs (Path.dirname p).

Definition written (p text : string) (fs : FS) : FS :=
  {| nodes := <[p := File text (now fs)]> (nodes fs);
     links := links fs; now := now fs;
     log := log fs ++ [WriteFile p text] |}.

(** [writeFileSync(p, text)] for a path that is its own real path: the
    file is created or truncated there. *)
Definition writeFileSync (p text : string) : io unit := fun fs =>
  if isDir fs p then (Throw (EISDIR p), fs)
  else if negb (isDir fs (Path.dirname p)) then (Throw (ENOENT p), fs)
  else (Ok tt, written p text fs).

Definition renamed (from to : string) (n : node) (fs : FS) : FS :=
  {| nodes := <[to := n]> (delete from (nodes fs));
     links := links fs; now := now fs;
     log := log fs ++ [Rename from to] |}.

(** [renameSync(from, to)] for a regular file [from] that is its own real
    path: [to] is replaced in one step.  The code only ever renames the
    temporary file it has just written. *)
Definition renameSync (from to : string) : io unit := fun fs =>
  match nodes fs !! from with
  | None => (Throw (ENOENT from), fs)
  | Some (Dir _) => (Throw (EISDIR from), fs)
  | Some (File c m) =>
      if isDir fs to then (Throw (EISDIR to), fs)
      else if negb (isDir fs (Path.dirname to)) then (Throw (ENOENT to), fs)
      else (Ok tt, renamed from to (File c m) fs)
  end.

End Fs.

(** JavaScript numbers as far as modification times need them. *)
Inductive msec :=
| NegInfinity
| Finite (z : Z).

Definition msec_le (a b : msec) : bool :=
  match a, b with
  | NegInfinity, _ => true
  | Finite _, NegInfinity => false
  | Finite x, Finite y => x <=? y
  end.

Definition msec_max (a b : msec) : msec := if msec_le a b then b else a.

(** [Math.max(...l)]; [-Infinity] for no argument. *)
Definition Math_max (l : list msec) : msec := fold_left msec_max l NegInfinity.

(* ===================================================================== *)
(** ** src/fs-safety.ts *)
(* ===================================================================== *)

Module FsSafety.

(** [SEGMENT_RE = /^[A-Za-z0-9._-]+$/]. *)
Definition segment_char (a : ascii) : bool :=
  let n := nat_of_ascii a in
  ((65 <=? n) && (n <=? 90) || (97 <=? n) && (n <=? 122) || (48 <=? n) && (n <=? 57)
   || (n =? 46) || (n =? 95) || (n =? 45))%nat.

Definition SEGMENT_RE_test (segment : string) : bool :=
  negb (String.eqb segment "") && forallb segment_char (list_ascii_of_string segment).

Fixpoint validate_loop (p : string) (segs : list string) : res unit :=
  match segs with
  | [] => Ok tt
  | segment :: rest =>
      if String.eqb segment "" || String.eqb segment "." || String.eqb segment ".."
      then validate_loop p rest
      else if negb (SEGMENT_RE_test segment) then Throw (IllegalSegment segment p)
      else validate_loop p rest
  end.

Definition validateSegments (p : string) : res unit :=
  let posixPath := Js.join "/" (Js.split Path.sep p) in
  validate_loop p (Js.split Path.sep posixPath).

Definition ensureJsonLike (pathStr : string) : res unit :=
  let ext := Js.toLowerCase (Path.extname pathStr) in
  if negb (String.eqb ext ".json") && negb (String.eqb ext ".jsonc")
  then Throw (NotJsonLike pathStr)
  else Ok tt.

Definition getMtimeMs (fs : FS) (absPath : option string) : msec :=
  match absPath with
  | Some p =>
      if negb (String.eqb p "") && Fs.existsSync fs p then
        match Fs.statSync fs p with
        | Ok n => Finite (Fs.mtimeMs n)
        | Throw _ => NegInfinity
        end
      else NegInfinity
  | None => NegInfinity
  end.

Definition MAX_FILE_SIZE : Z := 100 * 1024 * 1024.

Definition readText (fs : FS) (absPath : string) : res string :=
  let* stats := Fs.statSync fs absPath in
  if MAX_FILE_SIZE <? Fs.size stats
  then Throw (FileTooLarge absPath (Fs.size stats))
  else Fs.readFileSync fs absPath.

Definition atomicWrite (outAbs text : string) (createBackup : bool) : io (option string) :=
  do* outExists := io_read (fun fs => Ok (Fs.existsSync fs outAbs)) in
  do* backupPath :=
    (if createBackup && outExists then
       let backupPath := outAbs ++ ".bak" in
       do* backupContent := io_read (fun fs => readText fs outAbs) in
       do* _ := Fs.writeFileSync backupPath backupContent in
       io_ret (Some backupPath)
     else io_ret None) in
  let tmp := outAbs ++ ".tmp" in
  do* _ := Fs.writeFileSync tmp text in
  do* _ := Fs.renameSync tmp outAbs in
  io_ret backupPath.

Section WithRoot.

(** [ROOT = realpathSync(process.cwd())], fixed when the module loads. *)
Variable ROOT : string.

Definition ensureInsideRoot (fs : FS) (p : string) : res string :=
  let* _ := validateSegments p in
  let abs := Path.resolve ROOT p in
  let* finalPath :=
    (if Fs.existsSync fs abs then Fs.realpathSync fs abs else Ok abs) in
  let rel := Path.relative ROOT finalPath in
  if Js.startsWith rel ".."
     || (String.eqb rel "" && negb (Js.startsWith finalPath ROOT))
  then Throw (OutsideRoot p)
  else Ok finalPath.

Definition safeInputPath (fs : FS) (p : string) (optional : bool) : res (option string) :=
  let* _ := ensureJsonLike p in
  let* abs := ensureInsideRoot fs p in
  if negb (Fs.existsSync fs abs) then
    if optional then Ok None else Throw (RequiredNotFound p)
  else
    let* st := Fs.statSync fs abs in
    if negb (Fs.isFile st) then Throw (NotRegularFile p) else Ok (Some abs).

Definition safeOutputPath (fs : FS) (p : string) : res string :=
  let* _ := ensureJsonLike p in
  let* _ := ensureInsideRoot fs (Path.dirname p) in
  ensureInsideRoot fs p.

End WithRoot.

End FsSafety.

(* ===================================================================== *)
(** ** JSON values and the deepmerge package *)
(* ===================================================================== *)

(** Parsed documents.  An object lists its own enumerable properties in
    property order. *)
Inductive json :=
| JNull
| JBool (b : bool)
| JNum (n : Z)
| JStr (s : string)
| JArr (items : list json)
| JObj (props : list (string * json)).

Module Obj.

Fixpoint get (k : string) (o : list (string * json)) : option json :=
  match o with
  | [] => None
  | (k', v) :: rest => if String.eqb k k' then Some v else get k rest
  end.

Definition has (k : string) (o : list (string * json)) : bool :=
  match get k o with Some _ => true | None => false end.

(** [o[k] = v]: overwrite in place or append as the newest property. *)
Fixpoint set (k : string) (v : json) (o : list (string * json)) : list (string * json) :=
  match o with
  | [] => [(k, v)]
  | (k', v') :: rest =>
      if String.eqb k k' then (k, v) :: rest else (k', v') :: set k v rest
  end.

Definition keys (o : list (string * json)) : list string := map fst o.

End Obj.

Module Deepmerge.

(** Names every plain object inherits from [Object.prototype]; the package
    refuses to write them unless the target owns them. *)
Definition inherited : list string :=
  [ "constructor"; "__defineGetter__"; "__defineSetter__"; "hasOwnProperty";
    "__lookupGetter__"; "__lookupSetter__"; "isPrototypeOf";
    "propertyIsEnumerable"; "toString"; "valueOf"; "__proto__";
    "toLocaleString" ].

Definition is_inherited (k : string) : bool :=
  existsb (String.eqb k) inherited.

(** [isMergeableObject]: a non-null object; parsed JSON holds no Date,
    RegExp or React element. *)
Definition isMergeableObject (v : json) : bool :=
  match v with JArr _ | JObj _ => true | _ => false end.

Definition isArray (v : json) : bool :=
  match v with JArr _ => true | _ => false end.

(** [cloneUnlessOtherwiseSpecified] with the default [clone]: a mergeable
    value is merged into an empty target of its kind. *)
Fixpoint clone (v : json) : json :=
  match v with
  | JArr items => JArr (map clone items)
  | JObj props =>
      JObj (fold_left
              (fun dest kv =>
                 if is_inherited (fst kv) then dest
                 else Obj.set (fst kv) (clone (snd kv)) dest)
              props [])
  | _ => v
  end.

(** [defaultArrayMerge]: [target.concat(source)], each element cloned. *)
Definition defaultArrayMerge (target source : list json) : list json :=
  map clone (target ++ source).

(** [propertyIsOnObject(target, key)]: [key in target]; the operator
    throws on a primitive target and the package then answers false. *)
Definition propertyIsOnObject (target : json) (key : string) : bool :=
  match target with
  | JObj props => Obj.has key props || is_inherited key
  | _ => false
  end.

(** [propertyIsUnsafe(target, key)]: on the target, but not as an own
    enumerable property. *)
Definition propertyIsUnsafe (target : json) (key : string) : bool :=
  propertyIsOnObject target key
  && negb (match target with JObj props => Obj.has key props | _ => false end).

(** The object [mergeObject] builds: its own properties, and whether its
    prototype chain still reaches [Object.prototype], where the setter of
    "__proto__" lives. *)
Definition destination : Type := list (string * json) * bool.

Definition fresh : destination := ([], true).

(** [destination[key] = v].  While the setter is in reach an assignment to
    "__proto__" creates no own property: it replaces the prototype, and
    with [null] it takes the setter out of reach, so that a later
    assignment to "__proto__" creates an own property like any other. *)
Definition assign (key : string) (v : json) (dest : destination) : destination :=
  let (props, chained) := dest in
  if String.eqb key "__proto__" && chained
  then (props, match v with JNull => false | _ => true end)
  else (Obj.set key v props, chained).

(** The copy of the target that [mergeObject] starts from. *)
Definition cloned_target (target : json) : destination :=
  match target with
  | JObj props =>
      fold_left (fun dest kv => assign (fst kv) (clone (snd kv)) dest) props fresh
  | _ => fresh
  end.

Definition target_get (target : json) (key : string) : json :=
  match target with
  | JObj props => default JNull (Obj.get key props)
  | _ => JNull
  end.

(** [deepmerge(target, source)] for a mergeable [source], together with
    [mergeObject] as the inner loop over the source's properties. *)
Fixpoint merge (target source : json) {struct source} : json :=
  match source with
  | JArr s =>
      match target with
      | JArr t => JArr (defaultArrayMerge t s)
      | _ => clone source
      end
  | JObj sprops =>
      match target with
      | JArr _ => clone source
      | _ =>
          JObj (fst (fold_left
                       (fun dest kv =>
                          let key := fst kv in
                          if propertyIsUnsafe target key then dest
                          else if propertyIsOnObject target key
                                  && isMergeableObject (snd kv)
                          then assign key (merge (target_get target key) (snd kv)) dest
                          else assign key (clone (snd kv)) dest)
                       sprops (cloned_target target)))
      end
  | _ => source
  end.

(** Own enumerable properties of a string primitive: one per character,
    indexed from 0. *)
Fixpoint string_props (i : nat) (s : string) : list (string * json) :=
  match s with
  | EmptyString => []
  | String a r => (pretty i, JStr (String a EmptyString)) :: string_props (S i) r
  end.

(** [deepmerge(target, source)] as [mergeFiles] calls it, with any parsed
    value as [source]. *)
Definition deepmerge (target source : json) : res json :=
  if negb (Bool.eqb (isArray source) (isArray target)) then Ok (clone source)
  else
    match source with
    | JArr _ | JObj _ => Ok (merge target source)
    | JNull => Throw (TypeError "Cannot convert undefined or null to object")
    | JStr s => Ok (merge target (JObj (string_props 0 s)))
    | JBool _ | JNum _ => Ok (merge target (JObj []))
    end.

End Deepmerge.

(* ===================================================================== *)
(** ** src/core.ts *)
(* ===================================================================== *)

Record MergeOptions := {
  out : string;
  inputs : list string;
  skipMissing : option bool;
  pretty : option bool;
  dryRun : option bool;
  backup : option bool;
  indent : option Z
}.

Inductive Reason :=
| no_inputs
| up_to_date
| no_content_change
| dry_run
| wrote
| wrote_with_backup.

(** The returned object, field by field; an absent or [undefined] property
    is [None]. *)
Module MergeResult.
Record t := {
  wrote : bool;
  reason : Reason;
  preview : option string;
  out : option string;
  backup : option string
}.
End MergeResult.

(** The shape of the results that carry nothing but their reason. *)
Definition skipped (r : Reason) : MergeResult.t :=
  {| MergeResult.wrote := false; MergeResult.reason := r;
     MergeResult.preview := None; MergeResult.out := None;
     MergeResult.backup := None |}.

(** [Boolean(p)] on [string | null]. *)
Definition truthy (p : option string) : bool :=
  match p with
  | Some s => negb (String.eqb s "")
  | None => false
  end.

(** [l.filter((p) => Boolean(p))]. *)
Definition keep_truthy (l : list (option string)) : list string :=
  omap (fun p => if truthy p then p else None) l.

Section Core.

Variable ROOT : string.
(** [parse] of jsonc-parser, [JSON5.parse] and [JSON.stringify(v, null, n)]. *)
Variable parseJsonc : string -> res json.
Variable JSON5_parse : string -> res json.
Variable JSON_stringify : json -> Z -> string.

Definition resolveInputPaths (fs : FS) (inputs : list string) (skipMissing : bool)
  : res (list string) :=
  let* resolved := res_map (fun p => FsSafety.safeInputPath ROOT fs p skipMissing) inputs in
  Ok (keep_truthy resolved).

Definition checkIfUpToDate (fs : FS) (outAbs : string) (inputAbs : list string)
    (dryRun : bool) : bool :=
  if negb (Fs.existsSync fs outAbs) || dryRun then false
  else
    let outM := FsSafety.getMtimeMs fs (Some outAbs) in
    let newestSrc := Math_max (map (fun p => FsSafety.getMtimeMs fs (Some p)) inputAbs) in
    msec_le newestSrc outM.

Definition parseJsonFile (filePath content : string) : res json :=
  let ext := Js.pop (Js.split "."%char (Js.toLowerCase filePath)) in
  let isJson5 := match ext with Some e => String.eqb e "json5" | None => false end in
  match (if isJson5 then JSON5_parse content else parseJsonc content) with
  | Ok v => Ok v
  | Throw error =>
      let fileType := if isJson5 then "JSON5" else "JSON/JSONC" in
      Throw (ParseFailed fileType filePath error)
  end.

Fixpoint mergeFiles_loop (fs : FS) (combined : json) (inputAbs : list string) : res json :=
  match inputAbs with
  | [] => Ok combined
  | abs :: rest =>
      let* content := FsSafety.readText fs abs in
      let* parsed := parseJsonFile abs content in
      let* combined' := Deepmerge.deepmerge combined parsed in
      mergeFiles_loop fs combined' rest
  end.

Definition mergeFiles (fs : FS) (inputAbs : list string) : res json :=
  mergeFiles_loop fs (JObj []) inputAbs.

Definition calculateIndentation (indent : option Z) (pretty : option bool) : Z :=
  match indent with
  | Some n => n
  | None => if default true pretty then 2 else 0
  end.

Definition checkContentChanged (fs : FS) (outAbs newText : string) : res bool :=
  if negb (Fs.existsSync fs outAbs) then Ok true
  else
    let* current := FsSafety.readText fs outAbs in
    Ok (negb (String.eqb current newText)).

(** The [text] that [mergeJsonc] serializes from the merged value. *)
Definition serialized (opts : MergeOptions) (combined : json) : string :=
  JSON_stringify combined
    (calculateIndentation (indent opts) (Some (default true (pretty opts)))).

Definition mergeJsonc (opts : MergeOptions) : io MergeResult.t :=
  let skipMissing := default false (skipMissing opts) in
  let pretty := default true (pretty opts) in
  let dryRun := default false (dryRun opts) in
  let backup := default false (backup opts) in
  do* inputAbs := io_read (fun fs => resolveInputPaths fs (inputs opts) skipMissing) in
  if (List.length inputAbs =? 0)%nat then
    io_ret {| MergeResult.wrote := false; MergeResult.reason := no_inputs;
              MergeResult.preview := None; MergeResult.out := None;
              MergeResult.backup := None |}
  else
    do* outAbs := io_read (fun fs => FsSafety.safeOutputPath ROOT fs (out opts)) in
    do* combined := io_read (fun fs => mergeFiles fs inputAbs) in
    let spaces := calculateIndentation (indent opts) (Some pretty) in
    let text := JSON_stringify combined spaces in
    do* changed := io_read (fun fs => checkContentChanged fs outAbs text) in
    if negb changed then
      io_ret {| MergeResult.wrote := false; MergeResult.reason := no_content_change;
                MergeResult.preview := None; MergeResult.out := None;
                MergeResult.backup := None |}
    else
      do* upToDate := io_read (fun fs => Ok (checkIfUpToDate fs outAbs inputAbs dryRun)) in
      if upToDate then
        io_ret {| MergeResult.wrote := false; MergeResult.reason := up_to_date;
                  MergeResult.preview := None; MergeResult.out := None;
                  MergeResult.backup := None |}
      else if dryRun then
        io_ret {| MergeResult.wrote := false; MergeResult.reason := dry_run;
                  MergeResult.preview := Some text; MergeResult.out := None;
                  MergeResult.backup := None |}
      else
        do* backupPath := FsSafety.atomicWrite outAbs text backup in
        io_ret {| MergeResult.wrote := true;
                  MergeResult.reason :=
                    (if truthy backupPath then wrote_with_backup else wrote);
                  MergeResult.preview := None; MergeResult.out := Some outAbs;
                  MergeResult.backup := backupPath |}.

End Core.

(* ===================================================================== *)
(** ** Vocabulary of the statements *)
(* ===================================================================== *)

(** The state after a commit that wrote the temporary file and renamed it
    over the output. *)
Definition committed (outAbs text : string) (fs : FS) : FS :=
  Fs.renamed (outAbs ++ ".tmp") outAbs (File text (now fs))
    (Fs.written (outAbs ++ ".tmp") text fs).

(** What [ensureInsideRoot] compares against the root: the real path of an
    existing target, the resolved path otherwise. *)
Definition target_of (ROOT : string) (fs : FS) (p : string) : string :=
  let abs := Path.resolve ROOT p in
  if Fs.existsSync fs abs then default abs (links fs !! abs) else abs.

(** A segment passes when it is empty, ".", ".." or made of the safe
    characters only. *)
Definition segment_ok (segment : string) : bool :=
  String.eqb segment "" || String.eqb segment "." || String.eqb segment ".."
  || FsSafety.SEGMENT_RE_test segment.

(** The calls of a commit, by the paths they name: a write to the [.bak] or
    the [.tmp] sibling of the output, or the rename of the [.tmp] sibling
    onto the output. *)
Definition atomic_call (outAbs : string) (c : fs_call) : bool :=
  match c with
  | WriteFile p _ => String.eqb p (outAbs ++ ".tmp") || String.eqb p (outAbs ++ ".bak")
  | Rename from to => String.eqb from (outAbs ++ ".tmp") && String.eqb to outAbs
  end.

(** The paths a commit to [outAbs] may change. *)
Definition touched (outAbs : string) : list string :=
  [outAbs; outAbs ++ ".tmp"; outAbs ++ ".bak"].

Definition untouched (outAbs q : string) : bool :=
  negb (existsb (String.eqb q) (touched outAbs)).

(** [fs'] is [fs] except, possibly, at the paths a commit to [outAbs]
    touches. *)
Definition same_elsewhere (outAbs : string) (fs fs' : FS) : Prop :=
  links fs' = links fs
  /\ forall q, untouched outAbs q = true -> nodes fs' !! q = nodes fs !! q.

Definition plain_char (c : ascii) : bool :=
  negb (Ascii.eqb c Path.sep) && negb (Ascii.eqb c Path.dot).

(** No separator and no dot. *)
Definition plain (s : string) : bool := forallb plain_char (list_ascii_of_string s).

(** A path that is its own real path: it is no symbolic link and is not
    reached through one, so a write to it lands on it. *)
Definition own_path (fs : FS) (p : string) : Prop := links fs !! p = None.

(** What a path shows to a reader: the text and the time of a regular file,
    or that a directory sits there. *)
Definition shows (fs : FS) (q : string) : option (option (string * Z)) :=
  match nodes fs !! q with
  | Some (File c m) => Some (Some (c, m))
  | Some (Dir _) => Some None
  | None => None
  end.

(** [fs'] reads as [fs] at every path a commit to [outAbs] does not touch:
    the same symbolic links, the same regular files with their text and
    time, directories where directories were, nothing where nothing was. *)
Definition kept_elsewhere (outAbs : string) (fs fs' : FS) : Prop :=
  links fs' = links fs
  /\ forall q, untouched outAbs q = true -> shows fs' q = shows fs q.

(** A path lies under the root when its segments extend the root's. *)
Definition under (ROOT q : string) : Prop :=
  Path.segments ROOT `prefix_of` Path.segments q.

(** The paths a mutating call names. *)
Definition call_paths (c : fs_call) : list string :=
  match c with
  | WriteFile p _ => [p]
  | Rename from to => [from; to]
  end.

(** A segment as [resolve] leaves it: not empty, not "." or "..", and free
    of separators. *)
Definition proper_segment (s : string) : bool :=
  negb (String.eqb s "") && negb (String.eqb s ".") && negb (String.eqb s "..")
  && forallb (fun c => negb (Ascii.eqb c Path.sep)) (list_ascii_of_string s).

(** A path in the normal form [realpathSync] and [resolve] return. *)
Definition normal_path (p : string) : Prop := Path.of_segments (Path.segments p) = p.

(** The character [c] does not occur in [s]. *)
Definition sep_free (c : ascii) (s : string) : bool :=
  forallb (fun a => negb (Ascii.eqb a c)) (list_ascii_of_string s).

Definition no_dot (s : string) : bool :=
  forallb (fun c => negb (Ascii.eqb c Path.dot)) (list_ascii_of_string s).

(** What [parseJsonFile] does with the outcome of the parser it chose. *)
Definition parsed_as (fileType filePath : string) (r : res json) : res json :=
  match r with
  | Ok v => Ok v
  | Throw error => Throw (ParseFailed fileType filePath error)
  end.

(* ===================================================================== *)
(** ** src/config.ts *)
(* ===================================================================== *)

Module Config.

(** JavaScript numbers as a configuration can hold them; the finite ones
    are carried as integers, as [indent] is in [MergeOptions]. *)
Inductive number :=
| Num (z : Z)
| NaN
| Infinity (negative : bool).

(** What a configuration module can export.  An array is an object whose
    own properties are its indices and [length]; a module namespace is the
    object of its exports. *)
Inductive value :=
| VUndefined
| VNull
| VBool (b : bool)
| VNumber (n : number)
| VString (s : string)
| VFunction
| VObject (props : list (string * value)).

(** The [Error]s of [config.ts]; [ImportRejected] is whatever the dynamic
    [import] rejects with. *)
Inductive error :=
| InvalidValue (key source expected : string)
| ExpectedObject (source : string)
| ImportRejected (message : string)
| FailedToLoad (configPath : string) (cause : error).

Inductive result (A : Type) :=
| Returns (a : A)
| Throws (e : error).
Arguments Returns {A} a.
Arguments Throws {A} e.

Definition and_then {A B} (r : result A) (k : A -> result B) : result B :=
  match r with Returns a => k a | Throws e => Throws e end.

Notation "'let+' x ':=' r 'in' k" := (and_then r (fun x => k))
  (at level 10, x pattern, r at level 100, k at level 200).

Fixpoint own (key : string) (props : list (string * value)) : option value :=
  match props with
  | [] => None
  | (k, v) :: rest => if String.eqb key k then Some v else own key rest
  end.

(** [Object.hasOwn(candidate, key)]. *)
Definition Object_hasOwn (candidate : value) (key : string) : bool :=
  match candidate with
  | VObject props => match own key props with Some _ => true | None => false end
  | _ => false
  end.

(** [candidate[key]] for a key the candidate owns; [undefined] otherwise
    (none of the keys read here is inherited). *)
Definition prop (candidate : value) (key : string) : value :=
  match candidate with
  | VObject props => default VUndefined (own key props)
  | _ => VUndefined
  end.

Definition truthy (v : value) : bool :=
  match v with
  | VUndefined | VNull => false
  | VBool b => b
  | VNumber (Num z) => negb (z =? 0)
  | VNumber NaN => false
  | VNumber (Infinity _) => true
  | VString s => negb (String.eqb s "")
  | VFunction | VObject _ => true
  end.

Definition typeof (v : value) : string :=
  match v with
  | VUndefined => "undefined"
  | VNull | VObject _ => "object"
  | VBool _ => "boolean"
  | VNumber _ => "number"
  | VString _ => "string"
  | VFunction => "function"
  end.

Record ConfigOptions := {
  out : option string;
  skipMissing : option bool;
  pretty : option bool;
  dryRun : option bool;
  backup : option bool;
  indent : option Z
}.

(** The object literal [{}]. *)
Definition empty : ConfigOptions :=
  {| out := None; skipMissing := None; pretty := None; dryRun := None;
     backup := None; indent := None |}.

Module validators.

Definition out (value : value) (source : string) : result string :=
  match value with
  | VString s => Returns s
  | _ => Throws (InvalidValue "out" source "string")
  end.

Definition boolean (key : string) (value : value) (source : string) : result bool :=
  match value with
  | VBool b => Returns b
  | _ => Throws (InvalidValue key source "boolean")
  end.

Definition skipMissing := boolean "skipMissing".
Definition pretty := boolean "pretty".
Definition dryRun := boolean "dryRun".
Definition backup := boolean "backup".

Definition indent (value : value) (source : string) : result Z :=
  match value with
  | VNumber (Num z) => Returns z
  | _ => Throws (InvalidValue "indent" source "finite number")
  end.

End validators.

(** One turn of the loop over [Object.keys(validators)]: a key the
    candidate does not own, or holds [undefined] under, is passed over;
    otherwise the validated value is stored with [setConfigValue]. *)
Definition visit {A} (candidate : value) (source key : string)
    (validator : value -> string -> result A)
    (setConfigValue : ConfigOptions -> A -> ConfigOptions)
    (normalized : ConfigOptions) : result ConfigOptions :=
  if negb (Object_hasOwn candidate key) then Returns normalized
  else
    match prop candidate key with
    | VUndefined => Returns normalized
    | v => let+ checked := validator v source in
           Returns (setConfigValue normalized checked)
    end.

Definition normalizeConfigOptions (raw : value) (source : string) : result ConfigOptions :=
  match raw with
  | VObject _ =>
      let+ n1 := visit raw source "out" validators.out
                   (fun n v => {| out := Some v; skipMissing := skipMissing n;
                                  pretty := pretty n; dryRun := dryRun n;
                                  backup := backup n; indent := indent n |}) empty in
      let+ n2 := visit raw source "skipMissing" validators.skipMissing
                   (fun n v => {| out := out n; skipMissing := Some v;
                                  pretty := pretty n; dryRun := dryRun n;
                                  backup := backup n; indent := indent n |}) n1 in
      let+ n3 := visit raw source "pretty" validators.pretty
                   (fun n v => {| out := out n; skipMissing := skipMissing n;
                                  pretty := Some v; dryRun := dryRun n;
                                  backup := backup n; indent := indent n |}) n2 in
      let+ n4 := visit raw source "dryRun" validators.dryRun
                   (fun n v => {| out := out n; skipMissing := skipMissing n;
                                  pretty := pretty n; dryRun := Some v;
                                  backup := backup n; indent := indent n |}) n3 in
      let+ n5 := visit raw source "backup" validators.backup
                   (fun n v => {| out := out n; skipMissing := skipMissing n;
                                  pretty := pretty n; dryRun := dryRun n;
                                  backup := Some v; indent := indent n |}) n4 in
      visit raw source "indent" validators.indent
        (fun n v => {| out := out n; skipMissing := skipMissing n;
                       pretty := pretty n; dryRun := dryRun n;
                       backup := backup n; indent := Some v |}) n5
  | _ => Throws (ExpectedObject source)
  end.

(** The export [loadConfig] reads the options from: the [default] export
    of a module that has one, the module itself otherwise.  No object
    inherits a member called [default], so ["default" in m] asks for an own
    property. *)
Definition rawConfig (importedModule : value) : value :=
  if truthy importedModule && String.eqb (typeof importedModule) "object"
     && Object_hasOwn importedModule "default"
  then prop importedModule "default"
  else importedModule.

Definition configPaths : list string :=
  [ ".merge-jsonc.config.js"; ".merge-jsonc.config.mjs";
    "merge-jsonc.config.js"; "merge-jsonc.config.mjs" ].

Section Load.

(** [process.cwd()], and the dynamic [import] of the module stored at a
    file path (the path reaches it as a file URL, which names the same
    file). *)
Variable cwd : string.
Variable import_ : string -> result value.

(** The body of the [try] and its [catch]. *)
Definition load (configPath : string) : result ConfigOptions :=
  match (let+ importedModule := import_ (Path.join cwd configPath) in
         normalizeConfigOptions (rawConfig importedModule) configPath) with
  | Returns config => Returns config
  | Throws error => Throws (FailedToLoad configPath error)
  end.

Fixpoint loadConfig_loop (fs : FS) (paths : list string) : result ConfigOptions :=
  match paths with
  | [] => Returns empty
  | configPath :: rest =>
      if Fs.existsSync fs (Path.resolve cwd configPath) then load configPath
      else loadConfig_loop fs rest
  end.

Definition loadConfig (fs : FS) : result ConfigOptions :=
  loadConfig_loop fs configPaths.

End Load.

(** A configuration written back as the object that declares it: one
    property per option that is set. *)
Definition declared {A} (key : string) (inj : A -> value) (field : option A)
  : list (string * value) :=
  match field with Some x => [(key, inj x)] | None => [] end.

Definition to_object (c : ConfigOptions) : value :=
  VObject (declared "out" VString (out c)
           ++ declared "skipMissing" VBool (skipMissing c)
           ++ declared "pretty" VBool (pretty c)
           ++ declared "dryRun" VBool (dryRun c)
           ++ declared "backup" VBool (backup c)
           ++ declared "indent" (fun z => VNumber (Num z)) (indent c))%list.

(** What the loop sees under a key: nothing for a key that is not owned or
    holds [undefined]. *)
Definition seen (raw : value) (key : string) : option value :=
  if Object_hasOwn raw key then
    match prop raw key with VUndefined => None | v => Some v end
  else None.

Definition holds_string (seen : option value) (field : option string) : Prop :=
  match seen with
  | None => field = None
  | Some (VString s) => field = Some s
  | Some _ => False
  end.

Definition holds_boolean (seen : option value) (field : option bool) : Prop :=
  match seen with
  | None => field = None
  | Some (VBool b) => field = Some b
  | Some _ => False
  end.

Definition holds_finite (seen : option value) (field : option Z) : Prop :=
  match seen with
  | None => field = None
  | Some (VNumber (Num z)) => field = Some z
  | Some _ => False
  end.

(** The six keys with the type each must hold, in the order of the
    validators. *)
Definition expected : list (string * string) :=
  [ ("out", "string"); ("skipMissing", "boolean"); ("pretty", "boolean");
    ("dryRun", "boolean"); ("backup", "boolean"); ("indent", "finite number") ].

Definition well_typed (expected : string) (v : value) : bool :=
  match v with
  | VString _ => String.eqb expected "string"
  | VBool _ => String.eqb expected "boolean"
  | VNumber (Num _) => String.eqb expected "finite number"
  | _ => false
  end.

(** The key is absent from the candidate or holds a value of its type. *)
Definition passes (raw : value) (entry : string * string) : bool :=
  match seen raw (fst entry) with
  | None => true
  | Some v => well_typed (snd entry) v
  end.

End Config.

(* ===================================================================== *)
(** ** src/cli.ts *)
(* ===================================================================== *)

Module Cli.

(** The object [yargs] returns, as far as [run] reads it; [positional] is
    [argv._] with every entry passed through [String]. *)
Module Argv.
Record t := {
  out : option string;
  skip_missing : option bool;
  min : option bool;
  dry_run : option bool;
  backup : option bool;
  indent : option Z;
  array_merge : option string;
  header : option bool;
  no_header : option bool;
  positional : list string
}.
End Argv.

Record ParsedArgs := {
  out : option string;
  skipMissing : option bool;
  pretty : option bool;
  dryRun : option bool;
  backup : option bool;
  indent : option Z;
  arrayMerge : option string;
  header : option bool;
  inputs : list string
}.

(** The object [mergeArgsWithConfig] builds: the options [mergeJsonc]
    destructures, and the two it does not read. *)
Module Options.
Record t := {
  merge : MergeOptions;
  arrayMerge : string;
  header : bool
}.
End Options.

Definition LF : string := String (ascii_of_nat 10) EmptyString.

Definition reason_name (r : Reason) : string :=
  match r with
  | no_inputs => "no_inputs"
  | up_to_date => "up_to_date"
  | no_content_change => "no_content_change"
  | dry_run => "dry_run"
  | wrote => "wrote"
  | wrote_with_backup => "wrote_with_backup"
  end.

Fixpoint entry (key : string) (msgs : list (string * string)) : option string :=
  match msgs with
  | [] => None
  | (k, m) :: rest => if String.eqb key k then Some m else entry key rest
  end.

Definition formatOutputMessage (result : MergeResult.t) (out : string) : string :=
  let reason := reason_name (MergeResult.reason result) in
  if String.eqb reason "dry_run" && truthy (MergeResult.preview result) then
    "[merge-jsonc] DRY RUN - would write to " ++ out ++ ":" ++ LF
    ++ default "" (MergeResult.preview result)
  else
    let msgs :=
      [ ("no_inputs", "[merge-jsonc] No existing inputs (skipping).");
        ("up_to_date", "[merge-jsonc] Up-to-date (no source changes).");
        ("no_content_change", "[merge-jsonc] Up-to-date (no content changes).");
        ("wrote", "[merge-jsonc] Wrote " ++ out);
        ("wrote_with_backup",
         if MergeResult.wrote result && truthy (MergeResult.backup result)
         then "[merge-jsonc] Wrote " ++ out ++ " (backup: "
              ++ default "" (MergeResult.backup result) ++ ")"
         else "[merge-jsonc] Wrote " ++ out) ] in
    if truthy (entry reason msgs) then default "" (entry reason msgs)
    else "[merge-jsonc] Unknown result: " ++ reason.

(** [a ?? b]. *)
Definition nullish {A} (a b : option A) : option A :=
  match a with Some x => Some x | None => b end.

Infix "??" := nullish (at level 60, right associativity).

(** [config] is what [loadConfig] returned: it carries the six options of
    [ConfigOptions], so [config.arrayMerge] and [config.header] are
    [undefined]. *)
Definition mergeArgsWithConfig (args : ParsedArgs) (config : Config.ConfigOptions)
  : Options.t :=
  {| Options.merge :=
       Build_MergeOptions
         (default "combined.jsonc" (out args ?? Config.out config))
         (inputs args)
         (Some (default false (skipMissing args ?? Config.skipMissing config)))
         (Some (default true (pretty args ?? Config.pretty config)))
         (Some (default false (dryRun args ?? Config.dryRun config)))
         (Some (default false (backup args ?? Config.backup config)))
         (indent args ?? Config.indent config);
     Options.arrayMerge := default "replace" (arrayMerge args ?? None);
     Options.header := default true (header args ?? None) |}.

(** [run], between the parse and the call of [loadConfig]. *)
Definition headerArg (argv : Argv.t) : option bool :=
  match Argv.header argv with
  | Some b => Some b
  | None => if default false (Argv.no_header argv) then Some false else None
  end.

Definition parsedArgs (argv : Argv.t) : ParsedArgs :=
  {| out := Argv.out argv;
     skipMissing := Argv.skip_missing argv;
     pretty := Some (negb (default false (Argv.min argv)));
     dryRun := Argv.dry_run argv;
     backup := Argv.backup argv;
     indent := Argv.indent argv;
     arrayMerge := Argv.array_merge argv;
     header := headerArg argv;
     inputs := Argv.positional argv |}.

(** Every option that [run] declares with a default is present after the
    parse. *)
Definition defaults_filled (argv : Argv.t) : Prop :=
  is_Some (Argv.out argv) /\ is_Some (Argv.skip_missing argv)
  /\ is_Some (Argv.dry_run argv) /\ is_Some (Argv.backup argv)
  /\ is_Some (Argv.array_merge argv) /\ is_Some (Argv.header argv).

End Cli.

(* ===================================================================== *)
(** ** Sample instances of the library parameters *)
(* ===================================================================== *)

(** A serializer in the format of [JSON.stringify(v, null, n)] and a strict
    reader of JSON with comments, used to run the engine on concrete
    files. *)
Module Sample.

Definition dq : ascii := ascii_of_nat 34.
Definition bs : ascii := ascii_of_nat 92.
Definition nl : ascii := ascii_of_nat 10.
Definition chr (a : ascii) : string := String a EmptyString.

Definition hex_digit (n : nat) : ascii :=
  if (n <? 10)%nat then ascii_of_nat (48 + n) else ascii_of_nat (87 + n).

Definition escape_char (a : ascii) : string :=
  let n := nat_of_ascii a in
  if (n =? 34)%nat then chr bs ++ chr dq
  else if (n =? 92)%nat then chr bs ++ chr bs
  else if (n =? 8)%nat then chr bs ++ "b"
  else if (n =? 12)%nat then chr bs ++ "f"
  else if (n =? 10)%nat then chr bs ++ "n"
  else if (n =? 13)%nat then chr bs ++ "r"
  else if (n =? 9)%nat then chr bs ++ "t"
  else if (n <? 32)%nat
       then chr bs ++ "u00" ++ chr (hex_digit (n / 16)) ++ chr (hex_digit (n mod 16))
  else chr a.

Definition quote (s : string) : string :=
  chr dq ++ String.concat "" (map escape_char (list_ascii_of_string s)) ++ chr dq.

Definition gap_of (spaces : Z) : string :=
  string_of_list_ascii (repeat " "%char (Z.to_nat (Z.min spaces 10))).

Definition wrap (gap cur opening closing : string) (parts : list string) : string :=
  match parts with
  | [] => opening ++ closing
  | _ :: _ =>
      if String.eqb gap "" then opening ++ String.concat "," parts ++ closing
      else opening ++ chr nl ++ cur ++ gap
           ++ String.concat ("," ++ chr nl ++ cur ++ gap) parts
           ++ chr nl ++ cur ++ closing
  end.

Fixpoint str (gap cur : string) (v : json) : string :=
  match v with
  | JNull => "null"
  | JBool true => "true"
  | JBool false => "false"
  | JNum n => stdpp.pretty.pretty n
  | JStr s => quote s
  | JArr items => wrap gap cur "[" "]" (map (str gap (cur ++ gap)) items)
  | JObj props =>
      wrap gap cur "{" "}"
        (map (fun kv => quote (fst kv) ++ (if String.eqb gap "" then ":" else ": ")
                        ++ str gap (cur ++ gap) (snd kv)) props)
  end.

Definition stringify (v : json) (spaces : Z) : string := str (gap_of spaces) "" v.

Definition is_ws (c : ascii) : bool :=
  let n := nat_of_ascii c in ((n =? 32) || (n =? 9) || (n =? 10) || (n =? 13))%nat.

Definition is_digit (c : ascii) : bool :=
  let n := nat_of_ascii c in ((48 <=? n) && (n <=? 57))%nat.

Fixpoint skip_line (cs : list ascii) : list ascii :=
  match cs with
  | [] => []
  | c :: r => if Ascii.eqb c nl then r else skip_line r
  end.

Fixpoint skip_block (cs : list ascii) : option (list ascii) :=
  match cs with
  | [] => None
  | c :: r =>
      match r with
      | d :: r' =>
          if Ascii.eqb c "*" && Ascii.eqb d "/" then Some r' else skip_block r
      | [] => None
      end
  end.

(** White space, line comments and block comments. *)
Fixpoint skip_ws (fuel : nat) (cs : list ascii) : list ascii :=
  match fuel with
  | O => cs
  | S f =>
      match cs with
      | [] => []
      | c :: r =>
          if is_ws c then skip_ws f r
          else if Ascii.eqb c "/" then
            match r with
            | d :: r' =>
                if Ascii.eqb d "/" then skip_ws f (skip_line r')
                else if Ascii.eqb d "*" then
                  match skip_block r' with
                  | Some r'' => skip_ws f r''
                  | None => cs
                  end
                else cs
            | [] => cs
            end
          else cs
      end
  end.

Definition unescape (e : ascii) : option ascii :=
  if Ascii.eqb e dq then Some dq
  else if Ascii.eqb e bs then Some bs
  else if Ascii.eqb e "/" then Some "/"%char
  else if Ascii.eqb e "n" then Some nl
  else if Ascii.eqb e "t" then Some (ascii_of_nat 9)
  else if Ascii.eqb e "r" then Some (ascii_of_nat 13)
  else if Ascii.eqb e "b" then Some (ascii_of_nat 8)
  else if Ascii.eqb e "f" then Some (ascii_of_nat 12)
  else None.

(** The characters of a string literal after its opening quote. *)
Fixpoint read_string (cs : list ascii) : option (string * list ascii) :=
  match cs with
  | [] => None
  | c :: r =>
      if Ascii.eqb c dq then Some (EmptyString, r)
      else if Ascii.eqb c bs then
        match r with
        | e :: r' =>
            match unescape e, read_string r' with
            | Some a, Some (s, rest) => Some (String a s, rest)
            | _, _ => None
            end
        | [] => None
        end
      else
        match read_string r with
        | Some (s, rest) => Some (String c s, rest)
        | None => None
        end
  end.

Fixpoint read_digits (acc : Z) (cs : list ascii) : Z * list ascii :=
  match cs with
  | c :: r =>
      if is_digit c then read_digits (10 * acc + Z.of_nat (nat_of_ascii c - 48)) r
      else (acc, cs)
  | [] => (acc, [])
  end.

Definition read_literal (word : string) (v : json) (cs : list ascii)
  : option (json * list ascii) :=
  let w := list_ascii_of_string word in
  if bool_decide (take (List.length w) cs = w) then Some (v, drop (List.length w) cs)
  else None.

Fixpoint read_value (fuel : nat) (cs0 : list ascii) : option (json * list ascii) :=
  match fuel with
  | O => None
  | S f =>
      let cs := skip_ws (List.length cs0) cs0 in
      match cs with
      | [] => None
      | c :: r =>
          if Ascii.eqb c dq then
            match read_string r with
            | Some (s, rest) => Some (JStr s, rest)
            | None => None
            end
          else if Ascii.eqb c "[" then read_items f true [] r
          else if Ascii.eqb c "{" then read_props f true [] r
          else if Ascii.eqb c "-" then
            match r with
            | d :: _ =>
                if is_digit d then
                  let '(n, rest) := read_digits 0 r in Some (JNum (- n), rest)
                else None
            | [] => None
            end
          else if is_digit c then
            let '(n, rest) := read_digits 0 cs in Some (JNum n, rest)
          else if Ascii.eqb c "n" then read_literal "null" JNull cs
          else if Ascii.eqb c "t" then read_literal "true" (JBool true) cs
          else if Ascii.eqb c "f" then read_literal "false" (JBool false) cs
          else None
      end
  end
with read_items (fuel : nat) (first : bool) (acc : list json) (cs0 : list ascii)
  : option (json * list ascii) :=
  match fuel with
  | O => None
  | S f =>
      let cs := skip_ws (List.length cs0) cs0 in
      match cs with
      | [] => None
      | c :: r =>
          if first && Ascii.eqb c "]" then Some (JArr [], r)
          else
            match read_value f cs with
            | Some (v, rest0) =>
                match skip_ws (List.length rest0) rest0 with
                | d :: rest =>
                    if Ascii.eqb d "," then read_items f false (acc ++ [v]) rest
                    else if Ascii.eqb d "]" then Some (JArr (acc ++ [v]), rest)
                    else None
                | [] => None
                end
            | None => None
            end
      end
  end
with read_props (fuel : nat) (first : bool) (acc : list (string * json))
    (cs0 : list ascii) : option (json * list ascii) :=
  match fuel with
  | O => None
  | S f =>
      let cs := skip_ws (List.length cs0) cs0 in
      match cs with
      | [] => None
      | c :: r =>
          if first && Ascii.eqb c "}" then Some (JObj [], r)
          else if Ascii.eqb c dq then
            match read_string r with
            | Some (k, rest0) =>
                match skip_ws (List.length rest0) rest0 with
                | d :: rest1 =>
                    if Ascii.eqb d ":" then
                      match read_value f rest1 with
                      | Some (v, rest2) =>
                          match skip_ws (List.length rest2) rest2 with
                          | e :: rest =>
                              if Ascii.eqb e "," then read_props f false (Obj.set k v acc) rest
                              else if Ascii.eqb e "}" then Some (JObj (Obj.set k v acc), rest)
                              else None
                          | [] => None
                          end
                      | None => None
                      end
                    else None
                | [] => None
                end
            | None => None
            end
          else None
      end
  end.

(** Strict JSON with comments; anything else is a syntax error. *)
Definition parse (content : string) : res json :=
  let cs := list_ascii_of_string content in
  match read_value (S (List.length cs)) cs with
  | Some (v, rest) =>
      match skip_ws (List.length rest) rest with
      | [] => Ok v
      | _ :: _ => Throw (SyntaxError "unexpected token after the value")
      end
  | None => Throw (SyntaxError "invalid document")
  end.

End Sample.

(* ===================================================================== *)
(** ** Worked inputs *)
(* ===================================================================== *)

Module Example.

Definition ROOT : string := "/home/dev/app".

Definition first_doc : json := JObj [("items", JArr [JNum 1; JNum 2])].
Definition second_doc : json := JObj [("items", JArr [JNum 3; JNum 4])].
Definition concatenated : json := JObj [("items", JArr [JNum 1; JNum 2; JNum 3; JNum 4])].
Definition replaced : json := JObj [("items", JArr [JNum 3; JNum 4])].

(** A project directory with two inputs (modified at 1000 and 2000) and,
    when [output] is given, an output file [out.json]. *)
Definition project (output : option node) : FS :=
  {| nodes :=
       let inputs :=
         <["/home/dev/app" := Dir 500]>
           (<["/home/dev/app/a.jsonc" := File (Sample.stringify first_doc 2) 1000]>
              (<["/home/dev/app/b.jsonc" := File (Sample.stringify second_doc 2) 2000]> ∅)) in
       match output with
       | Some n => <["/home/dev/app/out.json" := n]> inputs
       | None => inputs
       end;
     links := ∅;
     now := 3000;
     log := [] |}.

(** The same project with [link.json], a symbolic link to a file outside
    the root. *)
Definition with_link : FS :=
  {| nodes := <["/home/dev/app/link.json" := File "{}" 700]> (nodes (project None));
     links := <["/home/dev/app/link.json" := "/etc/secret.json"]> ∅;
     now := 3000;
     log := [] |}.

Definition options (dry keep : bool) : MergeOptions :=
  {| out := "out.json"; inputs := ["a.jsonc"; "b.jsonc"];
     skipMissing := None; pretty := None; dryRun := Some dry;
     backup := Some keep; indent := None |}.

Definition merged_text : string := Sample.stringify concatenated 2.

(** Every listed input is absent and the output path is not even valid. *)
Definition all_missing : MergeOptions :=
  {| out := "../../outside.txt"; inputs := ["missing1.json"; "missing2.json"];
     skipMissing := Some true; pretty := None; dryRun := None;
     backup := None; indent := None |}.

Definition run (opts : MergeOptions) (fs : FS) : res MergeResult.t * FS :=
  mergeJsonc ROOT Sample.parse Sample.parse Sample.stringify opts fs.

(** The project with [ext], a symbolic link to a directory outside the
    root. *)
Definition with_linked_dir : FS :=
  {| nodes := <["/home/dev/app/ext" := Dir 600]> (nodes (project None));
     links := <["/home/dev/app/ext" := "/srv/data"]> ∅;
     now := 3000;
     log := [] |}.

(** The project with an output older than its inputs and a directory in
    the place of the temporary file. *)
Definition blocked_tmp : FS :=
  {| nodes := <["/home/dev/app/out.json.tmp" := Dir 100]>
                (nodes (project (Some (File "old" 1500))));
     links := ∅;
     now := 3000;
     log := [] |}.

(** The project with [in.json], a symbolic link to [real.json5] inside the
    root. *)
Definition with_json5_link : FS :=
  {| nodes := <["/home/dev/app/in.json" := File "" 800]>
                (<["/home/dev/app/real.json5"
                   := File (Sample.stringify (JObj [("a", JNum 1)]) 0) 800]>
                   (nodes (project None)));
     links := <["/home/dev/app/in.json" := "/home/dev/app/real.json5"]> ∅;
     now := 3000;
     log := [] |}.

(** A parser that accepts nothing, to tell the two parsers apart. *)
Definition refuse (content : string) : res json :=
  Throw (SyntaxError "not this parser").

(** Two objects with distinct keys each. *)
Definition base_doc : list (string * json) :=
  [("name", JStr "app"); ("server", JObj [("port", JNum 80)]); ("tags", JArr [JStr "a"])].
Definition local_doc : list (string * json) :=
  [("server", JObj [("host", JStr "localhost")]); ("tags", JStr "none");
   ("toString", JNum 1); ("debug", JBool true)].

(** The configuration of the command-line test, one that differs from it
    everywhere but in [indent], and an ill-typed configuration object. *)
Definition config : Config.ConfigOptions :=
  {| Config.out := None; Config.skipMissing := None; Config.pretty := Some false;
     Config.dryRun := None; Config.backup := Some true; Config.indent := Some 4 |}.
Definition other_config : Config.ConfigOptions :=
  {| Config.out := Some "elsewhere.json"; Config.skipMissing := Some false;
     Config.pretty := Some true; Config.dryRun := Some true;
     Config.backup := Some false; Config.indent := Some 4 |}.
Definition ill_typed : list (string * Config.value) :=
  [ ("indent", Config.VString "wide"); ("pretty", Config.VNumber (Config.Num 1));
    ("out", Config.VString "merged.json"); ("extra", Config.VNull) ].

(** [--out result.json --skip-missing --backup input.jsonc] after the
    parse. *)
Definition argv : Cli.Argv.t :=
  {| Cli.Argv.out := Some "result.json"; Cli.Argv.skip_missing := Some true;
     Cli.Argv.min := Some false; Cli.Argv.dry_run := Some false;
     Cli.Argv.backup := Some true; Cli.Argv.indent := None;
     Cli.Argv.array_merge := Some "replace"; Cli.Argv.header := Some true;
     Cli.Argv.no_header := Some false; Cli.Argv.positional := ["input.jsonc"] |}.

End Example.

(* ===================================================================== *)
(** ** Results, computations and times *)
(* ===================================================================== *)

Lemma io_bind_read {A B} (f : FS -> res A) (k : A -> io B) fs a :
  f fs = Ok a -> io_bind (io_read f) k fs = k a fs.
Proof. intros H. unfold io_bind, io_read. now rewrite H. Qed.

Lemma io_bind_read_throw {A B} (f : FS -> res A) (k : A -> io B) fs e :
  f fs = Throw e -> io_bind (io_read f) k fs = (Throw e, fs).
Proof. intros H. unfold io_bind, io_read. now rewrite H. Qed.

Lemma length_eqb_0 {A} (l : list A) : l <> [] -> (List.length l =? 0)%nat = false.
Proof. destruct l; [congruence | reflexivity]. Qed.

Lemma msec_le_refl a : msec_le a a = true.
Proof. destruct a; simpl; [reflexivity | apply Z.leb_refl]. Qed.

Lemma msec_le_trans a b c : msec_le a b = true -> msec_le b c = true -> msec_le a c = true.
Proof.
  destruct a, b, c; simpl; try congruence.
  rewrite !Z.leb_le. lia.
Qed.

Lemma msec_le_total a b : msec_le a b = false -> msec_le b a = true.
Proof.
  destruct a, b; simpl; try congruence.
  rewrite Z.leb_gt, Z.leb_le. lia.
Qed.

Lemma msec_max_le a b c :
  msec_le (msec_max a b) c = msec_le a c && msec_le b c.
Proof.
  unfold msec_max. destruct (msec_le a b) eqn:Hab.
  - destruct (msec_le b c) eqn:Hbc.
    + now rewrite (msec_le_trans _ _ _ Hab Hbc).
    + now rewrite andb_false_r.
  - apply msec_le_total in Hab.
    destruct (msec_le a c) eqn:Hac; [| reflexivity].
    now rewrite (msec_le_trans _ _ _ Hab Hac).
Qed.

Lemma fold_msec_max_le l acc c :
  msec_le (fold_left msec_max l acc) c = msec_le acc c && forallb (fun x => msec_le x c) l.
Proof.
  revert acc. induction l as [| x l IH]; intros acc; simpl.
  - now rewrite andb_true_r.
  - now rewrite IH, msec_max_le, andb_assoc.
Qed.

(** [Math.max(...l) <= c] exactly when every element of [l] is at most [c]. *)
Lemma Math_max_le l c :
  msec_le (Math_max l) c = forallb (fun x => msec_le x c) l.
Proof. unfold Math_max. now rewrite fold_msec_max_le. Qed.

(* ===================================================================== *)
(** ** Strings and paths: sibling names never collide *)
(* ===================================================================== *)

Lemma append_cons (c : ascii) (s t : string) : String c s ++ t = String c (s ++ t).
Proof. reflexivity. Qed.

Lemma append_empty (t : string) : "" ++ t = t.
Proof. reflexivity. Qed.


Lemma length_app_string (a b : string) :
  String.length (a ++ b) = (String.length a + String.length b)%nat.
Proof. induction a as [| c a IH]; simpl; [reflexivity | now rewrite IH]. Qed.

Lemma length_list_ascii (s : string) :
  List.length (list_ascii_of_string s) = String.length s.
Proof. induction s as [| c s IH]; simpl; [reflexivity | now rewrite IH]. Qed.

Lemma length_substring_0 (n : nat) (s : string) :
  String.length (String.substring 0 n s) = Nat.min n (String.length s).
Proof.
  revert n. induction s as [| c s IH]; intros [| n]; simpl; try reflexivity.
  now rewrite IH.
Qed.

Lemma sibling_ne_self (p suffix : string) : suffix <> "" -> p ++ suffix <> p.
Proof.
  intros Hs H. apply (f_equal String.length) in H.
  rewrite length_app_string in H. destruct suffix; [congruence | simpl in H; lia].
Qed.

Lemma bak_ne_tmp (p : string) : p ++ ".bak" <> p ++ ".tmp".
Proof. intros H. apply String.app_inj in H. discriminate. Qed.

Lemma dir_scan_bound rs matched e :
  Path.dir_scan rs matched = Some e ->
  (e < List.length rs)%nat /\ (matched = true -> (e + 2 <= List.length rs)%nat).
Proof.
  revert matched e. induction rs as [| c rest IH]; intros matched e; simpl; [discriminate |].
  destruct rest as [| d rest']; [discriminate |].
  destruct (Ascii.eqb c Path.sep).
  - destruct matched; cbn [negb].
    + intros H. apply IH in H as [H1 H2]. specialize (H2 eq_refl). simpl in *. lia.
    + intros [= <-]. simpl. split; [lia | discriminate].
  - intros H. apply IH in H as [H1 _]. simpl in *. lia.
Qed.

(** [dirname] returns a strictly shorter string, except on the shortest
    inputs. *)
Lemma dirname_shorter (p : string) :
  (2 <= String.length p)%nat ->
  (String.length (Path.dirname p) < String.length p)%nat.
Proof.
  intros Hlen. unfold Path.dirname. destruct p as [| a p']; [simpl in Hlen; lia |].
  destruct (Path.dir_scan _ true) as [e |] eqn:Hscan.
  - apply dir_scan_bound in Hscan as [H1 H2]. specialize (H2 eq_refl).
    rewrite length_rev, length_list_ascii in H1, H2.
    destruct (Path.isAbsolute (String a p') && (e =? 1)%nat) eqn:Hroot.
    + apply andb_true_iff in Hroot as [_ He]. apply Nat.eqb_eq in He. subst e.
      cbn [String.length] in *. lia.
    + unfold Js.slice. rewrite Nat.sub_0_r, length_substring_0. lia.
  - destruct (Path.isAbsolute _); cbn [String.length] in *; lia.
Qed.

Lemma dirname_not_longer (p : string) :
  (String.length (Path.dirname p) <= Nat.max 1 (String.length p))%nat.
Proof.
  destruct (le_lt_dec 2 (String.length p)) as [H | H].
  - apply dirname_shorter in H. lia.
  - destruct p as [| a [| b p']]; simpl in H; try lia; try reflexivity.
    unfold Path.dirname. simpl. destruct (Ascii.eqb a Path.sep); simpl; lia.
Qed.

Lemma dirname_ne_sibling (p suffix suffix' : string) :
  String.length suffix = 4%nat -> String.length suffix' = 4%nat ->
  Path.dirname (p ++ suffix) <> p ++ suffix'.
Proof.
  intros H1 H2 H. apply (f_equal String.length) in H.
  assert (2 <= String.length (p ++ suffix))%nat as Hlen
    by (rewrite length_app_string; lia).
  apply dirname_shorter in Hlen. rewrite !length_app_string in *. lia.
Qed.

Lemma dirname_ne_child (p suffix : string) :
  String.length suffix = 4%nat -> Path.dirname p <> p ++ suffix.
Proof.
  intros H1 H. apply (f_equal String.length) in H.
  pose proof (dirname_not_longer p). rewrite length_app_string in H. lia.
Qed.

(* ===================================================================== *)
(** ** Path guard: extensions *)
(* ===================================================================== *)

(** The extension guard, read off its definition. *)
Lemma ensureJsonLike_ok_iff (pathStr : string) :
  FsSafety.ensureJsonLike pathStr = Ok tt
  <-> Js.toLowerCase (Path.extname pathStr) = ".json"
      \/ Js.toLowerCase (Path.extname pathStr) = ".jsonc".
Proof.
  unfold FsSafety.ensureJsonLike.
  destruct (String.eqb_spec (Js.toLowerCase (Path.extname pathStr)) ".json") as [-> | H1];
    [cbn; tauto |].
  destruct (String.eqb_spec (Js.toLowerCase (Path.extname pathStr)) ".jsonc") as [-> | H2];
    [cbn; tauto |].
  cbn. split; [discriminate | tauto].
Qed.

Lemma list_ascii_app (a b : string) :
  list_ascii_of_string (a ++ b) = (list_ascii_of_string a ++ list_ascii_of_string b)%list.
Proof. induction a as [| c a IH]; [reflexivity |]. rewrite append_cons. cbn. now rewrite IH. Qed.

Lemma substring_skip (a b : string) (n : nat) :
  String.substring (String.length a) n (a ++ b) = String.substring 0 n b.
Proof. induction a as [| c a IH]; [reflexivity |]. rewrite append_cons. exact IH. Qed.

Lemma substring_all (b : string) : String.substring 0 (String.length b) b = b.
Proof. induction b as [| c b IH]; [reflexivity |]. cbn. now rewrite IH. Qed.

Lemma scan_before_dot (l rest : list ascii) (sp : nat) (e : nat) (pd : Z) :
  forallb plain_char l = true ->
  Path.ext_scan (l ++ rest)
    {| Path.startDot := None; Path.startPart := sp; Path.end_ := Some e;
       Path.matchedSlash := false; Path.preDotState := pd |}
  = Path.ext_scan rest
      {| Path.startDot := None; Path.startPart := sp; Path.end_ := Some e;
         Path.matchedSlash := false; Path.preDotState := pd |}.
Proof.
  induction l as [| c l IH]; [reflexivity |]. cbn [forallb]. intros H.
  apply andb_true_iff in H as [Hc Hl]. unfold plain_char in Hc.
  apply andb_true_iff in Hc as [Hs Hd]. apply negb_true_iff in Hs, Hd.
  cbn [app Path.ext_scan]. rewrite Hs, Hd. cbn. exact (IH Hl).
Qed.

Lemma scan_after_dot (l rest : list ascii) (d sp e : nat) :
  forallb plain_char l = true ->
  Path.ext_scan (l ++ rest)
    {| Path.startDot := Some d; Path.startPart := sp; Path.end_ := Some e;
       Path.matchedSlash := false; Path.preDotState := -1 |}
  = Path.ext_scan rest
      {| Path.startDot := Some d; Path.startPart := sp; Path.end_ := Some e;
         Path.matchedSlash := false; Path.preDotState := -1 |}.
Proof.
  induction l as [| c l IH]; [reflexivity |]. cbn [forallb]. intros H.
  apply andb_true_iff in H as [Hc Hl]. unfold plain_char in Hc.
  apply andb_true_iff in Hc as [Hs Hd]. apply negb_true_iff in Hs, Hd.
  cbn [app Path.ext_scan]. rewrite Hs, Hd. cbn. exact (IH Hl).
Qed.

Lemma plain_char_split (c : ascii) :
  plain_char c = true -> Ascii.eqb c Path.sep = false /\ Ascii.eqb c Path.dot = false.
Proof.
  unfold plain_char. intros H. apply andb_true_iff in H as [Hs Hd].
  now apply negb_true_iff in Hs, Hd.
Qed.

(** The scan of [dir/stem.ext] from the right: it meets the extension, the
    dot, at least one character of the stem, and stops at the separator or
    at the start of the string. *)
Lemma scan_plain_name (ext stem before : list ascii) :
  forallb plain_char ext = true ->
  forallb plain_char stem = true ->
  stem <> [] ->
  before = [] \/ (exists b, before = Path.sep :: b) ->
  let st := Path.ext_scan (ext ++ Path.dot :: stem ++ before) Path.ext_init in
  Path.startDot st = Some (List.length (stem ++ before))
  /\ Path.end_ st = Some (List.length (ext ++ Path.dot :: stem ++ before))
  /\ Path.preDotState st = -1.
Proof.
  intros Hext Hstem Hne Hbefore.
  assert (forall e,
    let st := Path.ext_scan (Path.dot :: stem ++ before)
                {| Path.startDot := None; Path.startPart := 0; Path.end_ := e;
                   Path.matchedSlash := match e with Some _ => false | None => true end;
                   Path.preDotState := 0 |} in
    Path.startDot st = Some (List.length (stem ++ before))
    /\ Path.end_ st = Some (match e with
                            | Some n => n
                            | None => S (List.length (stem ++ before))
                            end)
    /\ Path.preDotState st = -1) as Hdot.
  { intros e. destruct stem as [| c stem']; [congruence |].
    cbn [forallb] in Hstem. apply andb_true_iff in Hstem as [Hc Hstem'].
    apply plain_char_split in Hc as [Hs Hd].
    assert (Ascii.eqb Path.dot Path.sep = false) as Hds by reflexivity.
    cbn [Path.ext_scan]. rewrite Hds, Ascii.eqb_refl.
    set (n := match e with Some n => n | None => S (List.length ((c :: stem') ++ before)) end).
    assert (Path.ext_scan ((c :: stem') ++ before)
              {| Path.startDot := Some (List.length ((c :: stem') ++ before));
                 Path.startPart := 0; Path.end_ := Some n;
                 Path.matchedSlash := false; Path.preDotState := 0 |}
            = Path.ext_scan before
                {| Path.startDot := Some (List.length ((c :: stem') ++ before));
                   Path.startPart := 0; Path.end_ := Some n;
                   Path.matchedSlash := false; Path.preDotState := -1 |}) as Hscan.
    { cbn [app Path.ext_scan]. rewrite Hs, Hd. cbn.
      exact (scan_after_dot stem' before _ 0 n Hstem'). }
    assert (forall st, st = {| Path.startDot := Some (List.length ((c :: stem') ++ before));
                               Path.startPart := 0; Path.end_ := Some n;
                               Path.matchedSlash := false; Path.preDotState := -1 |} ->
              Path.startDot (Path.ext_scan before st)
              = Some (List.length ((c :: stem') ++ before))
              /\ Path.end_ (Path.ext_scan before st) = Some n
              /\ Path.preDotState (Path.ext_scan before st) = -1) as Hend.
    { intros st ->. destruct Hbefore as [-> | [b ->]]; [cbn; auto |].
      cbn [Path.ext_scan]. rewrite Ascii.eqb_refl. cbn. auto. }
    destruct e as [m |]; cbn zeta; cbn [Path.end_ Path.startDot Path.matchedSlash
                                         Path.startPart Path.preDotState];
      subst n; rewrite Hscan; now apply Hend. }
  destruct ext as [| c ext'].
  - cbn [app]. specialize (Hdot None). cbn zeta in Hdot. exact Hdot.
  - cbn [forallb] in Hext. apply andb_true_iff in Hext as [Hc Hext'].
    apply plain_char_split in Hc as [Hs Hd].
    cbn zeta. unfold Path.ext_init. cbn [app Path.ext_scan]. rewrite Hs, Hd.
    cbn [negb Path.end_ Path.startDot Path.matchedSlash Path.startPart Path.preDotState].
    rewrite (scan_before_dot ext' _ 0 _ 0 Hext').
    specialize (Hdot (Some (S (List.length (ext' ++ Path.dot :: stem ++ before))))).
    cbn zeta in Hdot. exact Hdot.
Qed.

Lemma forallb_rev_same {A} (f : A -> bool) (l : list A) :
  forallb f (rev l) = forallb f l.
Proof.
  induction l as [| x l IH]; [reflexivity |].
  cbn [rev forallb]. rewrite forallb_app, IH. cbn. rewrite andb_true_r. apply andb_comm.
Qed.

Lemma append_assoc_string (a b c : string) : (a ++ b) ++ c = a ++ b ++ c.
Proof. induction a as [| x a IH]; [reflexivity |]. rewrite !append_cons. now rewrite IH. Qed.

(** [extname] of a name whose last component is [stem.ext], both free of
    dots and separators and the stem not empty. *)
Lemma extname_plain_name (pre stem ext : string) :
  pre = "" \/ (exists dir, pre = dir ++ "/") ->
  stem <> "" ->
  plain stem = true ->
  plain ext = true ->
  Path.extname (pre ++ stem ++ "." ++ ext) = "." ++ ext.
Proof.
  intros Hpre Hne Hstem Hext. unfold Path.extname.
  assert (rev (list_ascii_of_string (pre ++ stem ++ "." ++ ext))
          = (rev (list_ascii_of_string ext)
             ++ Path.dot :: rev (list_ascii_of_string stem)
             ++ rev (list_ascii_of_string pre))%list) as Hrev.
  { rewrite !list_ascii_app. cbn [list_ascii_of_string app].
    rewrite !rev_app_distr. cbn [rev]. rewrite <- !app_assoc. reflexivity. }
  rewrite Hrev.
  destruct (scan_plain_name (rev (list_ascii_of_string ext))
              (rev (list_ascii_of_string stem)) (rev (list_ascii_of_string pre)))
    as (Hsd & He & Hpd).
  - unfold plain in Hext. now rewrite forallb_rev_same.
  - unfold plain in Hstem. now rewrite forallb_rev_same.
  - destruct stem; [congruence |]. cbn [list_ascii_of_string rev].
    intros H. apply (f_equal (@List.length ascii)) in H.
    rewrite length_app in H. cbn in H. lia.
  - destruct Hpre as [-> | [dir ->]]; [now left | right].
    rewrite list_ascii_app, rev_app_distr. cbn. eauto.
  - rewrite Hsd, He, Hpd. cbn [Z.eqb orb andb].
    change ("." ++ ext) with (String Path.dot ext).
    assert (List.length (rev (list_ascii_of_string stem) ++ rev (list_ascii_of_string pre))
            = String.length (pre ++ stem)) as ->.
    { rewrite length_app, !length_rev, !length_list_ascii, length_app_string. lia. }
    assert (List.length (rev (list_ascii_of_string ext)
                         ++ Path.dot :: rev (list_ascii_of_string stem)
                         ++ rev (list_ascii_of_string pre))
            = (String.length (pre ++ stem) + String.length (String Path.dot ext))%nat) as ->.
    { rewrite length_app. cbn [List.length].
      rewrite length_app, !length_rev, !length_list_ascii, !length_app_string.
      cbn [String.length]. lia. }
    unfold Js.slice.
    replace (pre ++ stem ++ String Path.dot ext)
      with ((pre ++ stem) ++ String Path.dot ext) by apply append_assoc_string.
    replace (String.length (pre ++ stem) + String.length (String Path.dot ext)
             - String.length (pre ++ stem))%nat
      with (String.length (String Path.dot ext)) by lia.
    rewrite substring_skip. apply substring_all.
Qed.

Lemma lower_plain (c : ascii) :
  plain_char (Js.lower_ascii c) = true -> plain_char c = true.
Proof.
  unfold Js.lower_ascii.
  destruct ((65 <=? nat_of_ascii c)%nat && (nat_of_ascii c <=? 90)%nat) eqn:Hup;
    [| trivial].
  intros _. apply andb_true_iff in Hup as [H1 H2].
  apply Nat.leb_le in H1, H2. unfold plain_char.
  destruct (Ascii.eqb_spec c Path.sep) as [-> | _];
    [change (nat_of_ascii Path.sep) with 47%nat in H1; lia |].
  destruct (Ascii.eqb_spec c Path.dot) as [-> | _];
    [change (nat_of_ascii Path.dot) with 46%nat in H1; lia | reflexivity].
Qed.

Lemma lower_plain_string (s : string) :
  plain (Js.toLowerCase s) = true -> plain s = true.
Proof.
  unfold plain. induction s as [| c s IH]; [reflexivity |].
  cbn [Js.toLowerCase list_ascii_of_string forallb]. intros H.
  apply andb_true_iff in H as [Hc Hs].
  now rewrite (lower_plain _ Hc), (IH Hs).
Qed.

Lemma toLowerCase_app (a b : string) :
  Js.toLowerCase (a ++ b) = Js.toLowerCase a ++ Js.toLowerCase b.
Proof.
  induction a as [| c a IH]; [reflexivity |].
  rewrite append_cons. cbn [Js.toLowerCase]. now rewrite IH, append_cons.
Qed.

(** X3.  Names [dir/stem.json] and [dir/stem.jsonc], in any letter case of the
    extension, pass the extension guard. *)
Lemma json_and_jsonc_names_pass (pre stem ext : string) :
  pre = "" \/ (exists dir, pre = dir ++ "/") ->
  stem <> "" ->
  plain stem = true ->
  Js.toLowerCase ext = "json" \/ Js.toLowerCase ext = "jsonc" ->
  FsSafety.ensureJsonLike (pre ++ stem ++ "." ++ ext) = Ok tt.
Proof.
  intros Hpre Hne Hstem Hext.
  assert (plain ext = true) as Hplain
    by (apply lower_plain_string; destruct Hext as [-> | ->]; reflexivity).
  apply ensureJsonLike_ok_iff.
  rewrite (extname_plain_name _ _ _ Hpre Hne Hstem Hplain), toLowerCase_app.
  destruct Hext as [-> | ->]; [left | right]; reflexivity.
Qed.

(** C4.  [ensureJsonLike] accepts [file.json] and [file.jsonc] and throws
    on [file.json5], although [parseJsonFile] sends a [.json5] path to the
    JSON5 parser. *)
Theorem json5_extension_is_refused :
  FsSafety.ensureJsonLike "file.json" = Ok tt
  /\ FsSafety.ensureJsonLike "file.jsonc" = Ok tt
  /\ FsSafety.ensureJsonLike "file.json5" = Throw (NotJsonLike "file.json5")
  /\ forall (parseJsonc JSON5_parse : string -> res json) (content : string),
       parseJsonFile parseJsonc JSON5_parse "file.json5" content
       = match JSON5_parse content with
         | Ok v => Ok v
         | Throw error => Throw (ParseFailed "JSON5" "file.json5" error)
         end.
Proof.
  split; [reflexivity |]. split; [reflexivity |]. split; [reflexivity |].
  intros parseJsonc JSON5_parse content. reflexivity.
Qed.

(* ===================================================================== *)
(** ** Path guard: staying inside the root *)
(* ===================================================================== *)

Lemma strip_common_app (a down : list string) :
  Path.strip_common a (a ++ down)%list = ([], down).
Proof.
  induction a as [| x a IH]; simpl.
  - now destruct down.
  - now rewrite String.eqb_refl.
Qed.

Lemma strip_common_escape (a b up down : list string) :
  Path.strip_common a b = (up, down) -> ~ a `prefix_of` b -> up <> [].
Proof.
  revert b. induction a as [| x a IH]; intros b Hs Hnot.
  - exfalso. apply Hnot. apply prefix_nil.
  - destruct b as [| y b]; simpl in Hs.
    + injection Hs as <- _. discriminate.
    + destruct (String.eqb_spec x y) as [-> | Hxy].
      * apply (IH b Hs). intros Hp. apply Hnot. now apply prefix_cons.
      * injection Hs as <- _. discriminate.
Qed.

Lemma join_starts_with_up (n : nat) (down : list string) :
  n <> 0%nat -> Js.startsWith (Js.join "/" (repeat ".." n ++ down)%list) ".." = true.
Proof.
  destruct n as [| n]; [congruence | intros _].
  cbn [repeat app]. unfold Js.join, Js.startsWith.
  destruct (repeat ".." n ++ down)%list; reflexivity.
Qed.

Lemma join_starts_like_head (d : string) (rest : list string) :
  Js.startsWith (Js.join "/" (d :: rest)) ".." = Js.startsWith d "..".
Proof.
  unfold Js.join, Js.startsWith. cbn [String.concat].
  destruct rest as [| r rest].
  - reflexivity.
  - destruct d as [| c1 [| c2 d']];
      rewrite ?append_cons, ?append_empty; cbn [String.prefix].
    + destruct (Ascii.ascii_dec "."%char "/"%char); [discriminate | reflexivity].
    + destruct (Ascii.ascii_dec "."%char c1); [| reflexivity].
      destruct (Ascii.ascii_dec "."%char "/"%char); [discriminate | reflexivity].
    + destruct (Ascii.ascii_dec "."%char c1); [| reflexivity].
      destruct (Ascii.ascii_dec "."%char c2); [| reflexivity].
      now destruct d'.
Qed.

Lemma join_split (c : ascii) (p : string) :
  Js.join (String c EmptyString) (Js.split c p) = p.
Proof.
  unfold Js.join. induction p as [| a p IH]; [reflexivity |].
  cbn [Js.split]. destruct (Ascii.eqb_spec a c) as [-> | Hne].
  - cbn [String.concat]. destruct (Js.split c p) eqn:Hs.
    + destruct p; cbn in Hs; [discriminate | destruct (Ascii.eqb a c), (Js.split c p); discriminate].
    + rewrite append_empty, append_cons, append_empty. now rewrite IH.
  - destruct (Js.split c p) as [| h t] eqn:Hs.
    + destruct p; cbn in Hs; [discriminate | destruct (Ascii.eqb a0 c), (Js.split c p); discriminate].
    + cbn [String.concat] in *. destruct t.
      * now rewrite IH.
      * rewrite append_cons. now rewrite IH.
Qed.

(** X4.  [validateSegments] accepts a path exactly when each of its segments
    passes. *)
Lemma validateSegments_ok_iff (p : string) :
  FsSafety.validateSegments p = Ok tt
  <-> forallb segment_ok (Js.split Path.sep p) = true.
Proof.
  unfold FsSafety.validateSegments.
  change "/" with (String Path.sep EmptyString). rewrite join_split.
  induction (Js.split Path.sep p) as [| segment rest IH]; [cbn; tauto |].
  cbn [FsSafety.validate_loop forallb]. unfold segment_ok at 1.
  destruct (String.eqb segment "" || String.eqb segment "." || String.eqb segment "..");
    cbn [orb andb]; [exact IH |].
  destruct (FsSafety.SEGMENT_RE_test segment); cbn [negb andb]; [exact IH |].
  split; discriminate.
Qed.

Section Guard.

Variable ROOT : string.

Lemma ensureInsideRoot_unfold (fs : FS) (p : string) :
  FsSafety.validateSegments p = Ok tt ->
  FsSafety.ensureInsideRoot ROOT fs p =
  let rel := Path.relative ROOT (target_of ROOT fs p) in
  if Js.startsWith rel ".."
     || (String.eqb rel "" && negb (Js.startsWith (target_of ROOT fs p) ROOT))
  then Throw (OutsideRoot p)
  else Ok (target_of ROOT fs p).
Proof.
  intros Hv. unfold FsSafety.ensureInsideRoot, target_of. rewrite Hv. cbn [res_bind].
  unfold Fs.realpathSync, Fs.existsSync.
  destruct (nodes fs !! Path.resolve ROOT p); reflexivity.
Qed.

(** X1.  A target outside the root, by ".." or through a symbolic link, is
    always refused. *)
Lemma escape_is_rejected (fs : FS) (p : string) :
  ~ Path.segments ROOT `prefix_of` Path.segments (target_of ROOT fs p) ->
  exists e, FsSafety.ensureInsideRoot ROOT fs p = Throw e.
Proof.
  intros Hout.
  destruct (FsSafety.validateSegments p) as [[] | e] eqn:Hv.
  - rewrite (ensureInsideRoot_unfold _ _ Hv). cbn zeta.
    unfold Path.relative.
    destruct (Path.strip_common _ _) as [up down] eqn:Hs.
    pose proof (strip_common_escape _ _ _ _ Hs Hout) as Hup.
    rewrite join_starts_with_up by (destruct up; [congruence | discriminate]).
    eauto.
  - unfold FsSafety.ensureInsideRoot. rewrite Hv. eauto.
Qed.

(** X2.  A target below the root is accepted and returned, provided its first
    segment below the root does not begin with two dots. *)
Lemma inside_is_accepted (fs : FS) (p d : string) (below : list string) :
  FsSafety.validateSegments p = Ok tt ->
  Path.segments (target_of ROOT fs p) = (Path.segments ROOT ++ d :: below)%list ->
  d <> "" ->
  Js.startsWith d ".." = false ->
  FsSafety.ensureInsideRoot ROOT fs p = Ok (target_of ROOT fs p).
Proof.
  intros Hv Hsegs Hne Hd. rewrite (ensureInsideRoot_unfold _ _ Hv). cbn zeta.
  unfold Path.relative. rewrite Hsegs, strip_common_app. cbn [List.length repeat app].
  rewrite join_starts_like_head, Hd. cbn [orb].
  destruct (String.eqb_spec (Js.join "/" (d :: below)) "") as [Heq | _]; [| reflexivity].
  exfalso. unfold Js.join in Heq. cbn [String.concat] in Heq.
  destruct below; destruct d; congruence || discriminate.
Qed.

(** X13.  A target below the root whose first segment there begins with two
    dots is refused, although it is inside the root. *)
Lemma dotdot_segment_is_refused (fs : FS) (p d : string) (below : list string) :
  FsSafety.validateSegments p = Ok tt ->
  Path.segments (target_of ROOT fs p) = (Path.segments ROOT ++ d :: below)%list ->
  Js.startsWith d ".." = true ->
  FsSafety.ensureInsideRoot ROOT fs p = Throw (OutsideRoot p).
Proof.
  intros Hv Hsegs Hd. rewrite (ensureInsideRoot_unfold _ _ Hv). cbn zeta.
  unfold Path.relative. rewrite Hsegs, strip_common_app. cbn [List.length repeat app].
  now rewrite join_starts_like_head, Hd.
Qed.

(** X14.  The root itself is accepted. *)
Lemma root_itself_is_accepted (fs : FS) (p : string) :
  FsSafety.validateSegments p = Ok tt ->
  target_of ROOT fs p = ROOT ->
  FsSafety.ensureInsideRoot ROOT fs p = Ok ROOT.
Proof.
  intros Hv Ht. rewrite (ensureInsideRoot_unfold _ _ Hv), Ht. cbn zeta.
  unfold Path.relative.
  assert (Path.strip_common (Path.segments ROOT) (Path.segments ROOT) = ([], [])) as ->.
  { rewrite <- (app_nil_r (Path.segments ROOT)) at 2. apply strip_common_app. }
  cbn [List.length repeat app Js.join String.concat].
  assert (Js.startsWith ROOT ROOT = true) as ->.
  { unfold Js.startsWith. apply String.prefix_correct. apply substring_all. }
  reflexivity.
Qed.

End Guard.

(** C7.  The name [..a.json] has one segment of safe characters and, where
    it is no symbolic link, resolves to a file directly inside the root,
    whether or not that file exists; yet [ensureInsideRoot] throws: the
    relative path [..a.json] begins with two dots. *)
Theorem dotdot_prefixed_name_is_refused (fs : FS) :
  links fs !! "/home/dev/app/..a.json" = None ->
  FsSafety.validateSegments "..a.json" = Ok tt
  /\ target_of Example.ROOT fs "..a.json" = "/home/dev/app/..a.json"
  /\ Path.segments "/home/dev/app/..a.json"
     = (Path.segments Example.ROOT ++ ["..a.json"])%list
  /\ FsSafety.ensureInsideRoot Example.ROOT fs "..a.json"
     = Throw (OutsideRoot "..a.json").
Proof.
  intros Hlink.
  assert (target_of Example.ROOT fs "..a.json" = "/home/dev/app/..a.json") as Ht.
  { unfold target_of.
    change (Path.resolve Example.ROOT "..a.json") with "/home/dev/app/..a.json".
    rewrite Hlink. now destruct (Fs.existsSync fs _). }
  split; [reflexivity |]. split; [exact Ht |]. split; [reflexivity |].
  rewrite (ensureInsideRoot_unfold Example.ROOT fs "..a.json" eq_refl), Ht.
  reflexivity.
Qed.

(* ===================================================================== *)
(** ** Deep merge: colliding arrays *)
(* ===================================================================== *)

Lemma get_set_eq (k : string) (v : json) (o : list (string * json)) :
  Obj.get k (Obj.set k v o) = Some v.
Proof.
  induction o as [| [k' v'] o IH]; simpl.
  - now rewrite String.eqb_refl.
  - destruct (String.eqb_spec k k') as [-> | Hne]; simpl.
    + now rewrite String.eqb_refl.
    + apply String.eqb_neq in Hne. now rewrite Hne.
Qed.

Lemma get_set_ne (k k' : string) (v : json) (o : list (string * json)) :
  k <> k' -> Obj.get k (Obj.set k' v o) = Obj.get k o.
Proof.
  intros Hne. induction o as [| [k'' v''] o IH]; simpl.
  - apply String.eqb_neq in Hne. now rewrite Hne.
  - destruct (String.eqb_spec k' k'') as [-> | Hne']; simpl.
    + apply String.eqb_neq in Hne. now rewrite Hne.
    + destruct (String.eqb k k''); [reflexivity | exact IH].
Qed.

Lemma get_assign_eq (k : string) (v : json) (d : Deepmerge.destination) :
  k <> "__proto__" -> Obj.get k (fst (Deepmerge.assign k v d)) = Some v.
Proof.
  intros Hk. destruct d as [props chained]. unfold Deepmerge.assign.
  apply String.eqb_neq in Hk. rewrite Hk. apply get_set_eq.
Qed.

Lemma get_assign_ne (k k' : string) (v : json) (d : Deepmerge.destination) :
  k <> k' -> Obj.get k (fst (Deepmerge.assign k' v d)) = Obj.get k (fst d).
Proof.
  intros Hne. destruct d as [props chained]. unfold Deepmerge.assign.
  destruct (String.eqb k' "__proto__" && chained); [reflexivity | now apply get_set_ne].
Qed.

Section Collision.

Variables (target : json) (k : string).

(** The body of the loop of [mergeObject] over the source's properties. *)
Let step (dest : Deepmerge.destination) (kv : string * json) : Deepmerge.destination :=
  let key := fst kv in
  if Deepmerge.propertyIsUnsafe target key then dest
  else if Deepmerge.propertyIsOnObject target key && Deepmerge.isMergeableObject (snd kv)
       then Deepmerge.assign key (Deepmerge.merge (Deepmerge.target_get target key) (snd kv))
              dest
       else Deepmerge.assign key (Deepmerge.clone (snd kv)) dest.

Lemma other_keys_leave_it (props : list (string * json)) (dest : Deepmerge.destination) :
  ~ In k (Obj.keys props) ->
  Obj.get k (fst (fold_left step props dest)) = Obj.get k (fst dest).
Proof.
  revert dest. induction props as [| [k' v'] props IH]; intros dest Hnot; [reflexivity |].
  cbn [fold_left]. rewrite IH by (intros H; apply Hnot; now right).
  assert (k <> k') as Hne by (intros ->; apply Hnot; now left).
  unfold step. cbn [fst snd].
  destruct (Deepmerge.propertyIsUnsafe target k'); [reflexivity |].
  destruct (_ && _); now apply get_assign_ne.
Qed.

End Collision.

(** X5.  Where both sides hold an array under the same key, other than
    "__proto__", the merged object holds the target's elements followed by
    the source's, each cloned. *)
Lemma colliding_arrays_concatenate (t before after : list (string * json))
    (k : string) (a b : list json) :
  k <> "__proto__" ->
  Obj.get k t = Some (JArr a) ->
  ~ In k (Obj.keys after) ->
  exists merged,
    Deepmerge.merge (JObj t) (JObj (before ++ (k, JArr b) :: after)%list) = JObj merged
    /\ Obj.get k merged = Some (JArr (map Deepmerge.clone (a ++ b)%list)).
Proof.
  intros Hk Hget Hafter. eexists. split; [reflexivity |].
  rewrite fold_left_app. cbn [fold_left].
  rewrite (other_keys_leave_it (JObj t) k after _ Hafter).
  cbn [fst snd]. unfold Deepmerge.propertyIsUnsafe, Deepmerge.propertyIsOnObject, Obj.has.
  rewrite Hget. cbn [orb negb andb Deepmerge.isMergeableObject].
  rewrite (get_assign_eq _ _ _ Hk). unfold Deepmerge.target_get. rewrite Hget. reflexivity.
Qed.

(** Cloning leaves primitives alone, so arrays of primitives are
    concatenated as they are. *)
Lemma clone_primitive (v : json) :
  Deepmerge.isMergeableObject v = false -> Deepmerge.clone v = v.
Proof. destruct v; simpl; congruence. Qed.

Lemma clone_primitives (l : list json) :
  forallb (fun v => negb (Deepmerge.isMergeableObject v)) l = true ->
  map Deepmerge.clone l = l.
Proof.
  induction l as [| v l IH]; [reflexivity |]. cbn [forallb map]. intros H.
  apply andb_true_iff in H as [Hv Hl]. apply negb_true_iff in Hv.
  now rewrite (clone_primitive _ Hv), (IH Hl).
Qed.

(** X6.  Merge precedence: {a:1,b:{x:1}}, then {b:{y:2}}, then {a:2} merge to
    {a:2,b:{x:1,y:2}}: the later scalar replaces, mappings merge key by
    key. *)
Lemma merge_precedence_example :
  (let* m1 := Deepmerge.deepmerge (JObj [])
                (JObj [("a", JNum 1); ("b", JObj [("x", JNum 1)])]) in
   let* m2 := Deepmerge.deepmerge m1 (JObj [("b", JObj [("y", JNum 2)])]) in
   Deepmerge.deepmerge m2 (JObj [("a", JNum 2)]))
  = Ok (JObj [("a", JNum 2); ("b", JObj [("x", JNum 1); ("y", JNum 2)])]).
Proof. reflexivity. Qed.

(** C1.  [mergeFiles] calls [deepmerge] without options and [MergeOptions]
    has no array strategy.  Whatever the parsers are, two inputs that parse
    to {items:[1,2]} and {items:[3,4]} merge to {items:[1,2,3,4]}, not to
    {items:[3,4]}. *)
Theorem default_merge_concatenates_arrays
    (parseJsonc JSON5_parse : string -> res json) (fs : FS) (a b ca cb : string) :
  FsSafety.readText fs a = Ok ca ->
  FsSafety.readText fs b = Ok cb ->
  parseJsonFile parseJsonc JSON5_parse a ca = Ok Example.first_doc ->
  parseJsonFile parseJsonc JSON5_parse b cb = Ok Example.second_doc ->
  mergeFiles parseJsonc JSON5_parse fs [a; b] = Ok Example.concatenated
  /\ Example.concatenated <> Example.replaced.
Proof.
  intros Ha Hb Hpa Hpb. split; [| discriminate].
  unfold mergeFiles. cbn [mergeFiles_loop].
  rewrite Ha. cbn [res_bind]. rewrite Hpa. cbn [res_bind].
  change (Deepmerge.deepmerge (JObj []) Example.first_doc) with (Ok Example.first_doc).
  cbn [res_bind]. rewrite Hb. cbn [res_bind]. rewrite Hpb. reflexivity.
Qed.

(** The same on files: the engine writes the concatenation. *)
Lemma example_run_writes_concatenation :
  exists fs',
    Example.run (Example.options false false) (Example.project None)
    = (Ok {| MergeResult.wrote := true; MergeResult.reason := wrote;
             MergeResult.preview := None;
             MergeResult.out := Some "/home/dev/app/out.json";
             MergeResult.backup := None |}, fs')
    /\ Fs.readFileSync fs' "/home/dev/app/out.json"
       = Ok (Sample.stringify Example.concatenated 2).
Proof. eexists. split; vm_compute; reflexivity. Qed.

(* ===================================================================== *)
(** ** Safe I/O: what a commit does to the file system *)
(* ===================================================================== *)

Lemma isDir_written fs p text q :
  q <> p -> Fs.isDir (Fs.written p text fs) q = Fs.isDir fs q.
Proof.
  intros Hne. unfold Fs.isDir, Fs.written. cbn [nodes].
  now rewrite lookup_insert_ne by congruence.
Qed.

Lemma writeFileSync_ok p text fs :
  Fs.can_write fs p = true ->
  Fs.writeFileSync p text fs = (Ok tt, Fs.written p text fs).
Proof.
  unfold Fs.can_write, Fs.writeFileSync. intros H.
  apply andb_true_iff in H as [H1 H2]. apply negb_true_iff in H1.
  now rewrite H1, H2.
Qed.

Lemma writeFileSync_inv p text fs r fs' :
  Fs.writeFileSync p text fs = (r, fs') ->
  (r = Ok tt /\ fs' = Fs.written p text fs) \/ (exists e, r = Throw e /\ fs' = fs).
Proof.
  unfold Fs.writeFileSync.
  destruct (Fs.isDir fs p); [intros [= <- <-]; right; eauto |].
  destruct (Fs.isDir fs (Path.dirname p)); cbn [negb];
    intros [= <- <-]; [left | right]; eauto.
Qed.

Lemma renameSync_inv from to fs r fs' :
  Fs.renameSync from to fs = (r, fs') ->
  (exists c m, r = Ok tt /\ nodes fs !! from = Some (File c m)
               /\ fs' = Fs.renamed from to (File c m) fs)
  \/ (exists e, r = Throw e /\ fs' = fs).
Proof.
  unfold Fs.renameSync.
  destruct (nodes fs !! from) as [[c m | m] |] eqn:Hfrom;
    try (intros [= <- <-]; right; eauto; fail).
  destruct (Fs.isDir fs to); [intros [= <- <-]; right; eauto |].
  destruct (Fs.isDir fs (Path.dirname to)); cbn [negb];
    intros [= <- <-]; [left; eauto 6 | right; eauto].
Qed.

Lemma readText_ok_file fs p c :
  FsSafety.readText fs p = Ok c -> exists m, nodes fs !! p = Some (File c m).
Proof.
  unfold FsSafety.readText, Fs.statSync, Fs.readFileSync.
  destruct (nodes fs !! p) as [[c' m | m] |]; cbn [res_bind]; try discriminate.
  destruct (_ <? _); [discriminate | intros [= <-]; eauto].
Qed.

Lemma readText_ok_exists fs p c :
  FsSafety.readText fs p = Ok c -> Fs.existsSync fs p = true.
Proof.
  intros H. apply readText_ok_file in H as [m H]. unfold Fs.existsSync. now rewrite H.
Qed.

Lemma write_then_rename outAbs text fs :
  Fs.can_write fs (outAbs ++ ".tmp") = true ->
  Fs.isDir fs outAbs = false ->
  Fs.isDir fs (Path.dirname outAbs) = true ->
  io_bind (Fs.writeFileSync (outAbs ++ ".tmp") text)
          (fun _ => io_bind (Fs.renameSync (outAbs ++ ".tmp") outAbs) (fun _ => io_ret tt)) fs
  = (Ok tt, committed outAbs text fs).
Proof.
  intros Hw Hout Hparent. unfold io_bind at 1. rewrite (writeFileSync_ok _ _ _ Hw).
  unfold io_bind, Fs.renameSync. cbn [Fs.written nodes]. rewrite lookup_insert_eq.
  rewrite !isDir_written.
  - now rewrite Hout, Hparent.
  - apply dirname_ne_child. reflexivity.
  - intros H. symmetry in H. revert H. now apply sibling_ne_self.
Qed.

Lemma write_then_rename_inv outAbs text fs r fs' :
  io_bind (Fs.writeFileSync (outAbs ++ ".tmp") text)
          (fun _ => io_bind (Fs.renameSync (outAbs ++ ".tmp") outAbs) (fun _ => io_ret tt)) fs
  = (Ok r, fs') ->
  fs' = committed outAbs text fs.
Proof.
  unfold io_bind at 1.
  destruct (Fs.writeFileSync _ _ fs) as [r1 fs1] eqn:Hw.
  apply writeFileSync_inv in Hw as [[-> ->] | [e [-> ->]]]; [| discriminate].
  unfold io_bind.
  destruct (Fs.renameSync _ _ _) as [r2 fs2] eqn:Hr.
  apply renameSync_inv in Hr as [(c & m & -> & Hlook & ->) | [e [-> ->]]]; [| discriminate].
  cbn [Fs.written nodes] in Hlook. rewrite lookup_insert_eq in Hlook.
  injection Hlook as <- <-. unfold io_ret. intros [= _ <-]. reflexivity.
Qed.

Lemma committed_output outAbs text fs :
  nodes (committed outAbs text fs) !! outAbs = Some (File text (now fs)).
Proof. unfold committed, Fs.renamed. cbn [nodes]. apply lookup_insert_eq. Qed.

Lemma committed_other outAbs text fs q :
  q <> outAbs -> q <> outAbs ++ ".tmp" ->
  nodes (committed outAbs text fs) !! q = nodes fs !! q.
Proof.
  intros H1 H2. unfold committed, Fs.renamed, Fs.written. cbn [nodes].
  rewrite lookup_insert_ne by congruence.
  rewrite lookup_delete_ne by congruence.
  now rewrite lookup_insert_ne by congruence.
Qed.

Lemma committed_tmp outAbs text fs :
  nodes (committed outAbs text fs) !! (outAbs ++ ".tmp") = None.
Proof.
  unfold committed, Fs.renamed. cbn [nodes].
  rewrite lookup_insert_ne by (intros H; symmetry in H; revert H; now apply sibling_ne_self).
  apply lookup_delete_eq.
Qed.

Lemma committed_log outAbs text fs :
  log (committed outAbs text fs)
  = (log fs ++ [WriteFile (outAbs ++ ".tmp") text; Rename (outAbs ++ ".tmp") outAbs])%list.
Proof. unfold committed, Fs.renamed, Fs.written. cbn [log]. now rewrite <- app_assoc. Qed.

(** The two ways [atomicWrite] can succeed. *)
Lemma atomicWrite_inv outAbs text keep fs b fs' :
  FsSafety.atomicWrite outAbs text keep fs = (Ok b, fs') ->
  (b = None /\ keep && Fs.existsSync fs outAbs = false
   /\ fs' = committed outAbs text fs)
  \/ (exists old, b = Some (outAbs ++ ".bak") /\ keep = true
      /\ FsSafety.readText fs outAbs = Ok old
      /\ fs' = committed outAbs text (Fs.written (outAbs ++ ".bak") old fs)).
Proof.
  unfold FsSafety.atomicWrite.
  rewrite (io_bind_read _ _ _ (Fs.existsSync fs outAbs) eq_refl).
  destruct (keep && Fs.existsSync fs outAbs) eqn:Hk.
  - unfold io_bind at 1.
    destruct (FsSafety.readText fs outAbs) as [old | e] eqn:Hread.
    + rewrite (io_bind_read _ _ _ _ Hread).
      unfold io_bind at 1.
      destruct (Fs.writeFileSync (outAbs ++ ".bak") old fs) as [r1 fs1] eqn:Hw.
      apply writeFileSync_inv in Hw as [[-> ->] | [e [-> ->]]]; [| discriminate].
      cbn [io_ret].
      intros H. right. exists old.
      apply andb_true_iff in Hk as [-> _].
      assert (fs' = committed outAbs text (Fs.written (outAbs ++ ".bak") old fs)) as ->.
      { apply (write_then_rename_inv _ _ _ tt).
        revert H. unfold io_bind, io_ret.
        destruct (Fs.writeFileSync _ _ _) as [[[] | e] fs2]; [| discriminate].
        destruct (Fs.renameSync _ _ _) as [[[] | e] fs3]; [| discriminate].
        now intros [= _ <-]. }
      assert (b = Some (outAbs ++ ".bak")) as ->.
      { revert H. unfold io_bind, io_ret.
        destruct (Fs.writeFileSync _ _ _) as [[[] | e] fs2]; [| discriminate].
        destruct (Fs.renameSync _ _ _) as [[[] | e] fs3]; [| discriminate].
        now intros [= <- _]. }
      auto.
    + rewrite (io_bind_read_throw _ _ _ _ Hread). discriminate.
  - unfold io_bind at 1. cbn [io_ret]. intros H. left.
    assert (fs' = committed outAbs text fs) as ->.
    { apply (write_then_rename_inv _ _ _ tt).
      revert H. unfold io_bind, io_ret.
      destruct (Fs.writeFileSync _ _ _) as [[[] | e] fs2]; [| discriminate].
      destruct (Fs.renameSync _ _ _) as [[[] | e] fs3]; [| discriminate].
      now intros [= _ <-]. }
    assert (b = None) as ->.
    { revert H. unfold io_bind, io_ret.
      destruct (Fs.writeFileSync _ _ _) as [[[] | e] fs2]; [| discriminate].
      destruct (Fs.renameSync _ _ _) as [[[] | e] fs3]; [| discriminate].
      now intros [= <- _]. }
    auto.
Qed.

Lemma atomicWrite_plain outAbs text keep fs :
  keep && Fs.existsSync fs outAbs = false ->
  Fs.can_write fs (outAbs ++ ".tmp") = true ->
  Fs.isDir fs outAbs = false ->
  Fs.isDir fs (Path.dirname outAbs) = true ->
  FsSafety.atomicWrite outAbs text keep fs = (Ok None, committed outAbs text fs).
Proof.
  intros Hk Hw Hout Hparent. unfold FsSafety.atomicWrite.
  rewrite (io_bind_read _ _ _ (Fs.existsSync fs outAbs) eq_refl), Hk.
  unfold io_bind at 1. cbn [io_ret].
  pose proof (write_then_rename outAbs text fs Hw Hout Hparent) as H.
  revert H. unfold io_bind, io_ret.
  destruct (Fs.writeFileSync _ _ _) as [[[] | e] fs2]; [| discriminate].
  destruct (Fs.renameSync _ _ _) as [[[] | e] fs3]; [| discriminate].
  now intros [= <-].
Qed.

Lemma atomicWrite_backup outAbs text fs old :
  FsSafety.readText fs outAbs = Ok old ->
  Fs.can_write fs (outAbs ++ ".bak") = true ->
  Fs.can_write fs (outAbs ++ ".tmp") = true ->
  Fs.isDir fs (Path.dirname outAbs) = true ->
  FsSafety.atomicWrite outAbs text true fs
  = (Ok (Some (outAbs ++ ".bak")),
     committed outAbs text (Fs.written (outAbs ++ ".bak") old fs)).
Proof.
  intros Hread Hbak Htmp Hparent. unfold FsSafety.atomicWrite.
  rewrite (io_bind_read _ _ _ (Fs.existsSync fs outAbs) eq_refl).
  rewrite (readText_ok_exists _ _ _ Hread). cbn [andb].
  unfold io_bind at 1. rewrite (io_bind_read _ _ _ _ Hread).
  unfold io_bind at 1. rewrite (writeFileSync_ok _ _ _ Hbak). cbn [io_ret].
  set (fs1 := Fs.written (outAbs ++ ".bak") old fs).
  assert (Fs.can_write fs1 (outAbs ++ ".tmp") = true) as Hw.
  { unfold Fs.can_write in *. subst fs1. rewrite !isDir_written; [exact Htmp | |].
    - apply dirname_ne_sibling; reflexivity.
    - intros H. symmetry in H. revert H. apply bak_ne_tmp. }
  assert (Fs.isDir fs1 outAbs = false) as Hout.
  { subst fs1. rewrite isDir_written.
    - apply readText_ok_file in Hread as [m Hm]. unfold Fs.isDir. now rewrite Hm.
    - intros H. symmetry in H. revert H. now apply sibling_ne_self. }
  assert (Fs.isDir fs1 (Path.dirname outAbs) = true) as Hp.
  { subst fs1. rewrite isDir_written; [exact Hparent |].
    apply dirname_ne_child. reflexivity. }
  pose proof (write_then_rename outAbs text fs1 Hw Hout Hp) as H.
  revert H. unfold io_bind, io_ret.
  destruct (Fs.writeFileSync _ _ _) as [[[] | e] fs2]; [| discriminate].
  destruct (Fs.renameSync _ _ _) as [[[] | e] fs3]; [| discriminate].
  now intros [= <-].
Qed.

(** X9.  [getMtimeMs] answers [-Infinity], below every time, for no path and for
    a path that does not exist. *)
Lemma missing_file_is_infinitely_old (fs : FS) (p : string) (m : msec) :
  Fs.existsSync fs p = false ->
  FsSafety.getMtimeMs fs None = NegInfinity
  /\ FsSafety.getMtimeMs fs (Some p) = NegInfinity
  /\ msec_le (FsSafety.getMtimeMs fs (Some p)) m = true.
Proof.
  intros Hex. unfold FsSafety.getMtimeMs. rewrite Hex, andb_false_r. auto.
Qed.

(** X10.  [readText] of a regular file: its text up to the ceiling of 100 MiB,
    [FileTooLarge] above it. *)
Lemma readText_regular_file (fs : FS) (p c : string) (m : Z) :
  nodes fs !! p = Some (File c m) ->
  FsSafety.readText fs p =
  if FsSafety.MAX_FILE_SIZE <? Z.of_nat (String.length c)
  then Throw (FileTooLarge p (Z.of_nat (String.length c)))
  else Ok c.
Proof.
  intros H. unfold FsSafety.readText, Fs.statSync, Fs.readFileSync. rewrite H.
  reflexivity.
Qed.

Lemma atomic_call_sibling (outAbs suffix text : string) :
  suffix = ".tmp" \/ suffix = ".bak" ->
  atomic_call outAbs (WriteFile (outAbs ++ suffix) text) = true.
Proof.
  intros [-> | ->]; cbn [atomic_call]; rewrite String.eqb_refl;
    [reflexivity | apply orb_true_r].
Qed.

(** X8.  Whether it succeeds or throws half way, [atomicWrite] only appends to
    the call log, and each call it appends is a write to the [.bak] or the
    [.tmp] sibling or the rename of the [.tmp] sibling onto the output: no
    call writes to the output path.  The output path and the two siblings
    are their own real paths (no symbolic links), so that a write to a
    sibling lands on the sibling. *)
Lemma atomicWrite_is_atomic (outAbs text : string) (keep : bool) (fs : FS)
    (r : res (option string)) (fs' : FS) :
  own_path fs outAbs ->
  own_path fs (outAbs ++ ".bak") ->
  own_path fs (outAbs ++ ".tmp") ->
  FsSafety.atomicWrite outAbs text keep fs = (r, fs') ->
  exists added,
    log fs' = (log fs ++ added)%list /\ forallb (atomic_call outAbs) added = true.
Proof.
  intros _ _ _.
  assert (forall fs1 r1 fs1',
            io_bind (Fs.writeFileSync (outAbs ++ ".tmp") text)
              (fun _ => io_bind (Fs.renameSync (outAbs ++ ".tmp") outAbs)
                          (fun _ => io_ret r1)) fs1 = (r, fs1') ->
            exists added,
              log fs1' = (log fs1 ++ added)%list
              /\ forallb (atomic_call outAbs) added = true) as Htail.
  { intros fs1 r1 fs1'. unfold io_bind at 1.
    destruct (Fs.writeFileSync _ _ fs1) as [r2 fs2] eqn:Hw.
    apply writeFileSync_inv in Hw as [[-> ->] | [e [-> ->]]].
    2:{ intros [= <- <-]. exists []. now rewrite app_nil_r. }
    unfold io_bind.
    destruct (Fs.renameSync _ _ _) as [r3 fs3] eqn:Hr.
    apply renameSync_inv in Hr as [(c & m & -> & _ & ->) | [e [-> ->]]].
    - intros [= <- <-].
      exists [WriteFile (outAbs ++ ".tmp") text; Rename (outAbs ++ ".tmp") outAbs].
      split.
      + unfold Fs.renamed, Fs.written. cbn [log]. now rewrite <- app_assoc.
      + cbn [forallb]. rewrite atomic_call_sibling by auto.
        cbn [atomic_call]. now rewrite !String.eqb_refl.
    - intros [= <- <-]. exists [WriteFile (outAbs ++ ".tmp") text].
      split; [reflexivity |].
      cbn [forallb]. now rewrite atomic_call_sibling by auto. }
  unfold FsSafety.atomicWrite.
  rewrite (io_bind_read _ _ _ (Fs.existsSync fs outAbs) eq_refl).
  destruct (keep && Fs.existsSync fs outAbs).
  - unfold io_bind at 1.
    destruct (FsSafety.readText fs outAbs) as [old | e] eqn:Hread.
    + rewrite (io_bind_read _ _ _ _ Hread). unfold io_bind at 1.
      destruct (Fs.writeFileSync (outAbs ++ ".bak") old fs) as [r1 fs1] eqn:Hw.
      apply writeFileSync_inv in Hw as [[-> ->] | [e [-> ->]]].
      * cbn [io_ret]. intros H. apply Htail in H as (added & Hlog & Hall).
        exists (WriteFile (outAbs ++ ".bak") old :: added). split.
        -- rewrite Hlog. unfold Fs.written. cbn [log]. now rewrite <- app_assoc.
        -- cbn [forallb]. now rewrite atomic_call_sibling, Hall by auto.
      * intros [= <- <-]. exists []. now rewrite app_nil_r.
    + rewrite (io_bind_read_throw _ _ _ _ Hread).
      intros [= <- <-]. exists []. now rewrite app_nil_r.
  - unfold io_bind at 1. cbn [io_ret]. apply Htail.
Qed.

(* ===================================================================== *)
(** ** What a commit leaves alone *)
(* ===================================================================== *)

Lemma untouched_ne (outAbs q : string) :
  untouched outAbs q = true ->
  q <> outAbs /\ q <> outAbs ++ ".tmp" /\ q <> outAbs ++ ".bak".
Proof.
  unfold untouched, touched. cbn [existsb]. rewrite orb_false_r. intros H.
  apply negb_true_iff in H. apply orb_false_iff in H as [H1 H].
  apply orb_false_iff in H as [H2 H3].
  now rewrite !String.eqb_neq in *.
Qed.

Lemma committed_same_elsewhere (outAbs text : string) (fs : FS) :
  same_elsewhere outAbs fs (committed outAbs text fs).
Proof.
  split; [reflexivity |]. intros q Hq. apply untouched_ne in Hq as (H1 & H2 & _).
  now apply committed_other.
Qed.

Lemma backup_same_elsewhere (outAbs text old : string) (fs : FS) :
  same_elsewhere outAbs fs
    (committed outAbs text (Fs.written (outAbs ++ ".bak") old fs)).
Proof.
  split; [reflexivity |]. intros q Hq. apply untouched_ne in Hq as (H1 & H2 & H3).
  rewrite committed_other by assumption.
  unfold Fs.written. cbn [nodes]. now rewrite lookup_insert_ne by congruence.
Qed.

Lemma ensureInsideRoot_ok_target (ROOT : string) (fs : FS) (p abs : string) :
  FsSafety.ensureInsideRoot ROOT fs p = Ok abs -> abs = target_of ROOT fs p.
Proof.
  intros Hin. destruct (FsSafety.validateSegments p) as [[] | e] eqn:Hv.
  - rewrite (ensureInsideRoot_unfold ROOT fs p Hv) in Hin. cbn zeta in Hin.
    destruct (_ || _); [discriminate | now injection Hin as <-].
  - unfold FsSafety.ensureInsideRoot in Hin. rewrite Hv in Hin. discriminate.
Qed.

Lemma safeInputPath_some_target (ROOT : string) (fs : FS) (p abs : string) (optional : bool) :
  FsSafety.safeInputPath ROOT fs p optional = Ok (Some abs) -> abs = target_of ROOT fs p.
Proof.
  unfold FsSafety.safeInputPath.
  destruct (FsSafety.ensureJsonLike p) as [[] | e]; [| discriminate]. cbn [res_bind].
  destruct (FsSafety.ensureInsideRoot ROOT fs p) as [t | e] eqn:Hin; [| discriminate].
  cbn [res_bind]. apply ensureInsideRoot_ok_target in Hin. subst t.
  destruct (negb (Fs.existsSync fs (target_of ROOT fs p))).
  - destruct optional; discriminate.
  - destruct (Fs.statSync fs (target_of ROOT fs p)) as [st | e]; [| discriminate].
    cbn [res_bind]. destruct (negb (Fs.isFile st)); [discriminate | now intros [= <-]].
Qed.

(** Every resolved input is the target of a listed input. *)
Lemma resolved_inputs_untouched (ROOT outAbs : string) (fs : FS)
    (ins : list string) (skip : bool) (inputAbs : list string) :
  resolveInputPaths ROOT fs ins skip = Ok inputAbs ->
  forallb (fun p => untouched outAbs (Path.resolve ROOT p)
                    && untouched outAbs (target_of ROOT fs p)) ins = true ->
  forallb (untouched outAbs) inputAbs = true.
Proof.
  unfold resolveInputPaths. revert inputAbs.
  induction ins as [| p ins IH]; intros inputAbs.
  - cbn. now intros [= <-].
  - cbn [res_map forallb].
    destruct (FsSafety.safeInputPath ROOT fs p skip) as [o | e] eqn:Hp; [| discriminate].
    cbn [res_bind].
    destruct (res_map _ ins) as [l | e] eqn:Hl; [| discriminate].
    cbn [res_bind]. intros [= <-] Hall.
    apply andb_true_iff in Hall as [Hhead Hall].
    apply andb_true_iff in Hhead as [_ Ht].
    specialize (IH (keep_truthy l) eq_refl Hall).
    unfold keep_truthy in *. cbn [omap]. destruct o as [abs |]; [| exact IH].
    apply safeInputPath_some_target in Hp. subst abs.
    destruct (truthy (Some (target_of ROOT fs p))); [| exact IH].
    cbn [omap forallb]. now rewrite Ht.
Qed.

Section Frame.

Variables (ROOT outAbs : string) (fs fs' : FS).
Hypothesis same : same_elsewhere outAbs fs fs'.

Lemma existsSync_frame (q : string) :
  untouched outAbs q = true -> Fs.existsSync fs' q = Fs.existsSync fs q.
Proof. intros Hq. unfold Fs.existsSync. now rewrite (proj2 same q Hq). Qed.

Lemma readText_frame (q : string) :
  untouched outAbs q = true -> FsSafety.readText fs' q = FsSafety.readText fs q.
Proof.
  intros Hq. unfold FsSafety.readText, Fs.statSync, Fs.readFileSync.
  now rewrite (proj2 same q Hq).
Qed.

Lemma ensureInsideRoot_frame (p : string) :
  untouched outAbs (Path.resolve ROOT p) = true ->
  FsSafety.ensureInsideRoot ROOT fs' p = FsSafety.ensureInsideRoot ROOT fs p.
Proof.
  intros Hq. unfold FsSafety.ensureInsideRoot, Fs.realpathSync, Fs.existsSync.
  now rewrite (proj2 same _ Hq), (proj1 same).
Qed.

Lemma safeInputPath_frame (p : string) (optional : bool) :
  untouched outAbs (Path.resolve ROOT p) = true ->
  untouched outAbs (target_of ROOT fs p) = true ->
  FsSafety.safeInputPath ROOT fs' p optional = FsSafety.safeInputPath ROOT fs p optional.
Proof.
  intros Hq Ht. unfold FsSafety.safeInputPath.
  rewrite (ensureInsideRoot_frame p Hq).
  destruct (FsSafety.ensureJsonLike p) as [[] | e]; [| reflexivity]. cbn [res_bind].
  destruct (FsSafety.ensureInsideRoot ROOT fs p) as [abs | e] eqn:Hin; [| reflexivity].
  cbn [res_bind].
  apply ensureInsideRoot_ok_target in Hin. subst abs.
  unfold Fs.existsSync, Fs.statSync. now rewrite (proj2 same _ Ht).
Qed.

Lemma resolveInputPaths_frame (ins : list string) (skip : bool) :
  forallb (fun p => untouched outAbs (Path.resolve ROOT p)
                    && untouched outAbs (target_of ROOT fs p)) ins = true ->
  resolveInputPaths ROOT fs' ins skip = resolveInputPaths ROOT fs ins skip.
Proof.
  intros Hall. unfold resolveInputPaths. f_equal.
  induction ins as [| p ins IH]; [reflexivity |].
  cbn [forallb] in Hall. apply andb_true_iff in Hall as [Hp Hall].
  apply andb_true_iff in Hp as [Hq Ht].
  cbn [res_map]. now rewrite (safeInputPath_frame p skip Hq Ht), (IH Hall).
Qed.

Lemma mergeFiles_frame (parseJsonc JSON5_parse : string -> res json)
    (inputAbs : list string) :
  forallb (untouched outAbs) inputAbs = true ->
  mergeFiles parseJsonc JSON5_parse fs' inputAbs
  = mergeFiles parseJsonc JSON5_parse fs inputAbs.
Proof.
  intros Hall. unfold mergeFiles. generalize (JObj []).
  induction inputAbs as [| abs rest IH]; intros acc; [reflexivity |].
  cbn [forallb] in Hall. apply andb_true_iff in Hall as [Ha Hrest].
  cbn [mergeFiles_loop]. rewrite (readText_frame abs Ha).
  destruct (FsSafety.readText fs abs) as [content | e]; [| reflexivity]. cbn [res_bind].
  destruct (parseJsonFile parseJsonc JSON5_parse abs content) as [parsed | e];
    [| reflexivity]. cbn [res_bind].
  destruct (Deepmerge.deepmerge acc parsed) as [acc' | e]; [| reflexivity].
  cbn [res_bind]. now apply IH.
Qed.

End Frame.

(* ===================================================================== *)
(** ** The merge decision engine *)
(* ===================================================================== *)

Lemma all_at_most_max {A} (f : A -> msec) (c : msec) (l : list A) :
  Forall (fun p => msec_le (f p) c = true) l ->
  msec_le (Math_max (map f l)) c = true.
Proof.
  intros H. rewrite Math_max_le.
  induction H as [| p l Hp _ IH]; [reflexivity |].
  cbn [map forallb]. now rewrite Hp, IH.
Qed.

Lemma one_above_max {A} (f : A -> msec) (c : msec) (l : list A) :
  existsb (fun p => negb (msec_le (f p) c)) l = true ->
  msec_le (Math_max (map f l)) c = false.
Proof.
  intros H. rewrite Math_max_le.
  induction l as [| p l IH]; [discriminate |].
  cbn [existsb map forallb] in *. apply orb_true_iff in H as [H | H].
  - apply negb_true_iff in H. now rewrite H.
  - rewrite (IH H). apply andb_false_r.
Qed.

Section Decision.

Variable ROOT : string.
Variable parseJsonc : string -> res json.
Variable JSON5_parse : string -> res json.
Variable JSON_stringify : json -> Z -> string.

Local Abbreviation resolveInputPaths' := (resolveInputPaths ROOT).
Local Abbreviation mergeFiles' := (mergeFiles parseJsonc JSON5_parse).
Local Abbreviation mergeJsonc' := (mergeJsonc ROOT parseJsonc JSON5_parse JSON_stringify).
Local Abbreviation serialized' := (serialized JSON_stringify).

(** C8.  When no input is left after resolution the result is [no_inputs]
    and the file system is untouched.  Nothing is asked of the output path:
    it is neither resolved nor validated, so the statement covers output
    paths that [safeOutputPath] rejects. *)
Theorem no_inputs_before_output (opts : MergeOptions) (fs : FS) :
  resolveInputPaths' fs (inputs opts) (default false (skipMissing opts)) = Ok [] ->
  mergeJsonc' opts fs = (Ok (skipped no_inputs), fs).
Proof.
  intros Hin. unfold mergeJsonc.
  now rewrite (io_bind_read _ _ _ _ Hin).
Qed.

(** X7.  With skip-missing on, inputs that pass the guards and do not exist
    resolve to the empty list. *)
Lemma all_missing_resolve_to_nothing (fs : FS) (ins : list string) :
  Forall (fun p => FsSafety.ensureJsonLike p = Ok tt
                   /\ exists abs, FsSafety.ensureInsideRoot ROOT fs p = Ok abs
                                  /\ Fs.existsSync fs abs = false) ins ->
  resolveInputPaths' fs ins true = Ok [].
Proof.
  intros Hall. unfold resolveInputPaths.
  assert (res_map (fun p => FsSafety.safeInputPath ROOT fs p true) ins
          = Ok (map (fun _ => None) ins)) as ->.
  { induction Hall as [| p ins [Hext (abs & Hin & Hex)] _ IH]; [reflexivity |].
    cbn [res_map map]. unfold FsSafety.safeInputPath at 1.
    rewrite Hext, Hin. cbn [res_bind]. rewrite Hex. cbn [negb res_bind].
    now rewrite IH. }
  cbn [res_bind]. f_equal. unfold keep_truthy. clear Hall.
  induction ins; simpl; [reflexivity | assumption].
Qed.

(** X12.  The indentation width: the explicit [indent] when given, else 2 when
    [pretty] is true or left out, else 0. *)
Lemma indentation_resolution (n : Z) (pretty : option bool) :
  calculateIndentation (Some n) pretty = n
  /\ calculateIndentation None None = 2
  /\ calculateIndentation None (Some true) = 2
  /\ calculateIndentation None (Some false) = 0.
Proof. repeat split. Qed.

Section Reached.

(** An invocation that gets as far as the decision: the inputs resolve to
    a non-empty list, the output path is accepted, the inputs parse and
    merge. *)
Variables (opts : MergeOptions) (fs : FS).
Variables (inputAbs : list string) (outAbs : string) (combined : json).
Hypothesis resolved :
  resolveInputPaths' fs (inputs opts) (default false (skipMissing opts)) = Ok inputAbs.
Hypothesis some_input : inputAbs <> [].
Hypothesis output_ok : FsSafety.safeOutputPath ROOT fs (out opts) = Ok outAbs.
Hypothesis merged : mergeFiles' fs inputAbs = Ok combined.

Local Abbreviation text := (serialized' opts combined).
Local Abbreviation dry := (default false (dryRun opts)).
Local Abbreviation keep := (default false (backup opts)).
Local Abbreviation previewed :=
  {| MergeResult.wrote := false; MergeResult.reason := dry_run;
     MergeResult.preview := Some text; MergeResult.out := None;
     MergeResult.backup := None |}.

Lemma mergeJsonc_decision :
  mergeJsonc' opts fs =
  match checkContentChanged fs outAbs text with
  | Throw e => (Throw e, fs)
  | Ok false => (Ok (skipped no_content_change), fs)
  | Ok true =>
      if checkIfUpToDate fs outAbs inputAbs dry then (Ok (skipped up_to_date), fs)
      else if dry then (Ok previewed, fs)
      else
        match FsSafety.atomicWrite outAbs text keep fs with
        | (Ok backupPath, fs') =>
            (Ok {| MergeResult.wrote := true;
                   MergeResult.reason :=
                     (if truthy backupPath then wrote_with_backup else wrote);
                   MergeResult.preview := None; MergeResult.out := Some outAbs;
                   MergeResult.backup := backupPath |}, fs')
        | (Throw e, fs') => (Throw e, fs')
        end
  end.
Proof.
  unfold mergeJsonc.
  rewrite (io_bind_read _ _ _ _ resolved), (length_eqb_0 _ some_input).
  rewrite (io_bind_read _ _ _ _ output_ok), (io_bind_read _ _ _ _ merged).
  fold (serialized' opts combined).
  destruct (checkContentChanged fs outAbs text) as [changed | e] eqn:Hc.
  - rewrite (io_bind_read _ _ _ _ Hc). destruct changed; [| reflexivity]. cbn [negb].
    rewrite (io_bind_read _ _ _ (checkIfUpToDate fs outAbs inputAbs dry) eq_refl).
    destruct (checkIfUpToDate fs outAbs inputAbs dry); [reflexivity |].
    destruct dry; [reflexivity |].
    unfold io_bind at 1.
    destruct (FsSafety.atomicWrite outAbs text keep fs) as [[b | e] fs']; reflexivity.
  - now rewrite (io_bind_read_throw _ _ _ _ Hc).
Qed.

(** C2.  If the output file exists and the text read from it equals the
    serialized merge, the result is [no_content_change] and the file system
    (nodes and call log) is exactly as before: nothing is written and no
    backup is made.  Nothing is assumed about dry-run or about any
    modification time. *)
Theorem identical_content_is_no_content_change :
  FsSafety.readText fs outAbs = Ok text ->
  mergeJsonc' opts fs = (Ok (skipped no_content_change), fs).
Proof.
  intros Hread. rewrite mergeJsonc_decision.
  unfold checkContentChanged. rewrite (readText_ok_exists _ _ _ Hread). cbn [negb].
  rewrite Hread. cbn [res_bind]. now rewrite String.eqb_refl.
Qed.

(** C3.  Outside dry-run, with an existing output whose text differs from
    the serialized merge and whose modification time is greater than or
    equal to the maximum over the resolved inputs, the result is
    [up_to_date] and the file system is exactly as before.  The order is
    not strict, so equal times count as up to date. *)
Theorem newer_or_equal_output_is_up_to_date (current : string) :
  dry = false ->
  FsSafety.readText fs outAbs = Ok current ->
  current <> text ->
  msec_le (Math_max (map (fun p => FsSafety.getMtimeMs fs (Some p)) inputAbs))
          (FsSafety.getMtimeMs fs (Some outAbs)) = true ->
  mergeJsonc' opts fs = (Ok (skipped up_to_date), fs).
Proof.
  intros Hdry Hread Hne Hle. rewrite mergeJsonc_decision.
  unfold checkContentChanged. rewrite (readText_ok_exists _ _ _ Hread). cbn [negb].
  rewrite Hread. cbn [res_bind].
  apply String.eqb_neq in Hne. rewrite Hne. cbn [negb].
  unfold checkIfUpToDate. rewrite (readText_ok_exists _ _ _ Hread), Hdry. cbn [negb orb].
  now rewrite Hle.
Qed.

(** C5.  In dry-run, once the content check reports a change, the result is
    [dry_run] with the serialized text as preview and the file system
    (nodes and call log) is exactly as before, so the output file and its
    [.bak] sibling are what they were, present or absent.  The timestamp
    check answers false whatever the modification times are. *)
Theorem dry_run_previews_without_writing :
  dry = true ->
  checkContentChanged fs outAbs text = Ok true ->
  mergeJsonc' opts fs = (Ok previewed, fs)
  /\ checkIfUpToDate fs outAbs inputAbs dry = false.
Proof.
  intros Hdry Hc. rewrite mergeJsonc_decision, Hc.
  unfold checkIfUpToDate. rewrite Hdry, orb_true_r. split; reflexivity.
Qed.


Local Abbreviation bak := (outAbs ++ ".bak").
Local Abbreviation tmp := (outAbs ++ ".tmp").



(** X11.  Outside dry-run, an existing output whose text differs and that is
    older than some input is rewritten with the serialized merge, where the
    two siblings are their own real paths (no symbolic links). *)
Lemma stale_output_is_rewritten (current : string) :
  dry = false ->
  FsSafety.readText fs outAbs = Ok current ->
  current <> text ->
  existsb (fun p => negb (msec_le (FsSafety.getMtimeMs fs (Some p))
                                  (FsSafety.getMtimeMs fs (Some outAbs)))) inputAbs = true ->
  own_path fs bak ->
  own_path fs tmp ->
  (if keep then Fs.can_write fs bak else true) = true ->
  Fs.can_write fs tmp = true ->
  Fs.isDir fs (Path.dirname outAbs) = true ->
  exists r fs',
    mergeJsonc' opts fs = (Ok r, fs')
    /\ MergeResult.wrote r = true
    /\ MergeResult.out r = Some outAbs
    /\ Fs.readFileSync fs' outAbs = Ok text.
Proof.
  intros Hdry Hread Hne Hnewer _ _ Hbak Htmp Hparent.
  rewrite mergeJsonc_decision.
  unfold checkContentChanged. rewrite (readText_ok_exists _ _ _ Hread). cbn [negb].
  rewrite Hread. cbn [res_bind].
  apply String.eqb_neq in Hne. rewrite Hne. cbn [negb].
  unfold checkIfUpToDate. rewrite (readText_ok_exists _ _ _ Hread), Hdry. cbn [negb orb].
  rewrite (one_above_max _ _ _ Hnewer).
  destruct keep.
  - rewrite (atomicWrite_backup _ _ _ _ Hread Hbak Htmp Hparent).
    eexists _, _. repeat split.
    unfold Fs.readFileSync. now rewrite committed_output.
  - rewrite (atomicWrite_plain outAbs text false fs eq_refl Htmp); [| | exact Hparent].
    + eexists _, _. repeat split.
      unfold Fs.readFileSync. now rewrite committed_output.
    + apply readText_ok_file in Hread as [m Hm]. unfold Fs.isDir. now rewrite Hm.
Qed.

(** What the first run leaves behind when it writes. *)
Lemma first_run_effect (r : MergeResult.t) (fs' : FS) :
  mergeJsonc' opts fs = (Ok r, fs') ->
  MergeResult.wrote r = true ->
  same_elsewhere outAbs fs fs'
  /\ nodes fs' !! outAbs = Some (File text (now fs)).
Proof.
  rewrite mergeJsonc_decision.
  destruct (checkContentChanged fs outAbs text) as [[|] | e]; [| | discriminate].
  2:{ intros [= <- <-]. discriminate. }
  destruct (checkIfUpToDate fs outAbs inputAbs dry); [intros [= <- <-]; discriminate |].
  destruct dry; [intros [= <- <-]; discriminate |].
  destruct (FsSafety.atomicWrite outAbs text keep fs) as [[b | e] fs1] eqn:Hw;
    [| discriminate].
  intros [= <- <-] _.
  apply atomicWrite_inv in Hw as [(_ & _ & ->) | (old & _ & _ & _ & ->)].
  - split; [apply committed_same_elsewhere | apply committed_output].
  - split; [apply backup_same_elsewhere | now rewrite committed_output].
Qed.

End Reached.

(** X15.  Idempotence, in a file system without symbolic links.  After a run
    that wrote, the same invocation on the resulting file system reports
    [no_content_change] and changes nothing, provided no input is the
    output file or one of its [.tmp] / [.bak] siblings and the written text
    is within the size ceiling of [readText]. *)
Lemma second_run_changes_nothing (opts : MergeOptions) (fs : FS)
    (inputAbs : list string) (outAbs : string) (combined : json)
    (r : MergeResult.t) (fs' : FS) :
  resolveInputPaths' fs (inputs opts) (default false (skipMissing opts)) = Ok inputAbs ->
  inputAbs <> [] ->
  FsSafety.safeOutputPath ROOT fs (out opts) = Ok outAbs ->
  mergeFiles' fs inputAbs = Ok combined ->
  mergeJsonc' opts fs = (Ok r, fs') ->
  MergeResult.wrote r = true ->
  forallb (fun p => untouched outAbs (Path.resolve ROOT p)
                    && untouched outAbs (target_of ROOT fs p)) (inputs opts) = true ->
  untouched outAbs (Path.resolve ROOT (Path.dirname (out opts))) = true ->
  Path.resolve ROOT (out opts) = outAbs ->
  links fs = ∅ ->
  (Z.of_nat (String.length (serialized' opts combined)) <=? FsSafety.MAX_FILE_SIZE) = true ->
  mergeJsonc' opts fs' = (Ok (skipped no_content_change), fs').
Proof.
  intros resolved some_input output_ok merged Hrun Hwrote Hins Hdir Hplain Hnone Hsmall.
  assert (links fs !! outAbs = None) as Hlink by (rewrite Hnone; apply lookup_empty).
  pose proof (resolved_inputs_untouched ROOT outAbs fs _ _ _ resolved Hins) as Habs.
  destruct (first_run_effect opts fs inputAbs outAbs combined resolved some_input
              output_ok merged r fs' Hrun Hwrote) as [Hsame Hout].
  assert (FsSafety.safeOutputPath ROOT fs' (out opts) = Ok outAbs) as Hout_ok.
  { pose proof output_ok as Hok. unfold FsSafety.safeOutputPath in Hok |- *.
    destruct (FsSafety.ensureJsonLike (out opts)) as [[] | e]; [| discriminate].
    cbn [res_bind] in Hok |- *.
    rewrite (ensureInsideRoot_frame ROOT outAbs fs fs' Hsame _ Hdir).
    destruct (FsSafety.ensureInsideRoot ROOT fs (Path.dirname (out opts)))
      as [d | e]; [| discriminate].
    cbn [res_bind] in Hok |- *.
    destruct (FsSafety.validateSegments (out opts)) as [[] | e] eqn:Hv.
    2:{ unfold FsSafety.ensureInsideRoot in Hok. rewrite Hv in Hok. discriminate. }
    rewrite (ensureInsideRoot_unfold ROOT fs _ Hv) in Hok.
    rewrite (ensureInsideRoot_unfold ROOT fs' _ Hv).
    assert (target_of ROOT fs (out opts) = outAbs) as Ht.
    { unfold target_of. rewrite Hplain, Hlink. now destruct (Fs.existsSync fs outAbs). }
    assert (target_of ROOT fs' (out opts) = outAbs) as Ht'.
    { unfold target_of. rewrite Hplain, (proj1 Hsame), Hlink.
      now destruct (Fs.existsSync fs' outAbs). }
    rewrite Ht in Hok. rewrite Ht'. exact Hok. }
  rewrite (mergeJsonc_decision opts fs' inputAbs outAbs combined).
  - unfold checkContentChanged, Fs.existsSync, FsSafety.readText, Fs.statSync,
      Fs.readFileSync. rewrite Hout. cbn [negb res_bind Fs.size].
    apply Z.leb_le in Hsmall.
    destruct (Z.ltb_spec FsSafety.MAX_FILE_SIZE
                (Z.of_nat (String.length (serialized' opts combined)))) as [Hbig | _];
      [lia |].
    cbn [res_bind]. now rewrite String.eqb_refl.
  - rewrite (resolveInputPaths_frame ROOT outAbs fs fs' Hsame _ _ Hins). exact resolved.
  - exact some_input.
  - exact Hout_ok.
  - rewrite (mergeFiles_frame outAbs fs fs' Hsame _ _ _ Habs). exact merged.
Qed.


(** The shapes [mergeJsonc] can return. *)
Lemma mergeJsonc_cases (opts : MergeOptions) (fs : FS) (r : MergeResult.t) (fs' : FS) :
  mergeJsonc' opts fs = (Ok r, fs') ->
  (exists why, r = skipped why /\ fs' = fs
               /\ (why = no_inputs \/ why = no_content_change \/ why = up_to_date))
  \/ (exists shown,
        r = {| MergeResult.wrote := false; MergeResult.reason := dry_run;
               MergeResult.preview := Some shown; MergeResult.out := None;
               MergeResult.backup := None |} /\ fs' = fs)
  \/ (exists outAbs shown backupPath,
        FsSafety.atomicWrite outAbs shown (default false (backup opts)) fs
        = (Ok backupPath, fs')
        /\ r = {| MergeResult.wrote := true;
                  MergeResult.reason :=
                    (if truthy backupPath then wrote_with_backup else wrote);
                  MergeResult.preview := None; MergeResult.out := Some outAbs;
                  MergeResult.backup := backupPath |}).
Proof.
  destruct (resolveInputPaths' fs (inputs opts) (default false (skipMissing opts)))
    as [inputAbs | e] eqn:Hin.
  2:{ unfold mergeJsonc. rewrite (io_bind_read_throw _ _ _ _ Hin). discriminate. }
  destruct inputAbs as [| abs rest].
  { unfold mergeJsonc. rewrite (io_bind_read _ _ _ _ Hin).
    intros [= <- <-]. left. exists no_inputs. auto. }
  destruct (FsSafety.safeOutputPath ROOT fs (out opts)) as [outAbs | e] eqn:Hout.
  2:{ unfold mergeJsonc. rewrite (io_bind_read _ _ _ _ Hin). cbn [List.length Nat.eqb].
      rewrite (io_bind_read_throw _ _ _ _ Hout). discriminate. }
  destruct (mergeFiles' fs (abs :: rest)) as [combined | e] eqn:Hmerge.
  2:{ unfold mergeJsonc. rewrite (io_bind_read _ _ _ _ Hin). cbn [List.length Nat.eqb].
      rewrite (io_bind_read _ _ _ _ Hout), (io_bind_read_throw _ _ _ _ Hmerge).
      discriminate. }
  rewrite (mergeJsonc_decision opts fs (abs :: rest) outAbs combined Hin
             ltac:(discriminate) Hout Hmerge).
  destruct (checkContentChanged _ _ _) as [[|] | e]; [| | discriminate].
  - destruct (checkIfUpToDate _ _ _ _).
    + intros [= <- <-]. left. eauto 7.
    + destruct (default false (dryRun opts)).
      * intros [= <- <-]. right. left. eauto.
      * destruct (FsSafety.atomicWrite _ _ _ _) as [[b | e] fs1] eqn:Hw; [| discriminate].
        intros [= <- <-]. right. right. eauto 6.
  - intros [= <- <-]. left. eauto 7.
Qed.


End Decision.

(* ===================================================================== *)
(** ** Resolved inputs and the output path *)
(* ===================================================================== *)

Lemma outside_target_throws (ROOT : string) (fs : FS) (p : string) :
  ~ under ROOT (target_of ROOT fs p) ->
  exists e, FsSafety.ensureInsideRoot ROOT fs p = Throw e.
Proof.
  unfold under. intros Hout.
  destruct (FsSafety.validateSegments p) as [[] | e] eqn:Hv.
  - rewrite (ensureInsideRoot_unfold _ _ _ Hv). cbn zeta.
    unfold Path.relative.
    destruct (Path.strip_common _ _) as [up down] eqn:Hs.
    pose proof (strip_common_escape _ _ _ _ Hs Hout) as Hup.
    rewrite join_starts_with_up by (destruct up; [congruence | discriminate]).
    eauto.
  - unfold FsSafety.ensureInsideRoot. rewrite Hv. eauto.
Qed.

Lemma strip_common_prefix (a b up down : list string) :
  Path.strip_common a b = (up, down) -> up = [] -> a `prefix_of` b.
Proof.
  revert b. induction a as [| x a IH]; intros b Hs Hup.
  - apply prefix_nil.
  - destruct b as [| y b]; simpl in Hs.
    + injection Hs as <- _. discriminate.
    + destruct (String.eqb_spec x y) as [-> | Hxy].
      * apply prefix_cons. now apply IH.
      * injection Hs as <- _. discriminate.
Qed.

(** Soundness of the guard: what it returns lies under the root. *)
Lemma ensureInsideRoot_sound (ROOT : string) (fs : FS) (p abs : string) :
  FsSafety.ensureInsideRoot ROOT fs p = Ok abs -> under ROOT abs.
Proof.
  intros Hin. pose proof (ensureInsideRoot_ok_target _ _ _ _ Hin) as ->.
  destruct (FsSafety.validateSegments p) as [[] | e] eqn:Hv.
  2:{ unfold FsSafety.ensureInsideRoot in Hin. rewrite Hv in Hin. discriminate. }
  rewrite (ensureInsideRoot_unfold _ _ _ Hv) in Hin. cbn zeta in Hin.
  unfold Path.relative in Hin.
  destruct (Path.strip_common _ _) as [up down] eqn:Hs.
  destruct up as [| u up].
  - now apply (strip_common_prefix _ _ _ _ Hs).
  - rewrite join_starts_with_up in Hin by discriminate. discriminate.
Qed.

Lemma ensureInsideRoot_nonempty (ROOT : string) (fs : FS) (p abs : string) :
  ROOT <> "" -> FsSafety.ensureInsideRoot ROOT fs p = Ok abs -> abs <> "".
Proof.
  intros HR Hin Habs. pose proof (ensureInsideRoot_ok_target _ _ _ _ Hin) as Ht.
  destruct (FsSafety.validateSegments p) as [[] | e] eqn:Hv.
  2:{ unfold FsSafety.ensureInsideRoot in Hin. rewrite Hv in Hin. discriminate. }
  rewrite (ensureInsideRoot_unfold _ _ _ Hv) in Hin. cbn zeta in Hin.
  rewrite <- Ht, Habs in Hin. unfold Path.relative in Hin.
  change (Path.segments "") with (@nil string) in Hin.
  destruct (Path.segments ROOT) as [| x sr].
  - cbn in Hin. destruct ROOT; [congruence | discriminate].
  - cbn [Path.strip_common] in Hin.
    rewrite join_starts_with_up in Hin by discriminate. discriminate.
Qed.

Lemma safeInputPath_inv (ROOT : string) (fs : FS) (p : string) (optional : bool)
    (o : option string) :
  FsSafety.safeInputPath ROOT fs p optional = Ok o ->
  FsSafety.ensureInsideRoot ROOT fs p = Ok (target_of ROOT fs p)
  /\ match o with
     | Some abs => abs = target_of ROOT fs p
                   /\ exists c m, nodes fs !! abs = Some (File c m)
     | None => optional = true /\ Fs.existsSync fs (target_of ROOT fs p) = false
     end.
Proof.
  unfold FsSafety.safeInputPath.
  destruct (FsSafety.ensureJsonLike p) as [[] | e]; [| discriminate]. cbn [res_bind].
  destruct (FsSafety.ensureInsideRoot ROOT fs p) as [t | e] eqn:Hin; [| discriminate].
  cbn [res_bind]. pose proof (ensureInsideRoot_ok_target _ _ _ _ Hin) as Ht. subst t.
  intros H. split; [reflexivity |]. revert H.
  unfold Fs.existsSync, Fs.statSync.
  destruct (nodes fs !! target_of ROOT fs p) as [[c m | m] |] eqn:Hn; cbn.
  - intros [= <-]. eauto.
  - discriminate.
  - destruct optional; [intros [= <-]; auto | discriminate].
Qed.

(** X16.  The resolved inputs are, in the order listed, the targets of the
    listed inputs that exist; each names a regular file, and without
    skip-missing none is left out. *)
Lemma resolved_inputs_are_the_existing_targets (ROOT : string) (fs : FS)
    (ins : list string) (skip : bool) (l : list string) :
  ROOT <> "" ->
  resolveInputPaths ROOT fs ins skip = Ok l ->
  l = List.filter (Fs.existsSync fs) (map (target_of ROOT fs) ins)
  /\ Forall (fun abs => exists c m, nodes fs !! abs = Some (File c m)) l
  /\ (skip = false -> l = map (target_of ROOT fs) ins).
Proof.
  intros HR. unfold resolveInputPaths. revert l.
  induction ins as [| p ins IH]; intros l.
  - cbn. intros [= <-]. auto.
  - cbn [res_map map List.filter].
    destruct (FsSafety.safeInputPath ROOT fs p skip) as [o | e] eqn:Hp; [| discriminate].
    cbn [res_bind].
    destruct (res_map _ ins) as [rest | e]; [| discriminate].
    cbn [res_bind]. intros [= <-].
    destruct (IH _ eq_refl) as (IH1 & IH2 & IH3).
    apply safeInputPath_inv in Hp as [Hin Ho].
    unfold keep_truthy in *. cbn [omap].
    destruct o as [abs |].
    + destruct Ho as [-> (c & m & Hn)].
      assert (truthy (Some (target_of ROOT fs p)) = true) as ->.
      { cbn. apply negb_true_iff, String.eqb_neq.
        exact (ensureInsideRoot_nonempty _ _ _ _ HR Hin). }
      assert (Fs.existsSync fs (target_of ROOT fs p) = true) as ->
        by (unfold Fs.existsSync; now rewrite Hn).
      split; [now rewrite IH1 |].
      split; [constructor; eauto |].
      intros Hs. now rewrite (IH3 Hs).
    + destruct Ho as [-> Hex]. cbn [truthy]. rewrite Hex.
      split; [exact IH1 |]. split; [exact IH2 | discriminate].
Qed.

(** X17.  An output path whose parent directory leads outside the root, by
    ".." or through a symbolic link, is refused, wherever the file name
    itself resolves to. *)
Lemma output_below_an_escaping_directory_is_refused (ROOT : string) (fs : FS) (p : string) :
  ~ under ROOT (target_of ROOT fs (Path.dirname p)) ->
  exists e, FsSafety.safeOutputPath ROOT fs p = Throw e.
Proof.
  intros Hout. unfold FsSafety.safeOutputPath.
  destruct (FsSafety.ensureJsonLike p) as [[] | e]; [| cbn; eauto]. cbn [res_bind].
  destruct (outside_target_throws ROOT fs _ Hout) as [e ->]. cbn. eauto.
Qed.

(* ===================================================================== *)
(** ** The staleness test *)
(* ===================================================================== *)

(** X20.  The staleness test answers true exactly when the output exists, the
    run is no dry run and no input is newer than the output. *)
Lemma up_to_date_iff_no_newer_input (fs : FS) (outAbs : string) (inputAbs : list string)
    (dryRun : bool) :
  checkIfUpToDate fs outAbs inputAbs dryRun = true
  <-> Fs.existsSync fs outAbs = true /\ dryRun = false
      /\ Forall (fun p => msec_le (FsSafety.getMtimeMs fs (Some p))
                                  (FsSafety.getMtimeMs fs (Some outAbs)) = true) inputAbs.
Proof.
  unfold checkIfUpToDate.
  destruct (Fs.existsSync fs outAbs), dryRun; cbn [negb orb];
    try (split; [discriminate | intros (? & ? & _); discriminate]).
  rewrite Math_max_le.
  assert (forallb (fun x => msec_le x (FsSafety.getMtimeMs fs (Some outAbs)))
            (map (fun p => FsSafety.getMtimeMs fs (Some p)) inputAbs) = true
          <-> Forall (fun p => msec_le (FsSafety.getMtimeMs fs (Some p))
                                       (FsSafety.getMtimeMs fs (Some outAbs)) = true)
                inputAbs) as ->.
  { induction inputAbs as [| p l IH]; cbn [map forallb].
    - split; [constructor | reflexivity].
    - rewrite andb_true_iff, IH. split.
      + intros [H1 H2]. now constructor.
      + intros H. inversion H; subst. auto. }
  tauto.
Qed.

(* ===================================================================== *)
(** ** Deep merge, key by key *)
(* ===================================================================== *)

Lemma get_absent (k : string) (o : list (string * json)) :
  ~ In k (Obj.keys o) -> Obj.get k o = None.
Proof.
  induction o as [| [k' v'] o IH]; [reflexivity |]. cbn. intros H.
  destruct (String.eqb_spec k k') as [-> | _]; [exfalso; apply H; now left |].
  apply IH. intros Hin. apply H. now right.
Qed.

Lemma get_fold_assign (f : string * json -> option json)
    (props : list (string * json)) (dest : Deepmerge.destination) (k : string) :
  NoDup (Obj.keys props) ->
  k <> "__proto__" ->
  Obj.get k (fst (fold_left (fun d kv => match f kv with
                                         | Some v => Deepmerge.assign (fst kv) v d
                                         | None => d
                                         end) props dest))
  = match Obj.get k props with
    | Some v => match f (k, v) with Some w => Some w | None => Obj.get k (fst dest) end
    | None => Obj.get k (fst dest)
    end.
Proof.
  intros Hnd Hk. revert dest Hnd.
  induction props as [| [k' v'] props IH]; intros dest Hnd; [reflexivity |].
  cbn [Obj.keys map fst] in Hnd. apply NoDup_cons in Hnd as [Hnot Hnd].
  cbn [fold_left]. rewrite (IH _ Hnd). cbn [Obj.get].
  change (fst (k', v')) with k'.
  destruct (String.eqb_spec k k') as [-> | Hne].
  - rewrite get_absent by (intros H; apply Hnot; now apply list_elem_of_In).
    destruct (f (k', v')); [now apply get_assign_eq | reflexivity].
  - destruct (f (k', v')); [| reflexivity].
    rewrite (get_assign_ne k k' _ dest Hne). reflexivity.
Qed.

Lemma fold_left_same {A B} (g h : A -> B -> A) (l : list B) (a : A) :
  (forall a b, g a b = h a b) -> fold_left g l a = fold_left h l a.
Proof.
  intros H. revert a. induction l as [| b l IH]; intros a; cbn; [reflexivity |].
  now rewrite H, IH.
Qed.

Lemma get_cloned_target (t : list (string * json)) (k : string) :
  NoDup (Obj.keys t) ->
  k <> "__proto__" ->
  Obj.get k (fst (Deepmerge.cloned_target (JObj t))) = Deepmerge.clone <$> Obj.get k t.
Proof.
  intros Hnd Hk. unfold Deepmerge.cloned_target.
  pose proof (get_fold_assign (fun kv => Some (Deepmerge.clone (snd kv))) t
                Deepmerge.fresh k Hnd Hk) as H.
  cbn beta iota in H. rewrite H. now destruct (Obj.get k t).
Qed.

(** X18.  The merge of two objects, read at any key other than "__proto__".
    A key that only the target holds keeps its value, cloned; one that
    both hold takes the recursive merge when the source value is an array
    or an object, and the source value otherwise; one that only the source
    holds takes the source value, unless it names a member of
    [Object.prototype]: that key is dropped. *)
Lemma merge_lookup (t s : list (string * json)) (k : string) :
  NoDup (Obj.keys t) -> NoDup (Obj.keys s) ->
  k <> "__proto__" ->
  exists merged,
    Deepmerge.merge (JObj t) (JObj s) = JObj merged
    /\ Obj.get k merged
       = match Obj.get k s, Obj.get k t with
         | None, held => Deepmerge.clone <$> held
         | Some sv, Some tv =>
             Some (if Deepmerge.isMergeableObject sv then Deepmerge.merge tv sv
                   else Deepmerge.clone sv)
         | Some sv, None =>
             if Deepmerge.is_inherited k then None else Some (Deepmerge.clone sv)
         end.
Proof.
  intros Ht Hs Hk. eexists. split; [reflexivity |].
  rewrite (fold_left_same _
             (fun d kv =>
                match (if Deepmerge.propertyIsUnsafe (JObj t) (fst kv) then None
                       else if Deepmerge.propertyIsOnObject (JObj t) (fst kv)
                               && Deepmerge.isMergeableObject (snd kv)
                            then Some (Deepmerge.merge (Deepmerge.target_get (JObj t) (fst kv))
                                         (snd kv))
                            else Some (Deepmerge.clone (snd kv))) with
                | Some v => Deepmerge.assign (fst kv) v d
                | None => d
                end)).
  2:{ intros d kv. cbn zeta. destruct (Deepmerge.propertyIsUnsafe _ _); [reflexivity |].
      now destruct (_ && _). }
  rewrite (get_fold_assign _ s _ k Hs Hk), (get_cloned_target t k Ht Hk).
  destruct (Obj.get k s) as [sv |]; [| reflexivity]. cbn [fst snd].
  unfold Deepmerge.propertyIsUnsafe, Deepmerge.propertyIsOnObject, Deepmerge.target_get,
    Obj.has.
  destruct (Obj.get k t) as [tv |].
  - destruct (Deepmerge.isMergeableObject sv); reflexivity.
  - destruct (Deepmerge.is_inherited k); reflexivity.
Qed.

(* ===================================================================== *)
(** ** Every outcome of a run *)
(* ===================================================================== *)

Lemma same_elsewhere_refl (outAbs : string) (fs : FS) : same_elsewhere outAbs fs fs.
Proof. split; auto. Qed.

Lemma same_elsewhere_trans (outAbs : string) (a b c : FS) :
  same_elsewhere outAbs a b -> same_elsewhere outAbs b c -> same_elsewhere outAbs a c.
Proof.
  intros [L1 N1] [L2 N2]. split; [congruence |].
  intros q Hq. now rewrite (N2 q Hq), (N1 q Hq).
Qed.

Lemma written_sibling_same_elsewhere (outAbs suffix text : string) (fs : FS) :
  suffix = ".tmp" \/ suffix = ".bak" ->
  same_elsewhere outAbs fs (Fs.written (outAbs ++ suffix) text fs).
Proof.
  intros Hs. split; [reflexivity |]. intros q Hq.
  apply untouched_ne in Hq as (H1 & H2 & H3).
  unfold Fs.written. cbn [nodes]. rewrite lookup_insert_ne; [reflexivity |].
  destruct Hs as [-> | ->]; congruence.
Qed.

Lemma written_sibling_keeps_output (outAbs suffix text : string) (fs : FS) :
  suffix <> "" ->
  nodes (Fs.written (outAbs ++ suffix) text fs) !! outAbs = nodes fs !! outAbs.
Proof.
  intros Hs. unfold Fs.written. cbn [nodes]. rewrite lookup_insert_ne; [reflexivity |].
  now apply sibling_ne_self.
Qed.

(** Where [atomicWrite] can leave the file system: [fs1] is the state
    after the optional backup. *)
Lemma atomicWrite_outcomes (outAbs text : string) (keep : bool) (fs : FS)
    (r : res (option string)) (fs' : FS) :
  FsSafety.atomicWrite outAbs text keep fs = (r, fs') ->
  exists fs1,
    (fs1 = fs
     \/ exists old, FsSafety.readText fs outAbs = Ok old
                    /\ fs1 = Fs.written (outAbs ++ ".bak") old fs)
    /\ ((exists e, r = Throw e
                   /\ (fs' = fs1 \/ fs' = Fs.written (outAbs ++ ".tmp") text fs1))
        \/ (exists b, r = Ok b /\ fs' = committed outAbs text fs1)).
Proof.
  assert (forall fs1 b,
            io_bind (Fs.writeFileSync (outAbs ++ ".tmp") text)
              (fun _ => io_bind (Fs.renameSync (outAbs ++ ".tmp") outAbs)
                          (fun _ => io_ret b)) fs1 = (r, fs') ->
            (exists e, r = Throw e
                       /\ (fs' = fs1 \/ fs' = Fs.written (outAbs ++ ".tmp") text fs1))
            \/ (exists b, r = Ok b /\ fs' = committed outAbs text fs1)) as Htail.
  { intros fs1 b. unfold io_bind at 1.
    destruct (Fs.writeFileSync _ _ fs1) as [r2 fs2] eqn:Hw.
    apply writeFileSync_inv in Hw as [[-> ->] | [e [-> ->]]].
    2:{ intros [= <- <-]. left. eauto. }
    unfold io_bind.
    destruct (Fs.renameSync _ _ _) as [r3 fs3] eqn:Hr.
    apply renameSync_inv in Hr as [(c & m & -> & Hlook & ->) | [e [-> ->]]].
    - cbn [Fs.written nodes] in Hlook. rewrite lookup_insert_eq in Hlook.
      injection Hlook as <- <-. intros [= <- <-]. right. eauto.
    - intros [= <- <-]. left. eauto. }
  unfold FsSafety.atomicWrite.
  rewrite (io_bind_read _ _ _ (Fs.existsSync fs outAbs) eq_refl).
  destruct (keep && Fs.existsSync fs outAbs).
  - unfold io_bind at 1.
    destruct (FsSafety.readText fs outAbs) as [old | e] eqn:Hread.
    + rewrite (io_bind_read _ _ _ _ Hread). unfold io_bind at 1.
      destruct (Fs.writeFileSync (outAbs ++ ".bak") old fs) as [r1 fs1] eqn:Hw.
      apply writeFileSync_inv in Hw as [[-> ->] | [e [-> ->]]].
      * cbn [io_ret]. intros H. apply Htail in H. eexists. split; [right; eauto | exact H].
      * intros [= <- <-]. exists fs. split; [now left |]. left. eauto.
    + rewrite (io_bind_read_throw _ _ _ _ Hread).
      intros [= <- <-]. exists fs. split; [now left |]. left. eauto.
  - unfold io_bind at 1. cbn [io_ret]. intros H. apply Htail in H.
    exists fs. split; [now left | exact H].
Qed.

Lemma atomicWrite_same_elsewhere (outAbs text : string) (keep : bool) (fs : FS)
    (r : res (option string)) (fs' : FS) :
  FsSafety.atomicWrite outAbs text keep fs = (r, fs') -> same_elsewhere outAbs fs fs'.
Proof.
  intros H. apply atomicWrite_outcomes in H as (fs1 & H1 & H2).
  assert (same_elsewhere outAbs fs fs1) as S1.
  { destruct H1 as [-> | (old & _ & ->)]; [apply same_elsewhere_refl |].
    apply written_sibling_same_elsewhere. now right. }
  apply (same_elsewhere_trans _ _ _ _ S1).
  destruct H2 as [(e & _ & [-> | ->]) | (b & _ & ->)].
  - apply same_elsewhere_refl.
  - apply written_sibling_same_elsewhere. now left.
  - apply committed_same_elsewhere.
Qed.

Lemma atomicWrite_throw_keeps_output (outAbs text : string) (keep : bool) (fs : FS)
    (e : exn) (fs' : FS) :
  FsSafety.atomicWrite outAbs text keep fs = (Throw e, fs') ->
  nodes fs' !! outAbs = nodes fs !! outAbs.
Proof.
  intros H. apply atomicWrite_outcomes in H as (fs1 & H1 & H2).
  assert (nodes fs1 !! outAbs = nodes fs !! outAbs) as S1.
  { destruct H1 as [-> | (old & _ & ->)]; [reflexivity |].
    now apply written_sibling_keeps_output. }
  destruct H2 as [(e' & _ & [-> | ->]) | (b & [=] & _)]; [exact S1 |].
  now rewrite written_sibling_keeps_output.
Qed.

Section Effect.

Variable ROOT : string.
Variable parseJsonc : string -> res json.
Variable JSON5_parse : string -> res json.
Variable JSON_stringify : json -> Z -> string.

Local Abbreviation mergeJsonc' := (mergeJsonc ROOT parseJsonc JSON5_parse JSON_stringify).

(** A run either leaves the file system as it is or ends in the commit to
    the accepted output path. *)
Lemma mergeJsonc_effect (opts : MergeOptions) (fs : FS) (r : res MergeResult.t) (fs' : FS) :
  mergeJsonc' opts fs = (r, fs') ->
  fs' = fs
  \/ exists outAbs shown ra,
       FsSafety.safeOutputPath ROOT fs (out opts) = Ok outAbs
       /\ default false (dryRun opts) = false
       /\ FsSafety.atomicWrite outAbs shown (default false (backup opts)) fs = (ra, fs')
       /\ (forall e, r = Throw e -> ra = Throw e).
Proof.
  destruct (resolveInputPaths ROOT fs (inputs opts) (default false (skipMissing opts)))
    as [inputAbs | e] eqn:Hin.
  2:{ unfold mergeJsonc. rewrite (io_bind_read_throw _ _ _ _ Hin). intros [= <- <-]. now left. }
  destruct inputAbs as [| abs rest].
  { unfold mergeJsonc. rewrite (io_bind_read _ _ _ _ Hin). intros [= <- <-]. now left. }
  destruct (FsSafety.safeOutputPath ROOT fs (out opts)) as [outAbs | e] eqn:Hout.
  2:{ unfold mergeJsonc. rewrite (io_bind_read _ _ _ _ Hin). cbn [List.length Nat.eqb].
      rewrite (io_bind_read_throw _ _ _ _ Hout). intros [= <- <-]. now left. }
  destruct (mergeFiles parseJsonc JSON5_parse fs (abs :: rest)) as [combined | e] eqn:Hmerge.
  2:{ unfold mergeJsonc. rewrite (io_bind_read _ _ _ _ Hin). cbn [List.length Nat.eqb].
      rewrite (io_bind_read _ _ _ _ Hout), (io_bind_read_throw _ _ _ _ Hmerge).
      intros [= <- <-]. now left. }
  rewrite (mergeJsonc_decision ROOT parseJsonc JSON5_parse JSON_stringify
             opts fs (abs :: rest) outAbs combined Hin ltac:(discriminate) Hout Hmerge).
  destruct (checkContentChanged _ _ _) as [[|] | e]; try (intros [= <- <-]; now left).
  destruct (checkIfUpToDate _ _ _ _) eqn:Hup; [intros [= <- <-]; now left |].
  destruct (default false (dryRun opts)) eqn:Hdry; [intros [= <- <-]; now left |].
  destruct (FsSafety.atomicWrite _ _ _ _) as [[b | e] fs1] eqn:Hw.
  - intros [= <- <-]. right. eexists outAbs, _, (Ok b).
    split; [reflexivity |]. split; [reflexivity |]. split; [exact Hw | discriminate].
  - intros [= <- <-]. right. eexists outAbs, _, (Throw e).
    split; [reflexivity |]. split; [reflexivity |]. split; [exact Hw |]. now intros e' [= <-].
Qed.

Lemma same_elsewhere_kept (outAbs : string) (fs fs' : FS) :
  same_elsewhere outAbs fs fs' -> kept_elsewhere outAbs fs fs'.
Proof.
  intros [Hl Hn]. split; [exact Hl |]. intros q Hq. unfold shows. now rewrite (Hn q Hq).
Qed.

(** X21.  In a file system without symbolic links, whatever the outcome,
    result or exception, a run leaves the file system as it was or changes
    it, outside dry-run, at the accepted output path and its [.tmp] and
    [.bak] siblings only: every other path shows the regular file, with
    its text and time, or the directory it showed before, and no symbolic
    link appears. *)
Lemma only_the_output_and_its_siblings_change (opts : MergeOptions) (fs : FS)
    (r : res MergeResult.t) (fs' : FS) :
  links fs = ∅ ->
  mergeJsonc' opts fs = (r, fs') ->
  fs' = fs
  \/ exists outAbs,
       FsSafety.safeOutputPath ROOT fs (out opts) = Ok outAbs
       /\ default false (dryRun opts) = false
       /\ kept_elsewhere outAbs fs fs'.
Proof.
  intros _ H.
  apply mergeJsonc_effect in H as [-> | (outAbs & shown & ra & Hout & Hdry & Hw & _)];
    [now left | right].
  exists outAbs. split; [exact Hout |]. split; [exact Hdry |].
  apply same_elsewhere_kept, (atomicWrite_same_elsewhere _ _ _ _ _ _ Hw).
Qed.

(** X22.  A run that throws leaves the output file as it was, where the
    output path and its two siblings are their own real paths (no symbolic
    links): a commit that fails half way has touched the siblings at most. *)
Lemma failed_run_keeps_the_output (opts : MergeOptions) (fs : FS) (e : exn) (fs' : FS)
    (outAbs : string) :
  mergeJsonc' opts fs = (Throw e, fs') ->
  FsSafety.safeOutputPath ROOT fs (out opts) = Ok outAbs ->
  own_path fs outAbs ->
  own_path fs (outAbs ++ ".bak") ->
  own_path fs (outAbs ++ ".tmp") ->
  nodes fs' !! outAbs = nodes fs !! outAbs.
Proof.
  intros H Hout _ _ _.
  apply mergeJsonc_effect in H as [-> | (o & shown & ra & Hout' & _ & Hw & Hr)];
    [reflexivity |].
  rewrite Hout in Hout'. injection Hout' as <-.
  rewrite (Hr e eq_refl) in Hw. now apply atomicWrite_throw_keeps_output in Hw.
Qed.

(** X25.  A run that reports [wrote] has put the serialized merge of the
    resolved inputs, read as they were before the run, into the output
    file, returns the path of that file, and has left no temporary file
    behind, where the two siblings of the accepted output path are their
    own real paths (no symbolic links). *)
Lemma a_run_that_wrote_holds_the_merge (opts : MergeOptions) (fs : FS)
    (outAbs : string) (r : MergeResult.t) (fs' : FS) :
  FsSafety.safeOutputPath ROOT fs (out opts) = Ok outAbs ->
  own_path fs (outAbs ++ ".bak") ->
  own_path fs (outAbs ++ ".tmp") ->
  mergeJsonc' opts fs = (Ok r, fs') ->
  MergeResult.wrote r = true ->
  exists inputAbs combined,
    resolveInputPaths ROOT fs (inputs opts) (default false (skipMissing opts)) = Ok inputAbs
    /\ mergeFiles parseJsonc JSON5_parse fs inputAbs = Ok combined
    /\ MergeResult.out r = Some outAbs
    /\ Fs.readFileSync fs' outAbs = Ok (serialized JSON_stringify opts combined)
    /\ Fs.existsSync fs' (outAbs ++ ".tmp") = false.
Proof.
  intros Hout _ _.
  destruct (resolveInputPaths ROOT fs (inputs opts) (default false (skipMissing opts)))
    as [inputAbs | e] eqn:Hin.
  2:{ unfold mergeJsonc. rewrite (io_bind_read_throw _ _ _ _ Hin). discriminate. }
  destruct inputAbs as [| abs rest].
  { unfold mergeJsonc. rewrite (io_bind_read _ _ _ _ Hin). intros [= <- <-]. discriminate. }
  destruct (mergeFiles parseJsonc JSON5_parse fs (abs :: rest)) as [combined | e] eqn:Hmerge.
  2:{ unfold mergeJsonc. rewrite (io_bind_read _ _ _ _ Hin). cbn [List.length Nat.eqb].
      rewrite (io_bind_read _ _ _ _ Hout), (io_bind_read_throw _ _ _ _ Hmerge).
      discriminate. }
  rewrite (mergeJsonc_decision ROOT parseJsonc JSON5_parse JSON_stringify
             opts fs (abs :: rest) outAbs combined Hin ltac:(discriminate) Hout Hmerge).
  destruct (checkContentChanged _ _ _) as [[|] | e]; [| | discriminate].
  2:{ intros [= <- <-]. discriminate. }
  destruct (checkIfUpToDate _ _ _ _); [intros [= <- <-]; discriminate |].
  destruct (default false (dryRun opts)); [intros [= <- <-]; discriminate |].
  destruct (FsSafety.atomicWrite _ _ _ _) as [[b | e] fs1] eqn:Hw; [| discriminate].
  intros [= <- <-] _. exists (abs :: rest), combined.
  split; [reflexivity |]. split; [exact Hmerge |]. split; [reflexivity |].
  apply atomicWrite_inv in Hw as [(_ & _ & ->) | (old & _ & _ & _ & ->)];
    unfold Fs.readFileSync, Fs.existsSync; now rewrite committed_output, committed_tmp.
Qed.

End Effect.

(* ===================================================================== *)
(** ** Paths in normal form: the calls stay under the root *)
(* ===================================================================== *)

Lemma split_nonempty (c : ascii) (s : string) : Js.split c s <> [].
Proof.
  destruct s as [| a s]; cbn; [discriminate |].
  destruct (Ascii.eqb a c); [discriminate |]. destruct (Js.split c s); discriminate.
Qed.

Lemma split_sep_free (c : ascii) (s : string) : sep_free c s = true -> Js.split c s = [s].
Proof.
  unfold sep_free. induction s as [| a s IH]; [reflexivity |].
  cbn [list_ascii_of_string forallb Js.split]. intros H.
  apply andb_true_iff in H as [Ha Hs]. apply negb_true_iff in Ha.
  now rewrite Ha, (IH Hs).
Qed.

Lemma split_app (c : ascii) (s t : string) :
  Js.split c (s ++ String c t) = (Js.split c s ++ Js.split c t)%list.
Proof.
  induction s as [| a s IH].
  - rewrite append_empty. cbn [Js.split]. now rewrite Ascii.eqb_refl.
  - rewrite append_cons. cbn [Js.split]. rewrite IH.
    destruct (Ascii.eqb a c); [reflexivity |].
    pose proof (split_nonempty c s). destruct (Js.split c s); [congruence | reflexivity].
Qed.

Lemma split_pieces_sep_free (c : ascii) (s : string) :
  Forall (fun x => sep_free c x = true) (Js.split c s).
Proof.
  induction s as [| a s IH]; [repeat constructor |].
  cbn [Js.split]. destruct (Ascii.eqb a c) eqn:Ha.
  - constructor; [reflexivity | exact IH].
  - destruct (Js.split c s) as [| h t]; [repeat constructor; unfold sep_free; cbn; now rewrite Ha |].
    inversion IH; subst. constructor; [| assumption].
    unfold sep_free in *. cbn. now rewrite Ha.
Qed.

Lemma split_join (c : ascii) (l : list string) :
  l <> [] -> Forall (fun x => sep_free c x = true) l ->
  Js.split c (Js.join (String c EmptyString) l) = l.
Proof.
  unfold Js.join. intros Hne Hall. induction Hall as [| x l Hx Hl IH]; [congruence |].
  destruct l as [| y l].
  - cbn [String.concat]. now apply split_sep_free.
  - change (String.concat (String c "") (x :: y :: l))
      with (x ++ String c "" ++ String.concat (String c "") (y :: l)).
    rewrite append_cons, append_empty.
    rewrite split_app, (split_sep_free _ _ Hx), IH by discriminate. reflexivity.
Qed.

Lemma proper_segment_split (s : string) :
  proper_segment s = true ->
  String.eqb s "" = false /\ String.eqb s "." = false /\ String.eqb s ".." = false
  /\ sep_free Path.sep s = true.
Proof.
  unfold proper_segment. rewrite !andb_true_iff, !negb_true_iff. tauto.
Qed.

Lemma norm_step_proper (acc : list string) (s : string) :
  proper_segment s = true -> Path.norm_step acc s = (acc ++ [s])%list.
Proof.
  intros H. apply proper_segment_split in H as (H1 & H2 & H3 & _).
  unfold Path.norm_step. now rewrite H1, H2, H3.
Qed.

Lemma normalize_proper (l acc : list string) :
  Forall (fun s => proper_segment s = true) l ->
  fold_left Path.norm_step l acc = (acc ++ l)%list.
Proof.
  intros H. revert acc. induction H as [| s l Hs _ IH]; intros acc; cbn [fold_left].
  - now rewrite app_nil_r.
  - rewrite (norm_step_proper _ _ Hs), IH, <- app_assoc. reflexivity.
Qed.

Lemma Forall_removelast {A} (P : A -> Prop) (l : list A) :
  Forall P l -> Forall P (removelast l).
Proof.
  induction 1 as [| x l Hx Hl IH]; [constructor |].
  cbn. destruct l; [constructor | now constructor].
Qed.

Lemma normalize_gives_proper (l acc : list string) :
  Forall (fun s => sep_free Path.sep s = true) l ->
  Forall (fun s => proper_segment s = true) acc ->
  Forall (fun s => proper_segment s = true) (fold_left Path.norm_step l acc).
Proof.
  intros H. revert acc. induction H as [| s l Hs _ IH]; intros acc Hacc; [exact Hacc |].
  cbn [fold_left]. apply IH. unfold Path.norm_step.
  destruct (String.eqb s "") eqn:H1; [exact Hacc |].
  destruct (String.eqb s ".") eqn:H2; [exact Hacc |].
  destruct (String.eqb s "..") eqn:H3; [now apply Forall_removelast |].
  apply Forall_app. split; [exact Hacc |]. constructor; [| constructor].
  unfold proper_segment. rewrite H1, H2, H3. exact Hs.
Qed.

Lemma segments_proper (p : string) :
  Forall (fun s => proper_segment s = true) (Path.segments p).
Proof.
  unfold Path.segments, Path.normalize_segments.
  apply normalize_gives_proper; [apply split_pieces_sep_free | constructor].
Qed.

Lemma segments_of_segments (l : list string) :
  Forall (fun s => proper_segment s = true) l ->
  Path.segments (Path.of_segments l) = l.
Proof.
  intros H. unfold Path.segments, Path.of_segments, Path.normalize_segments.
  cbn [Js.split]. rewrite Ascii.eqb_refl. cbn [fold_left].
  change (Path.norm_step [] "") with (@nil string).
  destruct l as [| x l]; [reflexivity |].
  change "/" with (String Path.sep EmptyString). rewrite split_join.
  - now rewrite normalize_proper.
  - discriminate.
  - eapply Forall_impl; [exact H |]. intros s Hs. now apply proper_segment_split in Hs.
Qed.

(** [resolve] returns a path in normal form. *)
Lemma resolve_normal (from p : string) : normal_path (Path.resolve from p).
Proof.
  unfold normal_path, Path.resolve.
  destruct (Path.isAbsolute p); f_equal; apply segments_of_segments.
  - apply segments_proper.
  - unfold Path.normalize_segments. apply normalize_gives_proper; [| constructor].
    apply Forall_app. split; apply split_pieces_sep_free.
Qed.

Lemma concat_snoc (sep : string) (init : list string) (x t : string) :
  String.concat sep (init ++ [x])%list ++ t
  = String.concat sep (init ++ [(x ++ t)%string])%list.
Proof.
  induction init as [| y init IH]; [reflexivity |].
  cbn [app]. destruct init as [| z init].
  - cbn [app String.concat]. now rewrite !append_assoc_string.
  - cbn [app String.concat] in *. rewrite !append_assoc_string. now rewrite IH.
Qed.

Lemma proper_with_suffix (x suffix : string) :
  proper_segment x = true -> sep_free Path.sep suffix = true ->
  (3 <= String.length suffix)%nat -> proper_segment (x ++ suffix) = true.
Proof.
  intros Hx Hs Hlen. apply proper_segment_split in Hx as (_ & _ & _ & Hfree).
  unfold proper_segment.
  assert (forall w, (String.length w < 3)%nat -> String.eqb (x ++ suffix) w = false) as Hw.
  { intros w Hlt. apply String.eqb_neq. intros Heq. apply (f_equal String.length) in Heq.
    rewrite length_app_string in Heq. lia. }
  rewrite !Hw by (cbn; lia). cbn [negb andb].
  unfold sep_free in *. now rewrite list_ascii_app, forallb_app, Hfree, Hs.
Qed.

(** The segments of a sibling [p.tmp] / [p.bak] of a path in normal form:
    those of [p], the last one carrying the suffix. *)
Lemma sibling_segments (p suffix : string) (init : list string) (x : string) :
  normal_path p -> Path.segments p = (init ++ [x])%list ->
  sep_free Path.sep suffix = true -> (3 <= String.length suffix)%nat ->
  Path.segments (p ++ suffix) = (init ++ [(x ++ suffix)%string])%list.
Proof.
  intros Hn Hsegs Hs Hlen.
  pose proof (segments_proper p) as Hp. rewrite Hsegs in Hp.
  apply Forall_app in Hp as [Hinit Hx]. inversion Hx as [| ? ? Hx' _]; subst.
  rewrite <- Hn, Hsegs. unfold Path.of_segments, Js.join.
  rewrite append_cons, concat_snoc.
  change (String Path.sep (String.concat "/" (init ++ [(x ++ suffix)%string])%list))
    with (Path.of_segments (init ++ [(x ++ suffix)%string])%list).
  apply segments_of_segments. apply Forall_app. split; [exact Hinit |].
  constructor; [| constructor]. now apply proper_with_suffix.
Qed.

Lemma sibling_under (ROOT p suffix : string) :
  under ROOT p -> normal_path p -> Path.segments p <> Path.segments ROOT ->
  sep_free Path.sep suffix = true -> (3 <= String.length suffix)%nat ->
  under ROOT (p ++ suffix).
Proof.
  unfold under. intros [k Hk] Hn Hne Hs Hlen.
  destruct (exists_last (l := k)) as (k' & x & ->).
  { intros ->. rewrite app_nil_r in Hk. congruence. }
  rewrite app_assoc in Hk.
  rewrite (sibling_segments p suffix _ x Hn Hk Hs Hlen), <- app_assoc.
  now eexists.
Qed.

Section Writes.

Variable ROOT : string.
Variable parseJsonc : string -> res json.
Variable JSON5_parse : string -> res json.
Variable JSON_stringify : json -> Z -> string.

Local Abbreviation mergeJsonc' := (mergeJsonc ROOT parseJsonc JSON5_parse JSON_stringify).

Lemma safeOutputPath_sound (fs : FS) (p outAbs : string) :
  FsSafety.safeOutputPath ROOT fs p = Ok outAbs -> under ROOT outAbs.
Proof.
  unfold FsSafety.safeOutputPath.
  destruct (FsSafety.ensureJsonLike p) as [[] | e]; [| discriminate]. cbn [res_bind].
  destruct (FsSafety.ensureInsideRoot ROOT fs (Path.dirname p)) as [d | e]; [| discriminate].
  cbn [res_bind]. apply ensureInsideRoot_sound.
Qed.

(** X19.  Whatever the outcome, every call a run adds to the log names paths
    under the root, provided the accepted output path is in normal form
    (as every path [resolve] or [realpathSync] returns is) and is not the
    root itself. *)
Lemma every_call_stays_under_the_root (opts : MergeOptions) (fs : FS)
    (outAbs : string) (r : res MergeResult.t) (fs' : FS) :
  FsSafety.safeOutputPath ROOT fs (out opts) = Ok outAbs ->
  normal_path outAbs ->
  Path.segments outAbs <> Path.segments ROOT ->
  mergeJsonc' opts fs = (r, fs') ->
  exists added,
    log fs' = (log fs ++ added)%list
    /\ Forall (fun c => Forall (under ROOT) (call_paths c)) added.
Proof.
  intros Hout Hn Hne Hrun.
  pose proof (safeOutputPath_sound _ _ _ Hout) as Hunder.
  assert (under ROOT (outAbs ++ ".tmp")) as Htmp
    by (apply sibling_under; auto; cbn; lia).
  assert (under ROOT (outAbs ++ ".bak")) as Hbak
    by (apply sibling_under; auto; cbn; lia).
  apply mergeJsonc_effect in Hrun as [-> | (o & shown & ra & Hout' & _ & Hw & _)].
  { exists []. split; [now rewrite app_nil_r | constructor]. }
  rewrite Hout in Hout'. injection Hout' as <-.
  apply atomicWrite_outcomes in Hw as (fs1 & H1 & H2).
  assert (exists first, log fs1 = (log fs ++ first)%list
                        /\ Forall (fun c => Forall (under ROOT) (call_paths c)) first)
    as (first & Hlog1 & Hfirst).
  { destruct H1 as [-> | (old & _ & ->)].
    - exists []. split; [now rewrite app_nil_r | constructor].
    - exists [WriteFile (outAbs ++ ".bak") old]. split; [reflexivity |].
      repeat constructor. exact Hbak. }
  destruct H2 as [(e & _ & [-> | ->]) | (b & _ & ->)].
  - now exists first.
  - exists (first ++ [WriteFile (outAbs ++ ".tmp") shown])%list. split.
    + unfold Fs.written. cbn [log]. now rewrite Hlog1, <- app_assoc.
    + apply Forall_app. split; [exact Hfirst |]. repeat constructor. exact Htmp.
  - exists (first ++ [WriteFile (outAbs ++ ".tmp") shown;
                      Rename (outAbs ++ ".tmp") outAbs])%list. split.
    + rewrite committed_log, Hlog1, <- app_assoc. reflexivity.
    + apply Forall_app. split; [exact Hfirst |]. repeat constructor; assumption.
Qed.

End Writes.

(* ===================================================================== *)
(** ** Names the extension guard refuses *)
(* ===================================================================== *)

Lemma extname_without_scan_dot (p : string) :
  Path.preDotState (Path.ext_scan (rev (list_ascii_of_string p)) Path.ext_init) = 0
  \/ Path.startDot (Path.ext_scan (rev (list_ascii_of_string p)) Path.ext_init) = None ->
  Path.extname p = "".
Proof.
  unfold Path.extname.
  set (st := Path.ext_scan (rev (list_ascii_of_string p)) Path.ext_init).
  intros [H | H]; rewrite H.
  - destruct (Path.startDot st), (Path.end_ st); reflexivity.
  - reflexivity.
Qed.

Lemma scan_stops_at_separator (before : list ascii) (st : Path.ext_state) :
  before = [] \/ (exists b, before = Path.sep :: b) ->
  Path.matchedSlash st = false ->
  Path.startDot (Path.ext_scan before st) = Path.startDot st
  /\ Path.preDotState (Path.ext_scan before st) = Path.preDotState st.
Proof.
  intros [-> | [b ->]] Hm; [now cbn |].
  cbn [Path.ext_scan]. rewrite Ascii.eqb_refl, Hm. now cbn.
Qed.

(** The scan of a last component without any dot never finds one. *)
Lemma scan_bare_name (name before : list ascii) :
  forallb plain_char name = true -> name <> [] ->
  before = [] \/ (exists b, before = Path.sep :: b) ->
  Path.startDot (Path.ext_scan (name ++ before) Path.ext_init) = None.
Proof.
  intros Hname Hne Hbefore. destruct name as [| c name]; [congruence |].
  cbn [forallb] in Hname. apply andb_true_iff in Hname as [Hc Hname].
  apply plain_char_split in Hc as [Hs Hd].
  unfold Path.ext_init. cbn [app Path.ext_scan]. rewrite Hs, Hd.
  cbn [negb Path.end_ Path.startDot Path.matchedSlash Path.startPart Path.preDotState].
  rewrite (scan_before_dot name _ 0 _ 0 Hname).
  match goal with
  | |- context [Path.ext_scan before ?st] =>
      now destruct (scan_stops_at_separator before st Hbefore eq_refl) as [-> _]
  end.
Qed.

(** The scan of a last component that begins with its only dot sees no
    character before the dot. *)
Lemma scan_dot_name (ext before : list ascii) :
  forallb plain_char ext = true ->
  before = [] \/ (exists b, before = Path.sep :: b) ->
  Path.preDotState (Path.ext_scan (ext ++ Path.dot :: before) Path.ext_init) = 0.
Proof.
  intros Hext Hbefore.
  assert (Ascii.eqb Path.dot Path.sep = false) as Hds by reflexivity.
  destruct ext as [| c ext].
  - unfold Path.ext_init. cbn [app Path.ext_scan]. rewrite Hds, Ascii.eqb_refl.
    cbn [negb Path.end_ Path.startDot Path.matchedSlash Path.startPart Path.preDotState].
    match goal with
    | |- context [Path.ext_scan before ?st] =>
        now destruct (scan_stops_at_separator before st Hbefore eq_refl) as [_ ->]
    end.
  - cbn [forallb] in Hext. apply andb_true_iff in Hext as [Hc Hext].
    apply plain_char_split in Hc as [Hs Hd].
    unfold Path.ext_init. cbn [app Path.ext_scan]. rewrite Hs, Hd.
    cbn [negb Path.end_ Path.startDot Path.matchedSlash Path.startPart Path.preDotState].
    rewrite (scan_before_dot ext _ 0 _ 0 Hext).
    cbn [Path.ext_scan]. rewrite Hds, Ascii.eqb_refl.
    cbn [negb Path.end_ Path.startDot Path.matchedSlash Path.startPart Path.preDotState].
    match goal with
    | |- context [Path.ext_scan before ?st] =>
        now destruct (scan_stops_at_separator before st Hbefore eq_refl) as [_ ->]
    end.
Qed.

Lemma rev_prefix_shape (pre : string) :
  pre = "" \/ (exists dir, pre = dir ++ "/") ->
  rev (list_ascii_of_string pre) = []
  \/ exists b, rev (list_ascii_of_string pre) = Path.sep :: b.
Proof.
  intros [-> | [dir ->]]; [now left | right].
  rewrite list_ascii_app, rev_app_distr. cbn. eauto.
Qed.

Lemma no_extension_is_refused (p : string) :
  Path.extname p = "" -> FsSafety.ensureJsonLike p = Throw (NotJsonLike p).
Proof. unfold FsSafety.ensureJsonLike. now intros ->. Qed.

(** X23.  A last component without a dot, and one whose only dot is its first
    character, have no extension for [extname], so the guard refuses them:
    a file called [json] or [.json] is not accepted. *)
Lemma names_without_extension_are_refused (pre name : string) :
  pre = "" \/ (exists dir, pre = dir ++ "/") ->
  plain name = true ->
  (name <> "" ->
   FsSafety.ensureJsonLike (pre ++ name) = Throw (NotJsonLike (pre ++ name)))
  /\ FsSafety.ensureJsonLike (pre ++ "." ++ name)
     = Throw (NotJsonLike (pre ++ "." ++ name)).
Proof.
  intros Hpre Hname. apply rev_prefix_shape in Hpre.
  unfold plain in Hname. rewrite <- forallb_rev_same in Hname.
  split.
  - intros Hne. apply no_extension_is_refused, extname_without_scan_dot. right.
    rewrite list_ascii_app, rev_app_distr.
    apply scan_bare_name; [exact Hname | | exact Hpre].
    destruct name; [congruence |]. cbn [list_ascii_of_string rev].
    intros H. apply (f_equal (@List.length ascii)) in H.
    rewrite length_app in H. cbn in H. lia.
  - apply no_extension_is_refused, extname_without_scan_dot. left.
    rewrite !list_ascii_app, !rev_app_distr. cbn [list_ascii_of_string rev app].
    rewrite <- app_assoc. cbn [app].
    now apply scan_dot_name.
Qed.

(* ===================================================================== *)
(** ** The parser of a file *)
(* ===================================================================== *)

Lemma lower_keeps_dots (a : ascii) :
  Ascii.eqb (Js.lower_ascii a) Path.dot = Ascii.eqb a Path.dot.
Proof.
  unfold Js.lower_ascii.
  destruct ((65 <=? nat_of_ascii a)%nat && (nat_of_ascii a <=? 90)%nat) eqn:Hup;
    [| reflexivity].
  apply andb_true_iff in Hup as [H1 H2]. apply Nat.leb_le in H1, H2.
  destruct (Ascii.eqb_spec a Path.dot) as [-> | _];
    [change (nat_of_ascii Path.dot) with 46%nat in H1; lia |].
  apply Ascii.eqb_neq. intros H. apply (f_equal nat_of_ascii) in H.
  rewrite nat_ascii_embedding in H by lia.
  change (nat_of_ascii Path.dot) with 46%nat in H. lia.
Qed.

Lemma lower_no_dot (s : string) : no_dot s = true -> no_dot (Js.toLowerCase s) = true.
Proof.
  unfold no_dot. induction s as [| a s IH]; [reflexivity |].
  cbn [Js.toLowerCase list_ascii_of_string forallb]. intros H.
  apply andb_true_iff in H as [Ha Hs]. now rewrite lower_keeps_dots, Ha, (IH Hs).
Qed.

Lemma pop_last_suffix (stem ext : string) :
  no_dot ext = true ->
  Js.pop (Js.split "."%char (Js.toLowerCase (stem ++ "." ++ ext)))
  = Some (Js.toLowerCase ext).
Proof.
  intros H. apply lower_no_dot in H.
  rewrite toLowerCase_app. change (Js.toLowerCase ("." ++ ext)) with (String "."%char (Js.toLowerCase ext)).
  rewrite split_app, (split_sep_free "."%char _ H). unfold Js.pop. apply last_snoc.
Qed.

Section Parser.

Variable parseJsonc : string -> res json.
Variable JSON5_parse : string -> res json.

(** X24.  [parseJsonFile] picks the parser by the text after the last dot of
    the whole path, lower-cased: the JSON5 parser for [json5], the JSONC
    parser for anything else.  A failure of the parser is thrown again with
    the file type and the path. *)
Lemma parser_is_chosen_by_the_last_suffix (stem ext content : string) :
  no_dot ext = true ->
  parseJsonFile parseJsonc JSON5_parse (stem ++ "." ++ ext) content
  = if String.eqb (Js.toLowerCase ext) "json5"
    then parsed_as "JSON5" (stem ++ "." ++ ext) (JSON5_parse content)
    else parsed_as "JSON/JSONC" (stem ++ "." ++ ext) (parseJsonc content).
Proof.
  intros H. unfold parseJsonFile. rewrite (pop_last_suffix stem ext H).
  now destruct (String.eqb (Js.toLowerCase ext) "json5").
Qed.

End Parser.

(** The parser follows the file, not the name it was listed under: an
    input listed as [in.json] that is a symbolic link to [real.json5]
    inside the root passes the guards, and its text goes to the JSON5
    parser. *)
Lemma linked_json5_input :
  resolveInputPaths Example.ROOT Example.with_json5_link ["in.json"] false
  = Ok ["/home/dev/app/real.json5"]
  /\ mergeFiles Example.refuse Sample.parse Example.with_json5_link
       ["/home/dev/app/real.json5"]
     = Ok (JObj [("a", JNum 1)]).
Proof. split; vm_compute; reflexivity. Qed.

(* ===================================================================== *)
(** ** Configuration *)
(* ===================================================================== *)

(** Round trip: the object that declares a configuration normalizes to
    that configuration, whatever the options set or left out. *)
Lemma declared_options_are_read_back (c : Config.ConfigOptions) (source : string) :
  Config.normalizeConfigOptions (Config.to_object c) source = Config.Returns c.
Proof. destruct c as [[o |] [s |] [p |] [d |] [b |] [i |]]; reflexivity. Qed.

Lemma visit_seen {A} (raw : Config.value) (source key : string)
    (validator : Config.value -> string -> Config.result A)
    (set : Config.ConfigOptions -> A -> Config.ConfigOptions) (n : Config.ConfigOptions) :
  Config.visit raw source key validator set n
  = match Config.seen raw key with
    | None => Config.Returns n
    | Some v => Config.and_then (validator v source) (fun x => Config.Returns (set n x))
    end.
Proof.
  unfold Config.visit, Config.seen.
  destruct (Config.Object_hasOwn raw key); [| reflexivity]. cbn [negb].
  now destruct (Config.prop raw key).
Qed.

Lemma and_then_returns {A B} (r : Config.result A) (k : A -> Config.result B) (b : B) :
  Config.and_then r k = Config.Returns b
  <-> exists a, r = Config.Returns a /\ k a = Config.Returns b.
Proof.
  destruct r as [a | e]; cbn.
  - split; [eauto | now intros (a' & [= <-] & H)].
  - split; [discriminate | now intros (a' & [=] & _)].
Qed.

Lemma visit_string (raw : Config.value) (source key : string)
    (set : Config.ConfigOptions -> string -> Config.ConfigOptions)
    (n n' : Config.ConfigOptions) :
  Config.visit raw source key Config.validators.out set n = Config.Returns n'
  <-> match Config.seen raw key with
      | None => n' = n
      | Some (Config.VString x) => n' = set n x
      | Some _ => False
      end.
Proof.
  rewrite visit_seen.
  destruct (Config.seen raw key) as [[| | ? | ? | ? | | ?] |]; cbn;
    split; congruence || contradiction.
Qed.

Lemma visit_boolean (raw : Config.value) (source key name : string)
    (set : Config.ConfigOptions -> bool -> Config.ConfigOptions)
    (n n' : Config.ConfigOptions) :
  Config.visit raw source key (Config.validators.boolean name) set n = Config.Returns n'
  <-> match Config.seen raw key with
      | None => n' = n
      | Some (Config.VBool x) => n' = set n x
      | Some _ => False
      end.
Proof.
  rewrite visit_seen.
  destruct (Config.seen raw key) as [[| | ? | ? | ? | | ?] |]; cbn;
    split; congruence || contradiction.
Qed.

Lemma visit_finite (raw : Config.value) (source key : string)
    (set : Config.ConfigOptions -> Z -> Config.ConfigOptions)
    (n n' : Config.ConfigOptions) :
  Config.visit raw source key Config.validators.indent set n = Config.Returns n'
  <-> match Config.seen raw key with
      | None => n' = n
      | Some (Config.VNumber (Config.Num x)) => n' = set n x
      | Some _ => False
      end.
Proof.
  rewrite visit_seen.
  destruct (Config.seen raw key) as [[| | ? | [? | | ?] | ? | | ?] |]; cbn;
    split; congruence || contradiction.
Qed.

Ltac config_shape H :=
  match type of H with
  | match ?s with _ => _ end =>
      destruct s as [[| | ? | [? | | ?] | ? | | ?] |]; try contradiction
  end.

(** X26.  [normalizeConfigOptions] accepts an object exactly when each of the
    six keys it owns with a value other than [undefined] holds a value of
    its type, and the configuration returned carries those values and
    nothing else: every other property of the object is ignored. *)
Lemma normalize_accepts_exactly_the_well_typed (props : list (string * Config.value))
    (source : string) (c : Config.ConfigOptions) :
  let raw := Config.VObject props in
  Config.normalizeConfigOptions raw source = Config.Returns c
  <-> Config.holds_string (Config.seen raw "out") (Config.out c)
      /\ Config.holds_boolean (Config.seen raw "skipMissing") (Config.skipMissing c)
      /\ Config.holds_boolean (Config.seen raw "pretty") (Config.pretty c)
      /\ Config.holds_boolean (Config.seen raw "dryRun") (Config.dryRun c)
      /\ Config.holds_boolean (Config.seen raw "backup") (Config.backup c)
      /\ Config.holds_finite (Config.seen raw "indent") (Config.indent c).
Proof.
  intros raw. unfold Config.normalizeConfigOptions. subst raw.
  unfold Config.validators.skipMissing, Config.validators.pretty,
    Config.validators.dryRun, Config.validators.backup.
  rewrite and_then_returns. setoid_rewrite and_then_returns.
  setoid_rewrite and_then_returns. setoid_rewrite and_then_returns.
  setoid_rewrite and_then_returns.
  setoid_rewrite visit_string. setoid_rewrite visit_boolean. setoid_rewrite visit_finite.
  generalize (Config.seen (Config.VObject props) "out") as s1.
  generalize (Config.seen (Config.VObject props) "skipMissing") as s2.
  generalize (Config.seen (Config.VObject props) "pretty") as s3.
  generalize (Config.seen (Config.VObject props) "dryRun") as s4.
  generalize (Config.seen (Config.VObject props) "backup") as s5.
  generalize (Config.seen (Config.VObject props) "indent") as s6.
  intros s6 s5 s4 s3 s2 s1.
  unfold Config.holds_string, Config.holds_boolean, Config.holds_finite.
  split.
  - intros (n1 & H1 & n2 & H2 & n3 & H3 & n4 & H4 & n5 & H5 & H6).
    config_shape H1; subst n1; config_shape H2; subst n2; config_shape H3; subst n3;
      config_shape H4; subst n4; config_shape H5; subst n5; config_shape H6; subst c;
      cbn; auto 7.
  - intros (H1 & H2 & H3 & H4 & H5 & H6). destruct c as [o s p d b i].
    cbn [Config.out Config.skipMissing Config.pretty Config.dryRun Config.backup
         Config.indent] in *.
    config_shape H1; subst o; config_shape H2; subst s; config_shape H3; subst p;
      config_shape H4; subst d; config_shape H5; subst b; config_shape H6; subst i;
      (eexists; split; [reflexivity |]; eexists; split; [reflexivity |];
       eexists; split; [reflexivity |]; eexists; split; [reflexivity |];
       eexists; split; [reflexivity |]; reflexivity).
Qed.

Lemma visit_passes_string (raw : Config.value) (source key : string)
    (set : Config.ConfigOptions -> string -> Config.ConfigOptions) (n : Config.ConfigOptions) :
  Config.passes raw (key, "string") = true ->
  exists n', Config.visit raw source key Config.validators.out set n = Config.Returns n'.
Proof.
  rewrite visit_seen. unfold Config.passes. cbn [fst snd].
  destruct (Config.seen raw key) as [[| | ? | [? | | ?] | ? | | ?] |]; cbn;
    try discriminate; eauto.
Qed.

Lemma visit_passes_boolean (raw : Config.value) (source key name : string)
    (set : Config.ConfigOptions -> bool -> Config.ConfigOptions) (n : Config.ConfigOptions) :
  Config.passes raw (key, "boolean") = true ->
  exists n', Config.visit raw source key (Config.validators.boolean name) set n
             = Config.Returns n'.
Proof.
  rewrite visit_seen. unfold Config.passes. cbn [fst snd].
  destruct (Config.seen raw key) as [[| | ? | [? | | ?] | ? | | ?] |]; cbn;
    try discriminate; eauto.
Qed.

Lemma visit_fails_string (raw : Config.value) (source key : string)
    (set : Config.ConfigOptions -> string -> Config.ConfigOptions) (n : Config.ConfigOptions) :
  Config.passes raw (key, "string") = false ->
  Config.visit raw source key Config.validators.out set n
  = Config.Throws (Config.InvalidValue "out" source "string").
Proof.
  rewrite visit_seen. unfold Config.passes. cbn [fst snd].
  destruct (Config.seen raw key) as [[| | ? | [? | | ?] | ? | | ?] |]; cbn;
    try discriminate; reflexivity.
Qed.

Lemma visit_fails_boolean (raw : Config.value) (source key name : string)
    (set : Config.ConfigOptions -> bool -> Config.ConfigOptions) (n : Config.ConfigOptions) :
  Config.passes raw (key, "boolean") = false ->
  Config.visit raw source key (Config.validators.boolean name) set n
  = Config.Throws (Config.InvalidValue name source "boolean").
Proof.
  rewrite visit_seen. unfold Config.passes. cbn [fst snd].
  destruct (Config.seen raw key) as [[| | ? | [? | | ?] | ? | | ?] |]; cbn;
    try discriminate; reflexivity.
Qed.

Lemma visit_fails_finite (raw : Config.value) (source key : string)
    (set : Config.ConfigOptions -> Z -> Config.ConfigOptions) (n : Config.ConfigOptions) :
  Config.passes raw (key, "finite number") = false ->
  Config.visit raw source key Config.validators.indent set n
  = Config.Throws (Config.InvalidValue "indent" source "finite number").
Proof.
  rewrite visit_seen. unfold Config.passes. cbn [fst snd].
  destruct (Config.seen raw key) as [[| | ? | [? | | ?] | ? | | ?] |]; cbn;
    try discriminate; reflexivity.
Qed.

Ltac config_step :=
  match goal with
  | |- Config.and_then (Config.visit ?raw ?src ?k Config.validators.out ?set ?n) _ = _ =>
      first
        [ rewrite (visit_fails_string raw src k set n) by assumption; reflexivity
        | let H := fresh in
          destruct (visit_passes_string raw src k set n) as [? H];
          [assumption |]; rewrite H; cbn [Config.and_then] ]
  | |- Config.and_then
         (Config.visit ?raw ?src ?k (Config.validators.boolean ?name) ?set ?n) _ = _ =>
      first
        [ rewrite (visit_fails_boolean raw src k name set n) by assumption; reflexivity
        | let H := fresh in
          destruct (visit_passes_boolean raw src k name set n) as [? H];
          [assumption |]; rewrite H; cbn [Config.and_then] ]
  | |- Config.visit ?raw ?src ?k Config.validators.indent ?set ?n = _ =>
      rewrite (visit_fails_finite raw src k set n) by assumption; reflexivity
  end.

(** X27.  The error of [normalizeConfigOptions] names the first key, in the
    order out, skipMissing, pretty, dryRun, backup, indent, whose value has
    the wrong type, with the file it came from and the type expected. *)
Lemma first_ill_typed_key_is_reported (props : list (string * Config.value))
    (source : string) (before after : list (string * string)) (key wanted : string) :
  let raw := Config.VObject props in
  Config.expected = (before ++ (key, wanted) :: after)%list ->
  forallb (Config.passes raw) before = true ->
  Config.passes raw (key, wanted) = false ->
  Config.normalizeConfigOptions raw source
  = Config.Throws (Config.InvalidValue key source wanted).
Proof.
  intros raw Hsplit Hbefore Hfail. unfold Config.normalizeConfigOptions. subst raw.
  unfold Config.validators.skipMissing, Config.validators.pretty,
    Config.validators.dryRun, Config.validators.backup.
  unfold Config.expected in Hsplit.
  destruct before as [| e1 [| e2 [| e3 [| e4 [| e5 [| e6 before]]]]]];
    cbn [app] in Hsplit; simplify_eq; cbn [forallb] in Hbefore;
    repeat match goal with
           | H : _ && _ = true |- _ => apply andb_true_iff in H as [? ?]
           end;
    try (repeat config_step; fail).
  destruct before; discriminate.
Qed.

(** X28.  [loadConfig] reads the first candidate file that exists, in the
    order of [configPaths], and nothing else: with none it returns the
    empty configuration without importing anything; a failure to import or
    to normalize that first file is thrown as [FailedToLoad] with its name,
    and no later candidate is tried. *)
Lemma loadConfig_reads_the_first_existing_candidate (cwd : string)
    (import_ : string -> Config.result Config.value) (fs : FS) :
  Config.loadConfig cwd import_ fs
  = match List.find (fun p => Fs.existsSync fs (Path.resolve cwd p)) Config.configPaths with
    | None => Config.Returns Config.empty
    | Some configPath =>
        match import_ (Path.join cwd configPath) with
        | Config.Returns importedModule =>
            match Config.normalizeConfigOptions (Config.rawConfig importedModule)
                    configPath with
            | Config.Returns config => Config.Returns config
            | Config.Throws e => Config.Throws (Config.FailedToLoad configPath e)
            end
        | Config.Throws e => Config.Throws (Config.FailedToLoad configPath e)
        end
    end.
Proof.
  unfold Config.loadConfig. induction Config.configPaths as [| p l IH]; [reflexivity |].
  cbn [Config.loadConfig_loop List.find].
  destruct (Fs.existsSync fs (Path.resolve cwd p)); [| exact IH].
  unfold Config.load. now destruct (import_ (Path.join cwd p)).
Qed.

(* ===================================================================== *)
(** ** Command line *)
(* ===================================================================== *)

Lemma text_is_truthy (c : ascii) (s : string) : truthy (Some (String c s)) = true.
Proof. reflexivity. Qed.

(** X29.  Every result [mergeJsonc] returns has a message of its own: the
    fallback for an unknown reason and the message of a backup without a
    path are never printed, provided the preview text is not empty (the
    serialization of an object never is). *)
Lemma every_result_has_its_message (ROOT : string)
    (parseJsonc JSON5_parse : string -> res json) (JSON_stringify : json -> Z -> string)
    (opts : MergeOptions) (fs : FS) (r : MergeResult.t) (fs' : FS) (shown : string) :
  mergeJsonc ROOT parseJsonc JSON5_parse JSON_stringify opts fs = (Ok r, fs') ->
  (forall t, MergeResult.preview r = Some t -> t <> "") ->
  Cli.formatOutputMessage r shown
  = match MergeResult.reason r with
    | no_inputs => "[merge-jsonc] No existing inputs (skipping)."
    | up_to_date => "[merge-jsonc] Up-to-date (no source changes)."
    | no_content_change => "[merge-jsonc] Up-to-date (no content changes)."
    | dry_run => "[merge-jsonc] DRY RUN - would write to " ++ shown ++ ":" ++ Cli.LF
                 ++ default "" (MergeResult.preview r)
    | wrote => "[merge-jsonc] Wrote " ++ shown
    | wrote_with_backup => "[merge-jsonc] Wrote " ++ shown ++ " (backup: "
                           ++ default "" (MergeResult.backup r) ++ ")"
    end.
Proof.
  intros Hrun Hpreview.
  apply mergeJsonc_cases in Hrun
    as [(why & -> & _ & Hwhy) | [(t & -> & _) | (o & t & b & Hw & ->)]].
  - destruct Hwhy as [-> | [-> | ->]]; reflexivity.
  - specialize (Hpreview t eq_refl). destruct t as [| c t]; [congruence |]. reflexivity.
  - apply atomicWrite_inv in Hw as [(-> & _ & _) | (old & -> & _ & _ & _)].
    + unfold Cli.formatOutputMessage. cbn. rewrite !append_cons. reflexivity.
    + assert (truthy (Some (o ++ ".bak")) = true) as Ht by (destruct o; reflexivity).
      unfold Cli.formatOutputMessage. rewrite Ht.
      cbn [MergeResult.reason MergeResult.preview MergeResult.wrote MergeResult.backup
           Cli.reason_name].
      cbn [String.eqb Ascii.eqb Bool.eqb andb Cli.entry].
      rewrite Ht, !append_cons. reflexivity.
Qed.

(** X30.  Once the parser has filled in the defaults [run] declares, the
    configuration file reaches [mergeJsonc] through [indent] alone: two
    configurations with the same [indent] give the same options, whatever
    they say about out, skipMissing, pretty, dryRun and backup. *)
Lemma config_reaches_the_run_through_indent_alone (argv : Cli.Argv.t)
    (c1 c2 : Config.ConfigOptions) :
  Cli.defaults_filled argv ->
  Config.indent c1 = Config.indent c2 ->
  Cli.mergeArgsWithConfig (Cli.parsedArgs argv) c1
  = Cli.mergeArgsWithConfig (Cli.parsedArgs argv) c2.
Proof.
  intros ([o Ho] & [s Hs] & [d Hd] & [b Hb] & _ & _) Hi.
  unfold Cli.mergeArgsWithConfig, Cli.parsedArgs. cbn [Cli.out Cli.skipMissing Cli.pretty
    Cli.dryRun Cli.backup Cli.indent Cli.arrayMerge Cli.header Cli.inputs].
  rewrite Ho, Hs, Hd, Hb, Hi. reflexivity.
Qed.

(** The cases of the repository's command-line tests: the options handed to
    [mergeJsonc] for [--out result.json --skip-missing --backup input.jsonc]
    under a configuration with backup, indent 4 and pretty off, and the two
    messages of a backup. *)
Lemma command_line_tests :
  Cli.mergeArgsWithConfig (Cli.parsedArgs Example.argv) Example.config
  = {| Cli.Options.merge :=
         {| out := "result.json"; inputs := ["input.jsonc"]; skipMissing := Some true;
            pretty := Some true; dryRun := Some false; backup := Some true;
            indent := Some 4 |};
       Cli.Options.arrayMerge := "replace";
       Cli.Options.header := true |}
  /\ Cli.formatOutputMessage
       {| MergeResult.wrote := true; MergeResult.reason := wrote_with_backup;
          MergeResult.preview := None; MergeResult.out := None;
          MergeResult.backup := Some "target.json.bak" |} "combined.jsonc"
     = "[merge-jsonc] Wrote combined.jsonc (backup: target.json.bak)"
  /\ Cli.formatOutputMessage
       {| MergeResult.wrote := true; MergeResult.reason := wrote_with_backup;
          MergeResult.preview := None; MergeResult.out := None;
          MergeResult.backup := None |} "combined.jsonc"
     = "[merge-jsonc] Wrote combined.jsonc".
Proof. repeat split. Qed.

(* ===================================================================== *)
(** ** The theorems at concrete inputs *)
(* ===================================================================== *)

Lemma identical_content_witness :
  Example.run (Example.options true true)
    (Example.project (Some (File Example.merged_text 10)))
  = (Ok (skipped no_content_change),
     Example.project (Some (File Example.merged_text 10))).
Proof.
  apply (identical_content_is_no_content_change Example.ROOT Sample.parse Sample.parse
           Sample.stringify (Example.options true true)
           (Example.project (Some (File Example.merged_text 10)))
           ["/home/dev/app/a.jsonc"; "/home/dev/app/b.jsonc"]
           "/home/dev/app/out.json" Example.concatenated);
    try discriminate; vm_compute; reflexivity.
Defined.

Lemma equal_mtime_witness :
  Example.run (Example.options false true) (Example.project (Some (File "old" 2000)))
  = (Ok (skipped up_to_date), Example.project (Some (File "old" 2000))).
Proof.
  apply (newer_or_equal_output_is_up_to_date Example.ROOT Sample.parse Sample.parse
           Sample.stringify (Example.options false true)
           (Example.project (Some (File "old" 2000)))
           ["/home/dev/app/a.jsonc"; "/home/dev/app/b.jsonc"]
           "/home/dev/app/out.json" Example.concatenated) with (current := "old");
    try discriminate; vm_compute; reflexivity.
Defined.

Lemma dry_run_witness :
  Example.run (Example.options true true) (Example.project (Some (File "old" 9000)))
  = (Ok {| MergeResult.wrote := false; MergeResult.reason := dry_run;
           MergeResult.preview := Some Example.merged_text; MergeResult.out := None;
           MergeResult.backup := None |},
     Example.project (Some (File "old" 9000)))
  /\ checkIfUpToDate (Example.project (Some (File "old" 9000))) "/home/dev/app/out.json"
       ["/home/dev/app/a.jsonc"; "/home/dev/app/b.jsonc"] true = false.
Proof.
  apply (dry_run_previews_without_writing Example.ROOT Sample.parse Sample.parse
           Sample.stringify (Example.options true true)
           (Example.project (Some (File "old" 9000)))
           ["/home/dev/app/a.jsonc"; "/home/dev/app/b.jsonc"]
           "/home/dev/app/out.json" Example.concatenated);
    try discriminate; vm_compute; reflexivity.
Defined.


Lemma no_inputs_witness :
  FsSafety.safeOutputPath Example.ROOT (Example.project None) (out Example.all_missing)
  = Throw (NotJsonLike "../../outside.txt")
  /\ Example.run Example.all_missing (Example.project None)
     = (Ok (skipped no_inputs), Example.project None).
Proof.
  split; [vm_compute; reflexivity |].
  apply (no_inputs_before_output Example.ROOT Sample.parse Sample.parse
           Sample.stringify Example.all_missing (Example.project None)).
  vm_compute; reflexivity.
Defined.



Lemma escape_witness :
  (exists e, FsSafety.ensureInsideRoot Example.ROOT Example.with_link "link.json" = Throw e)
  /\ (exists e, FsSafety.ensureInsideRoot Example.ROOT (Example.project None)
                  "../../etc/passwd" = Throw e).
Proof.
  split.
  - apply (escape_is_rejected Example.ROOT Example.with_link "link.json").
    intros [k H]. vm_compute in H. discriminate H.
  - apply (escape_is_rejected Example.ROOT (Example.project None) "../../etc/passwd").
    intros [k H]. vm_compute in H. discriminate H.
Defined.

Lemma inside_witness :
  FsSafety.ensureInsideRoot Example.ROOT (Example.project None) "conf/../a.jsonc"
  = Ok "/home/dev/app/a.jsonc".
Proof.
  apply (inside_is_accepted Example.ROOT (Example.project None) "conf/../a.jsonc"
           "a.jsonc" []); try discriminate; vm_compute; reflexivity.
Defined.

Lemma upper_case_extension_witness :
  FsSafety.ensureJsonLike ("conf/" ++ "base" ++ "." ++ "JSONC") = Ok tt.
Proof.
  apply (json_and_jsonc_names_pass "conf/" "base" "JSONC");
    [right; exists "conf"; reflexivity | discriminate | reflexivity | right; reflexivity].
Defined.

Lemma colliding_arrays_witness :
  exists merged,
    Deepmerge.merge (JObj [("items", JArr [JNum 1; JNum 2]); ("name", JStr "base")])
      (JObj ([("name", JStr "dev")] ++ ("items", JArr [JNum 3; JNum 4]) :: [("extra", JNull)])%list)
    = JObj merged
    /\ Obj.get "items" merged
       = Some (JArr (map Deepmerge.clone ([JNum 1; JNum 2] ++ [JNum 3; JNum 4])%list)).
Proof.
  apply (colliding_arrays_concatenate
           [("items", JArr [JNum 1; JNum 2]); ("name", JStr "base")]
           [("name", JStr "dev")] [("extra", JNull)] "items"
           [JNum 1; JNum 2] [JNum 3; JNum 4]).
  - discriminate.
  - reflexivity.
  - intros [H | []]. discriminate H.
Defined.

Lemma all_missing_witness :
  resolveInputPaths Example.ROOT (Example.project None)
    ["missing1.json"; "missing2.json"] true = Ok [].
Proof.
  apply (all_missing_resolve_to_nothing Example.ROOT (Example.project None)
           ["missing1.json"; "missing2.json"]).
  repeat constructor; try (eexists; split); vm_compute; reflexivity.
Defined.

Lemma missing_mtime_witness :
  FsSafety.getMtimeMs (Example.project None) None = NegInfinity
  /\ FsSafety.getMtimeMs (Example.project None) (Some "/home/dev/app/out.json") = NegInfinity
  /\ msec_le (FsSafety.getMtimeMs (Example.project None) (Some "/home/dev/app/out.json"))
             (Finite 0) = true.
Proof.
  apply (missing_file_is_infinitely_old (Example.project None) "/home/dev/app/out.json"
           (Finite 0)).
  vm_compute; reflexivity.
Defined.

Lemma readText_witness :
  FsSafety.readText (Example.project (Some (File "old" 1500))) "/home/dev/app/out.json"
  = Ok "old".
Proof.
  apply (readText_regular_file (Example.project (Some (File "old" 1500)))
           "/home/dev/app/out.json" "old" 1500).
  vm_compute; reflexivity.
Defined.

Lemma atomicity_witness :
  exists added,
    log (snd (FsSafety.atomicWrite "/home/dev/app/out.json" "new" true
                (Example.project (Some (File "old" 1500)))))
    = (log (Example.project (Some (File "old" 1500))) ++ added)%list
    /\ forallb (atomic_call "/home/dev/app/out.json") added = true.
Proof.
  apply (atomicWrite_is_atomic "/home/dev/app/out.json" "new" true
           (Example.project (Some (File "old" 1500)))
           (fst (FsSafety.atomicWrite "/home/dev/app/out.json" "new" true
                   (Example.project (Some (File "old" 1500))))));
    vm_compute; reflexivity.
Defined.

Lemma stale_output_witness :
  exists r fs',
    Example.run (Example.options false false) (Example.project (Some (File "old" 1500)))
    = (Ok r, fs')
    /\ MergeResult.wrote r = true
    /\ MergeResult.out r = Some "/home/dev/app/out.json"
    /\ Fs.readFileSync fs' "/home/dev/app/out.json" = Ok Example.merged_text.
Proof.
  apply (stale_output_is_rewritten Example.ROOT Sample.parse Sample.parse
           Sample.stringify (Example.options false false)
           (Example.project (Some (File "old" 1500)))
           ["/home/dev/app/a.jsonc"; "/home/dev/app/b.jsonc"]
           "/home/dev/app/out.json" Example.concatenated) with (current := "old");
    try discriminate; vm_compute; reflexivity.
Defined.

Lemma default_merge_witness :
  mergeFiles Sample.parse Sample.parse (Example.project None)
    ["/home/dev/app/a.jsonc"; "/home/dev/app/b.jsonc"]
  = Ok Example.concatenated
  /\ Example.concatenated <> Example.replaced.
Proof.
  apply (default_merge_concatenates_arrays Sample.parse Sample.parse (Example.project None)
           "/home/dev/app/a.jsonc" "/home/dev/app/b.jsonc"
           (Sample.stringify Example.first_doc 2) (Sample.stringify Example.second_doc 2));
    vm_compute; reflexivity.
Defined.

Lemma dotdot_prefixed_name_witness :
  FsSafety.validateSegments "..a.json" = Ok tt
  /\ target_of Example.ROOT (Example.project None) "..a.json" = "/home/dev/app/..a.json"
  /\ Path.segments "/home/dev/app/..a.json"
     = (Path.segments Example.ROOT ++ ["..a.json"])%list
  /\ FsSafety.ensureInsideRoot Example.ROOT (Example.project None) "..a.json"
     = Throw (OutsideRoot "..a.json").
Proof.
  apply (dotdot_prefixed_name_is_refused (Example.project None)).
  vm_compute; reflexivity.
Defined.

Lemma dotdot_segment_witness :
  FsSafety.ensureInsideRoot Example.ROOT (Example.project None) "conf/../..cache/x.json"
  = Throw (OutsideRoot "conf/../..cache/x.json").
Proof.
  apply (dotdot_segment_is_refused Example.ROOT (Example.project None)
           "conf/../..cache/x.json" "..cache" ["x.json"]);
    vm_compute; reflexivity.
Defined.

Lemma root_itself_witness :
  FsSafety.ensureInsideRoot Example.ROOT (Example.project None) "." = Ok Example.ROOT.
Proof.
  apply (root_itself_is_accepted Example.ROOT (Example.project None) ".");
    vm_compute; reflexivity.
Defined.

Lemma second_run_witness :
  let first := Example.run (Example.options false true)
                 (Example.project (Some (File "old" 1500))) in
  Example.run (Example.options false true) (snd first)
  = (Ok (skipped no_content_change), snd first).
Proof.
  intros first.
  apply (second_run_changes_nothing Example.ROOT Sample.parse Sample.parse
           Sample.stringify (Example.options false true)
           (Example.project (Some (File "old" 1500)))
           ["/home/dev/app/a.jsonc"; "/home/dev/app/b.jsonc"]
           "/home/dev/app/out.json" Example.concatenated
           {| MergeResult.wrote := true; MergeResult.reason := wrote_with_backup;
              MergeResult.preview := None;
              MergeResult.out := Some "/home/dev/app/out.json";
              MergeResult.backup := Some "/home/dev/app/out.json.bak" |}
           (snd first));
    try discriminate; vm_compute; reflexivity.
Defined.

Lemma resolved_inputs_witness :
  let fs := Example.project None in
  let l := ["/home/dev/app/a.jsonc"; "/home/dev/app/b.jsonc"] in
  l = List.filter (Fs.existsSync fs)
        (map (target_of Example.ROOT fs) ["a.jsonc"; "missing.json"; "b.jsonc"])
  /\ Forall (fun abs => exists c m, nodes fs !! abs = Some (File c m)) l
  /\ (true = false ->
      l = map (target_of Example.ROOT fs) ["a.jsonc"; "missing.json"; "b.jsonc"]).
Proof.
  intros fs l.
  apply (resolved_inputs_are_the_existing_targets Example.ROOT fs
           ["a.jsonc"; "missing.json"; "b.jsonc"] true l);
    [discriminate | vm_compute; reflexivity].
Defined.

Lemma escaping_directory_witness :
  FsSafety.ensureInsideRoot Example.ROOT Example.with_linked_dir "ext/out.json"
  = Ok "/home/dev/app/ext/out.json"
  /\ exists e, FsSafety.safeOutputPath Example.ROOT Example.with_linked_dir "ext/out.json"
               = Throw e.
Proof.
  split; [vm_compute; reflexivity |].
  apply (output_below_an_escaping_directory_is_refused Example.ROOT
           Example.with_linked_dir "ext/out.json").
  intros [k H]. vm_compute in H. discriminate H.
Defined.

Lemma merge_lookup_witness :
  (exists merged,
     Deepmerge.merge (JObj Example.base_doc) (JObj Example.local_doc) = JObj merged
     /\ Obj.get "server" merged
        = Some (JObj [("port", JNum 80); ("host", JStr "localhost")]))
  /\ (exists merged,
        Deepmerge.merge (JObj Example.base_doc) (JObj Example.local_doc) = JObj merged
        /\ Obj.get "toString" merged = None).
Proof.
  split.
  - apply (merge_lookup Example.base_doc Example.local_doc "server");
      [apply (bool_decide_unpack _); vm_compute; reflexivity ..| discriminate].
  - apply (merge_lookup Example.base_doc Example.local_doc "toString");
      [apply (bool_decide_unpack _); vm_compute; reflexivity ..| discriminate].
Defined.

Lemma calls_under_root_witness :
  let before := Example.project (Some (File "old" 1500)) in
  let outcome := Example.run (Example.options false true) before in
  exists added,
    log (snd outcome) = (log before ++ added)%list
    /\ Forall (fun c => Forall (under Example.ROOT) (call_paths c)) added.
Proof.
  intros before outcome.
  apply (every_call_stays_under_the_root Example.ROOT Sample.parse Sample.parse
           Sample.stringify (Example.options false true) before
           "/home/dev/app/out.json" (fst outcome) (snd outcome)).
  - vm_compute; reflexivity.
  - vm_compute; reflexivity.
  - intros H. vm_compute in H. discriminate H.
  - vm_compute; reflexivity.
Defined.

Lemma frame_witness :
  let before := Example.project (Some (File "old" 1500)) in
  let outcome := Example.run (Example.options false true) before in
  snd outcome = before
  \/ exists outAbs,
       FsSafety.safeOutputPath Example.ROOT before (out (Example.options false true))
       = Ok outAbs
       /\ default false (dryRun (Example.options false true)) = false
       /\ kept_elsewhere outAbs before (snd outcome).
Proof.
  intros before outcome.
  apply (only_the_output_and_its_siblings_change Example.ROOT Sample.parse Sample.parse
           Sample.stringify (Example.options false true) before
           (fst outcome) (snd outcome)).
  - reflexivity.
  - vm_compute; reflexivity.
Defined.

Lemma failed_run_witness :
  let before := Example.blocked_tmp in
  let outcome := Example.run (Example.options false true) before in
  fst outcome = Throw (EISDIR "/home/dev/app/out.json.tmp")
  /\ Fs.readFileSync (snd outcome) "/home/dev/app/out.json.bak" = Ok "old"
  /\ nodes (snd outcome) !! "/home/dev/app/out.json"
     = nodes before !! "/home/dev/app/out.json".
Proof.
  intros before outcome.
  split; [vm_compute; reflexivity |]. split; [vm_compute; reflexivity |].
  apply (failed_run_keeps_the_output Example.ROOT Sample.parse Sample.parse
           Sample.stringify (Example.options false true) before
           (EISDIR "/home/dev/app/out.json.tmp") (snd outcome)
           "/home/dev/app/out.json");
    vm_compute; reflexivity.
Defined.

Lemma bare_names_witness :
  ("json" <> "" ->
   FsSafety.ensureJsonLike ("conf/" ++ "json") = Throw (NotJsonLike ("conf/" ++ "json")))
  /\ FsSafety.ensureJsonLike ("conf/" ++ "." ++ "json")
     = Throw (NotJsonLike ("conf/" ++ "." ++ "json")).
Proof.
  apply (names_without_extension_are_refused "conf/" "json");
    [right; exists "conf"; reflexivity | reflexivity].
Defined.

Lemma parser_witness :
  parseJsonFile Example.refuse Sample.parse ("/home/dev/app/real" ++ "." ++ "JSON5") "{}"
  = Ok (JObj [])
  /\ parseJsonFile Sample.parse Example.refuse ("/home/dev/app/real" ++ "." ++ "JSON5") "{}"
     = Throw (ParseFailed "JSON5" ("/home/dev/app/real" ++ "." ++ "JSON5")
                (SyntaxError "not this parser")).
Proof.
  split.
  - exact (parser_is_chosen_by_the_last_suffix Example.refuse Sample.parse
             "/home/dev/app/real" "JSON5" "{}" eq_refl).
  - exact (parser_is_chosen_by_the_last_suffix Sample.parse Example.refuse
             "/home/dev/app/real" "JSON5" "{}" eq_refl).
Defined.

Lemma ill_typed_witness :
  Config.normalizeConfigOptions (Config.VObject Example.ill_typed) "merge-jsonc.config.js"
  = Config.Throws (Config.InvalidValue "pretty" "merge-jsonc.config.js" "boolean").
Proof.
  apply (first_ill_typed_key_is_reported Example.ill_typed "merge-jsonc.config.js"
           [("out", "string"); ("skipMissing", "boolean")]
           [("dryRun", "boolean"); ("backup", "boolean"); ("indent", "finite number")]
           "pretty" "boolean"); reflexivity.
Defined.

Lemma message_witness :
  let r := {| MergeResult.wrote := false; MergeResult.reason := dry_run;
              MergeResult.preview := Some Example.merged_text; MergeResult.out := None;
              MergeResult.backup := None |} in
  Cli.formatOutputMessage r "out.json"
  = "[merge-jsonc] DRY RUN - would write to " ++ "out.json" ++ ":" ++ Cli.LF
    ++ Example.merged_text.
Proof.
  intros r.
  apply (every_result_has_its_message Example.ROOT Sample.parse Sample.parse
           Sample.stringify (Example.options true true)
           (Example.project (Some (File "old" 9000))) r
           (Example.project (Some (File "old" 9000))) "out.json").
  - vm_compute; reflexivity.
  - intros t H. vm_compute in H. injection H as <-. discriminate.
Defined.

Lemma command_line_witness :
  Cli.mergeArgsWithConfig (Cli.parsedArgs Example.argv) Example.config
  = Cli.mergeArgsWithConfig (Cli.parsedArgs Example.argv) Example.other_config.
Proof.
  apply (config_reaches_the_run_through_indent_alone Example.argv Example.config
           Example.other_config); [| reflexivity].
  unfold Cli.defaults_filled. cbn. repeat split; eexists; reflexivity.
Defined.

Lemma wrote_witness :
  let before := Example.project (Some (File "old" 1500)) in
  let outcome := Example.run (Example.options false false) before in
  exists inputAbs combined,
    resolveInputPaths Example.ROOT before ["a.jsonc"; "b.jsonc"] false = Ok inputAbs
    /\ mergeFiles Sample.parse Sample.parse before inputAbs = Ok combined
    /\ Some "/home/dev/app/out.json" = Some "/home/dev/app/out.json"
    /\ Fs.readFileSync (snd outcome) "/home/dev/app/out.json"
       = Ok (serialized Sample.stringify (Example.options false false) combined)
    /\ Fs.existsSync (snd outcome) ("/home/dev/app/out.json" ++ ".tmp") = false.
Proof.
  intros before outcome.
  apply (a_run_that_wrote_holds_the_merge Example.ROOT Sample.parse Sample.parse
           Sample.stringify (Example.options false false) before
           "/home/dev/app/out.json"
           {| MergeResult.wrote := true; MergeResult.reason := wrote;
              MergeResult.preview := None;
              MergeResult.out := Some "/home/dev/app/out.json";
              MergeResult.backup := None |} (snd outcome));
    vm_compute; reflexivity.
Defined.
